(** * Asset reconciliation of tutor-contrib-oars, embedded in Rocq

    Two source files are embedded here:
    - [scripts/translate_utils.py]: the path walker that extracts
      translatable text from a parsed asset ([Module TranslateUtils]), and
      the functions that gather the text of all asset files and compile
      the translated files ([Module TranslateFiles]);
    - [tutoraspects/asset_import_helper.py]: validation, omitted-field
      stripping and template preservation of an imported asset against the
      version already on disk ([Module AssetImport]).

    Text extraction only reads its argument, so it is embedded over
    immutable trees.  The import helper mutates Python dicts in place and
    stores references to parts of the existing tree inside the new one, so
    it is embedded over an explicit object store.

    Left out: YAML floats, timestamps and anchors (a parsed file is a
    tree); the zip and file system calls, which appear as an archive of
    parsed entries and a table of parsed files; the attribute
    [self.assets_path] that [get_path] sets and nothing reads; the lines a
    call of [_validate_asset_file] has echoed when it then raises. *)

From Stdlib Require Import ZArith String Ascii List Bool Lia.
From stdpp Require Import base list strings.
Import ListNotations.

Set Warnings "-register-all".

Local Open Scope string_scope.
Local Open Scope list_scope.

(** ** Python data shared by both files *)

(** The exceptions the embedded code can raise. *)
Inductive exn : Type :=
| KeyError
| TypeError
| AttributeError
| IndexError
| JSONDecodeError
| SqlfmtError
| NotImplementedError
| SupersetCommandError.

(** What [yaml.safe_load] produces: mappings keep their insertion order and
    are keyed by strings.  Floats and timestamps are left out. *)
Inductive yaml : Type :=
| YNull
| YBool (b : bool)
| YInt (n : Z)
| YStr (s : string)
| YList (items : list yaml)
| YMap (entries : list (string * yaml)).

(** [needle in hay] on two Python strings. *)
Definition str_contains (needle hay : string) : bool :=
  match String.index 0 needle hay with
  | Some _ => true
  | None => false
  end.

(** [s.startswith(p)]. *)
Definition startswith (s p : string) : bool := String.prefix p s.

(** [s.split(sep)] for a one-character separator: never the empty list. *)
Fixpoint split_on (sep : ascii) (s : string) : list string :=
  match s with
  | EmptyString => [""]
  | String c s' =>
      if Ascii.eqb c sep then "" :: split_on sep s'
      else match split_on sep s' with
           | w :: ws => String c w :: ws
           | [] => [String c ""]
           end
  end.

Definition split_dot (s : string) : list string := split_on "."%char s.

(** First entry of an ordered mapping with the given key. *)
Fixpoint assoc {V : Type} (k : string) (entries : list (string * V)) : option V :=
  match entries with
  | [] => None
  | (k', v) :: rest => if String.eqb k' k then Some v else assoc k rest
  end.

Definition has_key {V : Type} (k : string) (entries : list (string * V)) : bool :=
  match assoc k entries with
  | Some _ => true
  | None => false
  end.

(** [d[k] = v] on the entries of an ordered mapping: an existing key keeps
    its position, a new key goes last. *)
Fixpoint assoc_set {V : Type} (k : string) (v : V) (entries : list (string * V))
  : list (string * V) :=
  match entries with
  | [] => [(k, v)]
  | (k', v') :: rest =>
      if String.eqb k' k then (k, v) :: rest else (k', v') :: assoc_set k v rest
  end.

(** [d.pop(k, None)] on the entries of an ordered mapping. *)
Fixpoint assoc_pop {V : Type} (k : string) (entries : list (string * V))
  : list (string * V) :=
  match entries with
  | [] => []
  | (k', v') :: rest =>
      if String.eqb k' k then rest else (k', v') :: assoc_pop k rest
  end.

Module TranslateUtils.

(** Python truthiness, as tested by [if not content]. *)
Definition truthy (v : yaml) : bool :=
  match v with
  | YNull => false
  | YBool b => b
  | YInt n => negb (Z.eqb n 0)
  | YStr s => negb (String.eqb s "")
  | YList items => match items with [] => false | _ => true end
  | YMap entries => match entries with [] => false | _ => true end
  end.

(** Lines written by the [print] calls of the file. *)
Inductive line : Type :=
| CouldNotTranslate (var_path : list string) (content : yaml)
| Extracted (n : nat) (asset_type : string) (uuid : yaml).

Inductive result (A : Type) : Type :=
| Ok (a : A)
| Raise (e : exn).
Arguments Ok {A} a.
Arguments Raise {A} e.

(** A computation that prints lines and then returns or raises. *)
Definition printed (A : Type) : Type := (list line * result A)%type.

Definition ret {A : Type} (a : A) : printed A := ([], Ok a).
Definition raise {A : Type} (e : exn) : printed A := ([], Raise e).
Definition print (l : line) : printed unit := ([l], Ok tt).

Definition bind {A B : Type} (m : printed A) (k : A -> printed B) : printed B :=
  match m with
  | (out, Ok a) => let '(out', r) := k a in (out ++ out', r)
  | (out, Raise e) => (out, Raise e)
  end.

Notation "'let*' x ':=' m 'in' k" := (bind m (fun x => k))
  (at level 10, x name, m at level 100, k at level 200).

(** [content.get(key, default)]: only a mapping has the method. *)
Definition py_get (content : yaml) (key : string) (default : yaml) : printed yaml :=
  match content with
  | YMap entries =>
      match assoc key entries with
      | Some v => ret v
      | None => ret default
      end
  | _ => raise AttributeError
  end.

(** [for item in items: strings.append(f(item))]. *)
Fixpoint for_append {A : Type} (f : A -> printed yaml) (items : list A)
  : printed (list yaml) :=
  match items with
  | [] => ret []
  | item :: rest =>
      let* v := f item in let* vs := for_append f rest in ret (v :: vs)
  end.

(** [for item in items: strings.extend(f(item))]. *)
Fixpoint for_extend {A : Type} (f : A -> printed (list yaml)) (items : list A)
  : printed (list yaml) :=
  match items with
  | [] => ret []
  | item :: rest =>
      let* vs := f item in let* ws := for_extend f rest in ret (vs ++ ws)
  end.

(** [f(content.get(key))] on the entries of a mapping, where [none] is
    [f(None)], the value for a missing key. *)
Fixpoint on_get {A : Type} (f : yaml -> A) (none : A) (key : string)
    (entries : list (string * yaml)) : A :=
  match entries with
  | [] => none
  | (k, v) :: rest => if String.eqb k key then f v else on_get f none key rest
  end.

(** [x or y] on Python lists. *)
Definition list_or {A : Type} (x y : list A) : list A :=
  match x with
  | [] => y
  | _ => x
  end.

(** [TranslatableAsset.translate_var]. *)
Fixpoint translate_var (content : yaml) (var_path : list string) {struct content}
  : printed (list yaml) :=
  if negb (truthy content) then ret []
  else
    match var_path with
    | [seg] =>
        match content with
        | YList items => for_append (fun item => py_get item seg (YStr "")) items
        | _ => let* v := py_get content seg (YStr "") in ret (list_or [v] [])
        end
    | _ =>
        match content with
        | YList items =>
            for_extend (fun item => translate_var item (tl var_path)) items
        | YMap entries =>
            match var_path with
            | [] => raise IndexError
            | seg :: rest =>
                if String.eqb seg "*" then
                  for_extend (fun kv => match kv with
                                        | (_, value) => translate_var value rest
                                        end) entries
                else
                  (* [translate_var(None, ...)] is [[]], by the first test *)
                  on_get (fun child => translate_var child rest) (ret []) seg entries
            end
        | _ => let* _ := print (CouldNotTranslate var_path content) in ret []
        end
    end.

(** The three translatable asset classes. *)
Inductive asset_class : Type := DashboardAsset | ChartAsset | DatasetAsset.

Definition translatable_attributes (c : asset_class) : list string :=
  match c with
  | DashboardAsset =>
      [ "dashboard_title"; "description";
        "metadata.native_filter_configuration.name";
        "metadata.native_filter_configuration.description";
        "position.*.meta.text"; "position.*.meta.code" ]
  | ChartAsset =>
      [ "slice_name"; "description"; "params.x_axis_label"; "params.y_axis_label" ]
  | DatasetAsset =>
      [ "metrics.verbose_name"; "columns.verbose_name" ]
  end.

Definition ASSET_FOLDER_MAPPING : list (string * (string * asset_class)) :=
  [ ("dashboard_title", ("dashboards", DashboardAsset));
    ("slice_name", ("charts", ChartAsset));
    ("table_name", ("datasets", DatasetAsset)) ].

(** [extract_text] of an asset of class [c]. *)
Definition extract_text (c : asset_class) (asset : yaml) : printed (list yaml) :=
  for_extend (fun var_path => translate_var asset (split_dot var_path))
             (translatable_attributes c).

(** [key in asset]: key membership for a mapping, element membership for a
    list, substring test for a string, [TypeError] otherwise. *)
Definition is_str (key : string) (v : yaml) : bool :=
  match v with
  | YStr s => String.eqb s key
  | _ => false
  end.

Definition py_in (key : string) (asset : yaml) : printed bool :=
  match asset with
  | YMap entries => ret (has_key key entries)
  | YList items => ret (existsb (is_str key) items)
  | YStr s => ret (str_contains key s)
  | _ => raise TypeError
  end.

(** The loop of [mark_text_for_translation] over the remaining entries of
    [ASSET_FOLDER_MAPPING]. *)
Fixpoint mark_text_loop (mapping : list (string * (string * asset_class)))
    (asset : yaml) : printed (list yaml) :=
  match mapping with
  | [] => ret []
  | (key, (asset_type, c)) :: rest =>
      let* found := py_in key asset in
      if (found : bool) then
        let* strings := extract_text c asset in
        let* uuid := py_get asset "uuid" YNull in
        let* _ := print (Extracted (length strings) asset_type uuid) in
        ret strings
      else mark_text_loop rest asset
  end.

Definition mark_text_for_translation (asset : yaml) : printed (list yaml) :=
  mark_text_loop ASSET_FOLDER_MAPPING asset.

End TranslateUtils.

Module AssetImport.

(** *** The object store

    Python dicts and lists are objects with identity: a value is either
    an immutable scalar or a reference to an object of the store.  Two
    references to one location are two names of one mutable object. *)

Definition loc : Type := nat.

Inductive value : Type :=
| VNone
| VBool (b : bool)
| VInt (n : Z)
| VStr (s : string)
| VRef (l : loc).

Inductive object : Type :=
| ODict (entries : list (string * value))
| OList (items : list value).

Abbreviation store := (list object).

(** A call returns, raises, or (in the model only) exhausts its fuel.  The
    store at the time of a raise is kept: mutations made before an
    exception are not rolled back. *)
Inductive outcome (A : Type) : Type :=
| Ok (a : A) (h : store)
| Raise (e : exn) (h : store)
| OutOfFuel.
Arguments Ok {A} a h.
Arguments Raise {A} e h.
Arguments OutOfFuel {A}.

Definition M (A : Type) : Type := store -> outcome A.

Definition ret {A : Type} (a : A) : M A := fun h => Ok a h.
Definition raise {A : Type} (e : exn) : M A := fun h => Raise e h.
Definition out_of_fuel {A : Type} : M A := fun _ => OutOfFuel.

Definition bind {A B : Type} (m : M A) (k : A -> M B) : M B :=
  fun h =>
    match m h with
    | Ok a h' => k a h'
    | Raise e h' => Raise e h'
    | OutOfFuel => OutOfFuel
    end.

Notation "'let*' x ':=' m 'in' k" := (bind m (fun x => k))
  (at level 10, x name, m at level 100, k at level 200).

Definition exn_eqb (a b : exn) : bool :=
  match a, b with
  | KeyError, KeyError | TypeError, TypeError | AttributeError, AttributeError
  | IndexError, IndexError | JSONDecodeError, JSONDecodeError
  | SupersetCommandError, SupersetCommandError
  | NotImplementedError, NotImplementedError
  | SqlfmtError, SqlfmtError => true
  | _, _ => false
  end.

(** [try: m  except e0: pass]. *)
Definition try_pass (e0 : exn) (m : M unit) : M unit :=
  fun h =>
    match m h with
    | Raise e h' => if exn_eqb e e0 then Ok tt h' else Raise e h'
    | r => r
    end.

(** [for x in xs: body(x)] over a sequence fixed when the loop starts. *)
Fixpoint for_each {A : Type} (body : A -> M unit) (xs : list A) : M unit :=
  match xs with
  | [] => ret tt
  | x :: rest => let* _ := body x in for_each body rest
  end.

(** [for i, x in enumerate(xs): body(i, x)], counting from [i]. *)
Fixpoint for_enumerate {A : Type} (body : nat -> A -> M unit) (i : nat) (xs : list A)
  : M unit :=
  match xs with
  | [] => ret tt
  | x :: rest => let* _ := body i x in for_enumerate body (S i) rest
  end.

(** A loop that threads a local variable of type [S]. *)
Fixpoint for_fold {A S : Type} (body : S -> A -> M S) (s : S) (xs : list A) : M S :=
  match xs with
  | [] => ret s
  | x :: rest => let* s' := body s x in for_fold body s' rest
  end.

(** *** Reading values *)

Definition deref (h : store) (v : value) : option object :=
  match v with
  | VRef l => h !! l
  | _ => None
  end.

(** [isinstance(v, dict)]. *)
Definition is_dict (h : store) (v : value) : bool :=
  match deref h v with
  | Some (ODict _) => true
  | _ => false
  end.

(** Python truthiness: [None], [False], [0], the empty string and empty
    containers are false. *)
Definition truthy (h : store) (v : value) : bool :=
  match v with
  | VNone => false
  | VBool b => b
  | VInt n => negb (Z.eqb n 0)
  | VStr s => negb (String.eqb s "")
  | VRef l =>
      match h !! l with
      | Some (ODict []) => false
      | Some (OList []) => false
      | _ => true
      end
  end.

(** [container[key]] with a string key. *)
Definition getitem (container : value) (key : string) : M value :=
  fun h =>
    match deref h container with
    | Some (ODict entries) =>
        match assoc key entries with
        | Some v => Ok v h
        | None => Raise KeyError h
        end
    | _ => Raise TypeError h
    end.

(** [container[key] = v] with a string key. *)
Definition setitem (container : value) (key : string) (v : value) : M unit :=
  fun h =>
    match container with
    | VRef l =>
        match h !! l with
        | Some (ODict entries) => Ok tt (<[l := ODict (assoc_set key v entries)]> h)
        | _ => Raise TypeError h
        end
    | _ => Raise TypeError h
    end.

(** [container.get(key, default)]: only a dict has the method. *)
Definition py_get (container : value) (key : string) (default : value) : M value :=
  fun h =>
    match deref h container with
    | Some (ODict entries) =>
        match assoc key entries with
        | Some v => Ok v h
        | None => Ok default h
        end
    | _ => Raise AttributeError h
    end.

(** [container.pop(key, None)]: a list rejects the second argument, the
    scalars have no such method. *)
Definition py_pop (container : value) (key : string) : M unit :=
  fun h =>
    match container with
    | VRef l =>
        match h !! l with
        | Some (ODict entries) => Ok tt (<[l := ODict (assoc_pop key entries)]> h)
        | _ => Raise TypeError h
        end
    | _ => Raise AttributeError h
    end.

Definition value_is_str (key : string) (v : value) : bool :=
  match v with
  | VStr s => String.eqb s key
  | _ => false
  end.

(** [key in container]: key membership for a dict, element membership for
    a list, substring test for a string. *)
Definition contains (key : string) (container : value) : M bool :=
  fun h =>
    match container with
    | VStr s => Ok (str_contains key s) h
    | VRef l =>
        match h !! l with
        | Some (ODict entries) => Ok (has_key key entries) h
        | Some (OList items) => Ok (existsb (value_is_str key) items) h
        | None => Raise TypeError h
        end
    | _ => Raise TypeError h
    end.

(** [container[i]] with an integer index [i >= 0]. *)
Definition getindex (container : value) (i : nat) : M value :=
  fun h =>
    match container with
    | VStr s =>
        match String.get i s with
        | Some c => Ok (VStr (String c "")) h
        | None => Raise IndexError h
        end
    | VRef l =>
        match h !! l with
        | Some (OList items) =>
            match items !! i with
            | Some v => Ok v h
            | None => Raise IndexError h
            end
        | Some (ODict _) => Raise KeyError h
        | None => Raise TypeError h
        end
    | _ => Raise TypeError h
    end.

(** The items a [for] loop over [v] visits: the items of a list, the keys
    of a dict, the characters of a string. *)
Fixpoint chars (s : string) : list value :=
  match s with
  | EmptyString => []
  | String c rest => VStr (String c "") :: chars rest
  end.

Definition py_iter (v : value) : M (list value) :=
  fun h =>
    match v with
    | VStr s => Ok (chars s) h
    | VRef l =>
        match h !! l with
        | Some (OList items) => Ok items h
        | Some (ODict entries) => Ok (map (fun kv => VStr (fst kv)) entries) h
        | None => Raise TypeError h
        end
    | _ => Raise TypeError h
    end.

(** [x or None]. *)
Definition or_none (h : store) (x : value) : value :=
  if truthy h x then x else VNone.

(** *** Trees and the store

    [yaml.safe_load] and [json.loads] build fresh objects: [alloc] places
    a tree in the store, the parent before its children.  [dump] reads a
    tree back, as [yaml.dump] does for a value without cycles. *)
Fixpoint alloc_items (alloc : yaml -> store -> value * store)
    (trees : list yaml) (h : store) : list value * store :=
  match trees with
  | [] => ([], h)
  | t :: rest =>
      let '(v, h1) := alloc t h in
      let '(vs, h2) := alloc_items alloc rest h1 in
      (v :: vs, h2)
  end.

Fixpoint alloc_entries (alloc : yaml -> store -> value * store)
    (trees : list (string * yaml)) (h : store) : list (string * value) * store :=
  match trees with
  | [] => ([], h)
  | (k, t) :: rest =>
      let '(v, h1) := alloc t h in
      let '(kvs, h2) := alloc_entries alloc rest h1 in
      ((k, v) :: kvs, h2)
  end.

Fixpoint alloc (t : yaml) (h : store) : value * store :=
  match t with
  | YNull => (VNone, h)
  | YBool b => (VBool b, h)
  | YInt n => (VInt n, h)
  | YStr s => (VStr s, h)
  | YList items =>
      let l := length h in
      let '(vs, h') := alloc_items alloc items (h ++ [OList []]) in
      (VRef l, <[l := OList vs]> h')
  | YMap entries =>
      let l := length h in
      let '(kvs, h') := alloc_entries alloc entries (h ++ [ODict []]) in
      (VRef l, <[l := ODict kvs]> h')
  end.

Fixpoint dump (fuel : nat) (h : store) (v : value) : option yaml :=
  match fuel with
  | 0 => None
  | S fuel' =>
      match v with
      | VNone => Some YNull
      | VBool b => Some (YBool b)
      | VInt n => Some (YInt n)
      | VStr s => Some (YStr s)
      | VRef l =>
          match h !! l with
          | Some (OList items) => YList <$> mapM (dump fuel' h) items
          | Some (ODict entries) =>
              YMap <$> mapM (fun kv => pair (fst kv) <$> dump fuel' h (snd kv)) entries
          | None => None
          end
      end
  end.

(** A look at the store that changes nothing. *)
Definition read {A : Type} (f : store -> A) : M A := fun h => Ok (f h) h.

Definition is_truthy (v : value) : M bool := read (fun h => truthy h v).

(** [yaml.safe_load] / [json.loads] of a tree: fresh objects. *)
Definition new (t : yaml) : M value :=
  fun h => let '(v, h') := alloc t h in Ok v h'.

(** *** Strings: template markers, titles, file names *)

(** ["{{" in s or "{%" in s]. *)
Definition has_template_marker (s : string) : bool :=
  str_contains "{{" s || str_contains "{%" s.

(** [s.startswith("{{") or s.startswith("{%")]. *)
Definition starts_templated (s : string) : bool :=
  startswith s "{{" || startswith s "{%".

Definition raw_wrap (s : string) : string := "{% raw %}" ++ s ++ "{% endraw %}".

Definition is_lower (c : ascii) : bool :=
  (97 <=? nat_of_ascii c)%nat && (nat_of_ascii c <=? 122)%nat.
Definition is_upper (c : ascii) : bool :=
  (65 <=? nat_of_ascii c)%nat && (nat_of_ascii c <=? 90)%nat.
Definition is_digit (c : ascii) : bool :=
  (48 <=? nat_of_ascii c)%nat && (nat_of_ascii c <=? 57)%nat.
Definition to_upper (c : ascii) : ascii :=
  if is_lower c then ascii_of_nat (nat_of_ascii c - 32) else c.
Definition to_lower (c : ascii) : ascii :=
  if is_upper c then ascii_of_nat (nat_of_ascii c + 32) else c.

(** [s.replace("_", " ")]. *)
Fixpoint replace_underscores (s : string) : string :=
  match s with
  | EmptyString => EmptyString
  | String c rest =>
      String (if Ascii.eqb c "_"%char then " "%char else c) (replace_underscores rest)
  end.

(** [s.title()] on ASCII text: a letter that follows a letter is lowered,
    any other letter is raised. *)
Fixpoint title_from (after_letter : bool) (s : string) : string :=
  match s with
  | EmptyString => EmptyString
  | String c rest =>
      if is_lower c || is_upper c then
        String (if after_letter then to_lower c else to_upper c) (title_from true rest)
      else String c (title_from false rest)
  end.

Definition title (s : string) : string := title_from false s.

(** [os.path.basename] and [os.path.join] on POSIX paths. *)
Definition basename (p : string) : string :=
  List.last (split_on "/"%char p) "".

Definition ends_with_slash (p : string) : bool :=
  match String.get (String.length p - 1) p with
  | Some c => Ascii.eqb c "/"%char
  | None => false
  end.

Definition path_join (a b : string) : string :=
  if startswith b "/" then b
  else if String.eqb a "" || ends_with_slash a then a ++ b
  else a ++ "/" ++ b.

(** [re.sub] with the pattern of the file (an underscore, any number of
    digits, then [.yaml]) and a replacement without backslashes: every
    match, leftmost first, is replaced. *)
Fixpoint skip_digits (s : string) : string :=
  match s with
  | EmptyString => EmptyString
  | String c rest => if is_digit c then skip_digits rest else s
  end.

Fixpoint strip_prefix (p s : string) : option string :=
  match p, s with
  | EmptyString, _ => Some s
  | String a p', String b s' => if Ascii.eqb a b then strip_prefix p' s' else None
  | String _ _, EmptyString => None
  end.

Definition match_numbered_yaml (s : string) : option string :=
  match s with
  | String c rest =>
      if Ascii.eqb c "_"%char then strip_prefix ".yaml" (skip_digits rest) else None
  | EmptyString => None
  end.

Fixpoint re_sub_from (fuel : nat) (repl s : string) : string :=
  match fuel with
  | 0 => s
  | S fuel' =>
      match match_numbered_yaml s with
      | Some rest => repl ++ re_sub_from fuel' repl rest
      | None =>
          match s with
          | EmptyString => EmptyString
          | String c rest => String c (re_sub_from fuel' repl rest)
          end
      end
  end.

Definition re_sub (repl s : string) : string :=
  re_sub_from (S (String.length s)) repl s.

Definition FILE_NAME_ATTRIBUTE : string := "_file_name".

(** *** Libraries outside the repository

    [json.loads], sqlfmt's [format_string] and the text an f-string
    renders for a list are taken as given; a [None] result stands for the
    library's exception. *)
Record externals : Type := {
  json_loads : string -> option yaml;
  format_string : string -> option string;
  str_of_list : list yaml -> string
}.

(** *** class Asset *)

(** [x or []] on a class attribute that is [None] or a list. *)
Definition or_empty (x : option (list string)) : list string :=
  match x with
  | Some l => l
  | None => []
  end.

(** [Asset._remove_content]. *)
Fixpoint _remove_content (content : value) (var_path : list string) : M unit :=
  match content with
  | VNone => ret tt
  | _ =>
      match var_path with
      | [] => raise IndexError
      | [key] => py_pop content key
      | key :: rest =>
          let* found := contains key content in
          if (found : bool) then
            let* child := getitem content key in
            _remove_content child rest
          else ret tt
      end
  end.

(** The body of the loop of [Asset.omit_templated_vars] for one key, with
    [self.omit_templated_vars] as [recur].  [old] is [existing[key]], which
    the source reads again at each use. *)
Definition omit_templated_key (recur : value -> value -> M unit)
    (raw_vars : list string) (content existing : value) (key : string) : M unit :=
  let* shared := contains key existing in
  if negb shared then ret tt
  else
    let* old := getitem existing key in
    let* _ :=
      match old with
      | VStr s =>
          if has_template_marker s then
            if existsb (String.eqb key) raw_vars then
              let* new_value := getitem content key in
              match new_value with
              | VStr literal => setitem content key (VStr (raw_wrap literal))
              | _ => raise TypeError
              end
            else setitem content key old
          else ret tt
      | _ => ret tt
      end in
    let* child := getitem content key in
    let* child_is_dict := read (fun h => is_dict h child) in
    let* _ :=
      if (child_is_dict : bool) then
        let* old_child := getitem existing key in
        recur child old_child
      else ret tt in
    let* child := getitem content key in
    let* items := read (fun h => match deref h child with
                                 | Some (OList items) => items
                                 | _ => []
                                 end) in
    for_enumerate
      (fun i item =>
         let* item_is_dict := read (fun h => is_dict h item) in
         if (item_is_dict : bool) then
           try_pass IndexError
             (let* old_list := getitem existing key in
              let* tmp := getindex old_list i in
              let* tmp' := read (fun h => or_none h tmp) in
              recur item tmp')
         else ret tt)
      0 items.

(** [Asset.omit_templated_vars], for an asset whose [get_raw_vars()] is
    [raw_vars].  The keys are those of [content] when the loop starts; the
    function never adds or removes a key. *)
Fixpoint omit_templated_vars (fuel : nat) (raw_vars : list string)
    (content existing : value) : M unit :=
  match fuel with
  | 0 => out_of_fuel
  | S fuel' =>
      fun h =>
        match deref h content, deref h existing with
        | Some (ODict entries), Some (ODict _) =>
            for_each
              (omit_templated_key (omit_templated_vars fuel' raw_vars)
                                  raw_vars content existing)
              (map fst entries) h
        | _, _ => Ok tt h
        end
  end.

Record Asset : Type := {
  path : string;
  templated_vars : option (list string);
  required_vars : option (list string);
  omitted_vars : option (list string);
  raw_vars : option (list string);
  process : externals -> nat -> value -> value -> M unit
}.

Definition get_templated_vars (self : Asset) : list string :=
  or_empty (templated_vars self).
Definition get_required_vars (self : Asset) : list string :=
  or_empty (required_vars self).
Definition get_omitted_vars (self : Asset) : list string := or_empty (omitted_vars self).
Definition get_raw_vars (self : Asset) : list string := or_empty (raw_vars self).

(** [Asset.get_path]. *)
Definition get_path (self : Asset) (all_assets_path : string) : M string :=
  let assets_path := path_join all_assets_path (path self) in
  if String.eqb assets_path "" then raise NotImplementedError else ret assets_path.

(** [Asset.remove_content]. *)
Definition remove_content (self : Asset) (content : value) : M unit :=
  for_each (fun var_path => _remove_content content (split_dot var_path))
           (get_omitted_vars self).

(** [Asset.process]: nothing. *)
Definition Asset_process (_ : externals) (_ : nat) (_ _ : value) : M unit := ret tt.

(** *** class ChartAsset *)

Definition ChartAsset_raw_vars : list string :=
  ["sqlExpression"; "query_context"; "translate_column"].

Definition ChartAsset_process (ext : externals) (fuel : nat)
    (content existing : value) : M unit :=
  let* current := py_get content "query_context" VNone in
  let* has_current := is_truthy current in
  let* has_existing := is_truthy existing in
  let* _ :=
    if negb has_current && has_existing then
      let* old := py_get existing "query_context" VNone in
      setitem content "query_context" old
    else ret tt in
  let* query_context := getitem content "query_context" in
  let* _ :=
    match query_context with
    | VStr s =>
        match json_loads ext s with
        | Some t => let* decoded := new t in setitem content "query_context" decoded
        | None => raise JSONDecodeError
        end
    | _ => ret tt
    end in
  let* has_existing := is_truthy existing in
  if (has_existing : bool) then
    let* new_qc := getitem content "query_context" in
    let* old_qc := py_get existing "query_context" VNone in
    omit_templated_vars fuel ChartAsset_raw_vars new_qc old_qc
  else ret tt.

Definition ChartAsset : Asset := {|
  path := "charts";
  templated_vars := None;
  required_vars := None;
  omitted_vars := Some ["params.dashboards"; "params.datasource"; "params.slice_id"];
  raw_vars := Some ChartAsset_raw_vars;
  process := ChartAsset_process
|}.

(** *** class DashboardAsset *)

Definition DashboardAsset : Asset := {|
  path := "dashboards";
  templated_vars := None;
  required_vars := Some ["_roles"];
  omitted_vars := None;
  raw_vars := None;
  process := Asset_process
|}.

(** *** class DatasetAsset *)

(** [for x in content.get(key, [])]: the values the loop visits. *)
Definition get_iter (content : value) (key : string) : M (list value) :=
  fun h =>
    match deref h content with
    | Some (ODict entries) =>
        match assoc key entries with
        | Some v => py_iter v h
        | None => Ok [] h
        end
    | _ => Raise AttributeError h
    end.

(** The body of both loops of [DatasetAsset.process]: fill in a missing
    [verbose_name] from the field [name_key]. *)
Definition fill_verbose_name (name_key : string) (item : value) : M unit :=
  let* verbose := py_get item "verbose_name" VNone in
  let* has_verbose := is_truthy verbose in
  if (has_verbose : bool) then ret tt
  else
    let* name := getitem item name_key in
    match name with
    | VStr s => setitem item "verbose_name" (VStr (title (replace_underscores s)))
    | _ => raise AttributeError
    end.

(** What sqlfmt raises on a value that is not a string is read as
    [TypeError]. *)
Definition DatasetAsset_process (ext : externals) (_ : nat)
    (content _ : value) : M unit :=
  let* columns := get_iter content "columns" in
  let* _ := for_each (fill_verbose_name "column_name") columns in
  let* metrics := get_iter content "metrics" in
  let* _ := for_each (fill_verbose_name "metric_name") metrics in
  let* sql := getitem content "sql" in
  match sql with
  | VStr s =>
      match format_string ext s with
      | Some formatted => setitem content "sql" (VStr formatted)
      | None => raise SqlfmtError
      end
  | _ => raise TypeError
  end.

Definition DatasetAsset : Asset := {|
  path := "datasets";
  templated_vars := Some ["schema"; "table_name"; "sql"];
  required_vars := None;
  omitted_vars := Some ["extra.certification"];
  raw_vars := None;
  process := DatasetAsset_process
|}.

(** *** class DatabaseAsset *)

Definition DatabaseAsset : Asset := {|
  path := "databases";
  templated_vars := Some ["sqlalchemy_uri"];
  required_vars := None;
  omitted_vars := None;
  raw_vars := None;
  process := Asset_process
|}.

Definition ASSET_TYPE_MAP : list (string * Asset) :=
  [ ("slice_name", ChartAsset);
    ("dashboard_title", DashboardAsset);
    ("table_name", DatasetAsset);
    ("database_name", DatabaseAsset) ].

(** *** _validate_asset_file *)

(** What [echo] is called with. *)
Inductive echo_line : Type :=
| WarnNotTemplated (orig_filename var value : string)
| WarnMissingRequired (orig_filename var : string)
| BlankLine
| ReviewCount (n : nat)
| ReviewFile (filename : string)
| Serialized (n : nat)
| DatasetsChanged.

(** Files on disk: path to parsed content. *)
Abbreviation files := (list (string * yaml)).

(** [existing = None], then [yaml.safe_load] of the file when it exists. *)
Definition load_existing (fs : files) (file_path : string) : M value :=
  match assoc file_path fs with
  | Some t => new t
  | None => ret VNone
  end.

(** The text [content['uuid'][:6]] renders to inside the f-string: the
    first six characters of a string, the rendering of a list's first six
    items; a dict and the other scalars reject the slice. *)
Definition uuid_prefix (ext : externals) (fuel : nat) (uuid : value) : M string :=
  fun h =>
    match uuid with
    | VStr s => Ok (String.substring 0 6 s) h
    | VRef l =>
        match h !! l with
        | Some (OList items) =>
            match mapM (dump fuel h) (take 6 items) with
            | Some ts => Ok (str_of_list ext ts) h
            | None => OutOfFuel
            end
        | _ => Raise TypeError h
        end
    | _ => Raise TypeError h
    end.

(** The local variables [needs_review] and the lines echoed so far. *)
Abbreviation review := (bool * list echo_line)%type.

(** Body of the loop over [cls.get_templated_vars()]. *)
Definition check_templated_var (orig_filename : string) (content existing : value)
    (st : review) (var : string) : M review :=
  let* current := getitem content var in
  let* nonempty := is_truthy current in
  if negb nonempty then ret st
  else
    match current with
    | VStr s =>
        if starts_templated s then ret st
        else
          let* has_existing := is_truthy existing in
          if (has_existing : bool) then
            let* old := getitem existing var in
            let* _ := setitem content var old in
            ret (false, snd st)
          else
            ret (true, snd st ++ [WarnNotTemplated orig_filename var s])
    | _ => raise AttributeError
    end.

(** Body of the loop over [cls.get_required_vars()]. *)
Definition check_required_var (orig_filename : string) (content existing : value)
    (st : review) (var : string) : M review :=
  let* present := contains var content in
  if (present : bool) then ret st
  else
    let* has_existing := is_truthy existing in
    if (has_existing : bool) then
      let* old := getitem existing var in
      let* _ := setitem content var old in
      ret (false, snd st)
    else
      ret (true, snd st ++ [WarnMissingRequired orig_filename var]).

(** The two validation loops, one after the other. *)
Definition validate_vars (cls : Asset) (orig_filename : string)
    (content existing : value) (st : review) : M review :=
  let* st1 := for_fold (check_templated_var orig_filename content existing)
                       st (get_templated_vars cls) in
  for_fold (check_required_var orig_filename content existing)
           st1 (get_required_vars cls).

(** The loop over [ASSET_TYPE_MAP.items()], left at the first key that
    [content] has. *)
Fixpoint validate_by_type (table : list (string * Asset)) (ext : externals)
    (fs : files) (fuel : nat) (orig_filename out_filename_uuid : string)
    (content : value) (all_assets_path : string)
  : M (option string * review) :=
  match table with
  | [] => ret (None, (false, []))
  | (key, cls) :: rest =>
      let* found := contains key content in
      if (found : bool) then
        let* out_path := get_path cls all_assets_path in
        let* existing := load_existing fs (path_join out_path out_filename_uuid) in
        let* st := validate_vars cls orig_filename content existing (false, []) in
        let* _ := remove_content cls content in
        let* _ := omit_templated_vars fuel (get_raw_vars cls) content existing in
        let* _ := process cls ext fuel content existing in
        ret (Some out_path, st)
      else
        validate_by_type rest ext fs fuel orig_filename out_filename_uuid
                         content all_assets_path
  end.

(** [_validate_asset_file]: the destination directory, [needs_review] and
    the warnings echoed. *)
Definition _validate_asset_file (ext : externals) (fs : files) (fuel : nat)
    (asset_path : string) (content : value) (all_assets_path : string)
  : M (option string * review) :=
  let orig_filename := basename asset_path in
  let* dashboard_title := py_get content "dashboard_title" VNone in
  let* is_dashboard := is_truthy dashboard_title in
  let* out_filename_uuid :=
    if negb is_dashboard then
      let* uuid := getitem content "uuid" in
      let* prefix := uuid_prefix ext fuel uuid in
      ret (re_sub ("_" ++ prefix ++ ".yaml") orig_filename)
    else ret (re_sub ".yaml" orig_filename) in
  let* _ := setitem content FILE_NAME_ATTRIBUTE (VStr out_filename_uuid) in
  validate_by_type ASSET_TYPE_MAP ext fs fuel orig_filename out_filename_uuid
                   content all_assets_path.

(** *** import_superset_assets *)

Record import_state : Type := {
  disk : files;
  written_assets : list string;
  review_files : list string;
  dataset_warn : bool;
  echoed : list echo_line
}.

Inductive import_outcome : Type :=
| Returned (err : Z) (st : import_state)
| Failed (e : exn) (st : import_state)
| ImportOutOfFuel.

(** [review_files.add(name)]: a set, kept as a list without repeats. *)
Definition set_add (name : string) (names : list string) : list string :=
  if existsb (String.eqb name) names then names else names ++ [name].

(** One turn of the loop over [zip_file.namelist()]: the next state when
    the loop goes on, the final outcome when the turn raises.  Every entry
    is parsed into objects of its own. *)
Definition import_entry (ext : externals) (fuel : nat) (assets_path : string)
    (st : import_state) (entry : string * yaml) : import_state + import_outcome :=
  let '(asset_path, tree) := entry in
  if str_contains "metadata.yaml" asset_path then inl st
  else
    let '(content, h0) := alloc tree [] in
    match _validate_asset_file ext (disk st) fuel asset_path content assets_path h0 with
    | OutOfFuel => inr ImportOutOfFuel
    | Raise e _ => inr (Failed e st)
    | Ok (out_path, (needs_review, warnings)) h =>
        let st := {| disk := disk st; written_assets := written_assets st;
                     review_files := review_files st; dataset_warn := dataset_warn st;
                     echoed := echoed st ++ warnings |} in
        match out_path with
        | None => inl st
        | Some out_path =>
            if String.eqb out_path "" then inl st
            else
              match getitem content FILE_NAME_ATTRIBUTE h with
              | Ok (VStr file_name) _ =>
                  match dump fuel h content with
                  | None => inr ImportOutOfFuel
                  | Some written =>
                      let out_file := path_join out_path file_name in
                      inl {| disk := assoc_set out_file written (disk st);
                             written_assets := written_assets st ++ [out_file];
                             review_files :=
                               if needs_review then set_add file_name (review_files st)
                               else review_files st;
                             dataset_warn :=
                               dataset_warn st || str_contains "dataset" out_path;
                             echoed := echoed st |}
                  end
              | Ok _ _ => inr (Failed TypeError st)
              | Raise e _ => inr (Failed e st)
              | OutOfFuel => inr ImportOutOfFuel
              end
        end
    end.

Fixpoint import_entries (ext : externals) (fuel : nat) (assets_path : string)
    (st : import_state) (archive : list (string * yaml))
  : import_state + import_outcome :=
  match archive with
  | [] => inl st
  | entry :: rest =>
      match import_entry ext fuel assets_path st entry with
      | inl st' => import_entries ext fuel assets_path st' rest
      | inr stop => inr stop
      end
  end.

Definition echo (lines : list echo_line) (st : import_state) : import_state :=
  {| disk := disk st; written_assets := written_assets st;
     review_files := review_files st; dataset_warn := dataset_warn st;
     echoed := echoed st ++ lines |}.

(** [import_superset_assets] on an archive whose entries are already
    parsed, starting from the files [fs]. *)
Definition import_superset_assets (ext : externals) (fuel : nat)
    (archive : list (string * yaml)) (fs : files) (assets_path : string)
  : import_outcome :=
  let st0 := {| disk := fs; written_assets := []; review_files := [];
                dataset_warn := false; echoed := [] |} in
  match import_entries ext fuel assets_path st0 archive with
  | inr stop => stop
  | inl st =>
      match review_files st with
      | _ :: _ =>
          Failed SupersetCommandError
                 (echo ([BlankLine; ReviewCount (length (review_files st))]
                        ++ map ReviewFile (review_files st)) st)
      | [] =>
          Returned 0
            (echo ([BlankLine; Serialized (length (written_assets st))]
                   ++ (if dataset_warn st then [BlankLine; DatasetsChanged] else []))
                  st)
      end
  end.

End AssetImport.

(** * Vocabulary of the claims: trees, stores and runs *)

Module TranslateCases.
Import TranslateUtils.

(** The scalars of a tree: everything but a mapping and a sequence. *)
Definition is_scalar (v : yaml) : bool :=
  match v with
  | YList _ | YMap _ => false
  | _ => true
  end.

(** The mismatch line for node [v] and path [p] was printed by the call. *)
Definition logs_mismatch (v : yaml) (p : list string) : Prop :=
  In (CouldNotTranslate p v) (fst (translate_var v p)).

Definition two_rows : yaml :=
  YMap [("position",
         YMap [("a", YMap [("meta", YMap [("text", YStr "X")])]);
               ("b", YMap [("meta", YMap [("text", YStr "Y")])])])].

Definition empty_row : yaml :=
  YMap [("position", YMap [("a", YMap [])])].

(** A row whose [meta] mapping is not empty and has no [text]. *)
Definition row_without_text : yaml :=
  YMap [("position", YMap [("a", YMap [("meta", YMap [("code", YStr "c")])])])].

Definition scalar_leaf : yaml := YMap [("a", YStr "x")].

End TranslateCases.

Module ImportCases.
Import AssetImport.

(** *** Shape of a store

    A store is [ordered] when every reference held by the object at [l]
    points to a location after [l]: objects reachable from one another
    form no cycle, and a container comes before its contents.  The objects
    before [b] are [closed] when they hold no reference to [b] or beyond:
    they are a region of their own, the one a freshly parsed tree
    occupies. *)
Definition above (l : loc) (v : value) : bool :=
  match v with
  | VRef l' => Nat.ltb l l'
  | _ => true
  end.

Definition before (b : loc) (v : value) : bool :=
  match v with
  | VRef l' => Nat.ltb l' b
  | _ => true
  end.

Definition object_all (p : value -> bool) (o : object) : bool :=
  match o with
  | ODict entries => forallb (fun kv => p (snd kv)) entries
  | OList items => forallb p items
  end.

Definition ordered (h : store) : Prop :=
  forall l o, h !! l = Some o -> object_all (above l) o = true.

(** The objects before [b] are a region of their own. *)
Definition closed (b : loc) (h : store) : Prop :=
  forall l o, h !! l = Some o -> l < b -> object_all (before b) o = true.

(** The shape the merge keeps: an ordered store with a closed region. *)
Definition inv (b : loc) (h : store) : Prop := ordered h /\ closed b h.

(** ... in which [lc] is the location of an object. *)
Definition inv_at (b lc : loc) (h : store) : Prop := inv b h /\ lc < length h.

(** The keys of a dict are pairwise different. *)
Fixpoint distinct (keys : list string) : bool :=
  match keys with
  | [] => true
  | k :: rest => negb (existsb (String.eqb k) rest) && distinct rest
  end.

(** Two freshly loaded trees, the new one first: the values that stand for
    them and the store that holds their objects. *)
Definition load_both (new_tree old_tree : yaml) : value * value * store :=
  let '(content, h0) := alloc new_tree [] in
  let '(existing, h1) := alloc old_tree h0 in
  (content, existing, h1).

(** [omit_templated_vars] on two freshly loaded trees, and the new tree read
    back: what the merge leaves to be written. *)
Definition merged (raw_vars : list string) (fuel : nat) (new_tree old_tree : yaml)
  : option yaml :=
  let '(content, existing, h1) := load_both new_tree old_tree in
  match omit_templated_vars fuel raw_vars content existing h1 with
  | Ok _ h => dump fuel h content
  | _ => None
  end.

(** *** The checks of one validation pass, in the order they run *)
Inductive check : Type :=
| Templated (var : string)
| Required (var : string).

Definition run_check (orig_filename : string) (content existing : value)
    (st : review) (c : check) : M review :=
  match c with
  | Templated var => check_templated_var orig_filename content existing st var
  | Required var => check_required_var orig_filename content existing st var
  end.

Definition checks_of (cls : Asset) : list check :=
  map Templated (get_templated_vars cls) ++ map Required (get_required_vars cls).

(** *** Running the code on parsed files *)

(** Stand-ins for the outside libraries, for runs that do not reach them
    or do not depend on what they return. *)
Definition plain_libraries : externals := {|
  json_loads := fun _ => None;
  format_string := fun sql => Some sql;
  str_of_list := fun _ => ""
|}.

(** [_validate_asset_file] on a freshly parsed entry of the archive. *)
Definition validate_parsed (ext : externals) (fs : files) (fuel : nat)
    (asset_path : string) (tree : yaml) (all_assets_path : string)
  : outcome (option string * review) :=
  let '(content, h0) := alloc tree [] in
  _validate_asset_file ext fs fuel asset_path content all_assets_path h0.

Definition needs_review_of (r : outcome (option string * review)) : option bool :=
  match r with
  | Ok (_, (flag, _)) _ => Some flag
  | _ => None
  end.

(** The store a call leaves, when it returns and when it raises. *)
Definition store_after {A : Type} (r : outcome A) : option store :=
  match r with
  | Ok _ h | Raise _ h => Some h
  | OutOfFuel => None
  end.

Definition raised {A : Type} (r : outcome A) : option exn :=
  match r with
  | Raise e _ => Some e
  | _ => None
  end.

(** [cls.process(content, existing)] on two freshly loaded trees: the
    existing tree as read back before and after the call. *)
Definition existing_around_process (cls : Asset) (ext : externals) (fuel : nat)
    (new_tree old_tree : yaml) : option (yaml * yaml) :=
  let '(content, existing, h1) := load_both new_tree old_tree in
  match process cls ext fuel content existing h1 with
  | Ok _ h2 =>
      match dump fuel h1 existing, dump fuel h2 existing with
      | Some before, Some after => Some (before, after)
      | _, _ => None
      end
  | _ => None
  end.

(** *** Inputs *)

Definition dataset_literal_schema : yaml :=
  YMap [("table_name", YStr "events"); ("uuid", YStr "0123456789");
        ("schema", YStr "public"); ("sql", YStr "{{ query }}")].

(** An existing dataset file with a templated [table_name] and no
    [schema]. *)
Definition dataset_on_disk : files :=
  [("/assets/datasets/events_012345.yaml", YMap [("table_name", YStr "{{ TABLE }}")])].

Definition chart_without_query_context : yaml :=
  YMap [("slice_name", YStr "c"); ("uuid", YStr "0123456789"); ("query_context", YNull)].

(** The chart as an earlier import wrote it: the raw field of its query
    context is wrapped. *)
Definition chart_query_context (sql_expression : string) : yaml :=
  YMap [("queries",
         YList [YMap [("metrics",
                       YList [YMap [("sqlExpression", YStr sql_expression)]])]])].

Definition chart_on_disk : yaml :=
  YMap [("slice_name", YStr "c"); ("uuid", YStr "0123456789");
        ("query_context", chart_query_context "{% raw %}count(*){% endraw %}");
        ("_file_name", YStr "c_012345.yaml")].

Definition chart_on_disk_rewritten : yaml :=
  YMap [("slice_name", YStr "c"); ("uuid", YStr "0123456789");
        ("query_context",
         chart_query_context "{% raw %}{% raw %}count(*){% endraw %}{% endraw %}");
        ("_file_name", YStr "c_012345.yaml")].

(** The new dataset alone in the store, as an object. *)
Definition literal_dataset_store : store :=
  [ODict [("table_name", VStr "events"); ("schema", VStr "public");
          ("sql", VStr "{{ query }}")]].

Definition unknown_entry : yaml := YMap [("foo", YStr "bar")].

Definition dashboard_without_roles : yaml :=
  YMap [("dashboard_title", YStr "D"); ("uuid", YStr "0123456789")].

Definition dashboard_written : yaml :=
  YMap [("dashboard_title", YStr "D"); ("uuid", YStr "0123456789");
        ("_file_name", YStr "d.yaml")].

(** *** A small program logic for code that rewrites dict entries

    [triple P m Q R F]: from a store satisfying the invariant [P], the call
    [m] ends in a store that satisfies [P] again, is related to the first
    by [R] and has the same number of objects, whether it returns or
    raises; a returned value satisfies [Q]; and fuel runs out only if [F]
    holds of the size of the store. *)
Definition triple {A : Type} (P : store -> Prop) (m : M A) (Q : A -> Prop)
    (R : store -> store -> Prop) (F : nat -> Prop) : Prop :=
  forall h, P h ->
    match m h with
    | Ok a h' => Q a /\ P h' /\ R h h' /\ length h' = length h
    | Raise _ h' => P h' /\ R h h' /\ length h' = length h
    | OutOfFuel => F (length h)
    end.

(** A call that leaves the store as it is and needs no fuel. *)
Definition quiet {A : Type} (m : M A) : Prop :=
  forall h, match m h with
            | Ok _ h' | Raise _ h' => h' = h
            | OutOfFuel => False
            end.

(** The locations before the object [c]; every location when [c] is a
    scalar. *)
Definition below (c : value) (l : loc) : Prop :=
  match c with
  | VRef lc => l < lc
  | _ => True
  end.

(** Only objects from [c] on and before [b] may differ. *)
Definition frame (b : loc) (c : value) (h h' : store) : Prop :=
  forall l, below c l \/ b <= l -> h' !! l = h !! l.

(** Only the entry [k] of the dict at [lc], and objects after [lc] and
    before [b], may differ. *)
Definition touch (b lc : loc) (k : string) (h h' : store) : Prop :=
  (forall l, l < lc \/ b <= l -> h' !! l = h !! l)
  /\ forall d, h !! lc = Some (ODict d) ->
       exists d', h' !! lc = Some (ODict d')
                  /\ forall k2, k2 <> k -> assoc k2 d' = assoc k2 d.

Definition floor (c : value) (n : nat) : nat :=
  match c with
  | VRef l => l
  | _ => n
  end.

(** In a store of [n] objects there are at least [S fuel] objects from
    [lc] on. *)
Definition short (lc : loc) (fuel : nat) (n : nat) : Prop := S fuel <= n - lc.

(** The state of the merge loop at key [k]: the existing dict at [le] is
    [de], and the entry [k] of the new dict at [lc] holds [v]. *)
Definition entry_is (b lc le : loc) (de : list (string * value)) (k : string)
    (v : value) (h : store) : Prop :=
  inv_at b lc h
  /\ h !! le = Some (ODict de)
  /\ exists d, h !! lc = Some (ODict d) /\ assoc k d = Some v.

(** What the merge stores at a shared key [k] whose old value [old] is
    templated and whose new value is the string [new]. *)
Definition merged_entry (raw : list string) (k old new : string) : string :=
  if existsb (String.eqb k) raw then raw_wrap new else old.

(** *** What loading a tree adds to a store

    The objects already there stay; the new objects are ordered and refer
    to nothing beyond the new store; the values returned are scalars or new
    objects. *)
Definition fresh_value (h h' : store) (v : value) : Prop :=
  (forall n, n < length h -> above n v = true) /\ before (length h') v = true.

Definition grows (h : store) (vs : list value) (h' : store) : Prop :=
  length h <= length h'
  /\ (forall l, l < length h -> h' !! l = h !! l)
  /\ (forall l o, length h <= l -> h' !! l = Some o ->
        object_all (above l) o = true /\ object_all (before (length h')) o = true)
  /\ Forall (fresh_value h h') vs.

End ImportCases.

(** * The file-level functions of translate_utils.py

    [get_text_for_translations], [extract_translations] and
    [compile_translations] walk directories of YAML files.  The walk and the
    parsing are taken as given: a function receives the files in the order
    [os.walk] yields them, each with its parsed content, and returns what
    the source writes to its output file. *)

Module TranslateFiles.

(** [s.endswith(suffix)]. *)
Definition endswith (s suffix : string) : bool :=
  Nat.leb (String.length suffix) (String.length s)
  && String.eqb (String.substring (String.length s - String.length suffix)
                                  (String.length suffix) s) suffix.

Definition BASE_PATH : string :=
  "tutoraspects/templates/aspects/build/aspects-superset/".

(** Lines written by the [print] calls of the three file-level functions;
    [FromAsset] carries a line printed while one asset is walked. *)
Inductive report : Type :=
| AssetsPath (assets_path : string)
| FromAsset (l : TranslateUtils.line)
| DatasetExtracted (n : nat) (key : yaml)
| Gathering
| ExtractedTotal (n : nat)
| WritingEnglish (translation_file : string)
| DoneCompiling
| WritingAll (out_path : string)
| Removing.

(** A computation that prints reports and then returns or raises. *)
Definition logged (A : Type) : Type := (list report * TranslateUtils.result A)%type.

Definition ret {A : Type} (a : A) : logged A := ([], TranslateUtils.Ok a).
Definition raise {A : Type} (e : exn) : logged A := ([], TranslateUtils.Raise e).
Definition print (r : report) : logged unit := ([r], TranslateUtils.Ok tt).

Definition bind {A B : Type} (m : logged A) (k : A -> logged B) : logged B :=
  match m with
  | (out, TranslateUtils.Ok a) => let '(out', r) := k a in (out ++ out', r)
  | (out, TranslateUtils.Raise e) => (out, TranslateUtils.Raise e)
  end.

Notation "'let*' x ':=' m 'in' k" := (bind m (fun x => k))
  (at level 10, x name, m at level 100, k at level 200).

(** A call into the asset walker, its lines kept. *)
Definition lift {A : Type} (m : TranslateUtils.printed A) : logged A :=
  (map FromAsset (fst m), snd m).

(** [try: m  except KeyError: handler]. *)
Definition try_except_KeyError {A : Type} (m handler : logged A) : logged A :=
  match m with
  | (out, TranslateUtils.Raise KeyError) => let '(out', r) := handler in (out ++ out', r)
  | _ => m
  end.

(** The values a [for] loop over [v] visits, which are also what
    [list.extend(v)] appends and what [len(v)] counts: the items of a
    sequence, the keys of a mapping, the characters of a string. *)
Fixpoint chars (s : string) : list yaml :=
  match s with
  | EmptyString => []
  | String c rest => YStr (String c "") :: chars rest
  end.

Definition py_iter (v : yaml) : logged (list yaml) :=
  match v with
  | YList items => ret items
  | YMap entries => ret (map (fun kv => YStr (fst kv)) entries)
  | YStr s => ret (chars s)
  | _ => raise TypeError
  end.

(** [seq[i]] for an integer [i]: a negative index counts from the end. *)
Definition index {A : Type} (xs : list A) (i : Z) : option A :=
  let n := Z.of_nat (length xs) in
  if (0 <=? i)%Z then xs !! Z.to_nat i
  else if (0 <=? n + i)%Z then xs !! Z.to_nat (n + i)
  else None.

(** [container[key]]: a mapping is keyed by strings, a sequence and a
    string are indexed by integers ([True] is 1, [False] is 0). *)
Definition as_index (key : yaml) : option Z :=
  match key with
  | YInt i => Some i
  | YBool b => Some (if b then 1%Z else 0%Z)
  | _ => None
  end.

Definition py_getitem (container key : yaml) : logged yaml :=
  match container with
  | YMap entries =>
      match key with
      | YStr k =>
          match assoc k entries with
          | Some v => ret v
          | None => raise KeyError
          end
      | YList _ | YMap _ => raise TypeError
      | _ => raise KeyError
      end
  | YList items =>
      match as_index key with
      | Some i =>
          match index items i with
          | Some v => ret v
          | None => raise IndexError
          end
      | None => raise TypeError
      end
  | YStr s =>
      match as_index key with
      | Some i =>
          match index (chars s) i with
          | Some v => ret v
          | None => raise IndexError
          end
      | None => raise TypeError
      end
  | _ => raise TypeError
  end.

(** The loop of [get_text_for_translations] over the files that [os.walk]
    yields, each with its parsed content. *)
Fixpoint walk_assets (walked : list (string * yaml)) : logged (list yaml) :=
  match walked with
  | [] => ret []
  | (file, asset) :: rest =>
      if negb (endswith file ".yaml") then walk_assets rest
      else
        let* found := lift (TranslateUtils.mark_text_for_translation asset) in
        let* more := walk_assets rest in
        ret (found ++ more)
  end.

(** The loop over the keys of [datasets_strings.yaml]. *)
Fixpoint extend_datasets (dataset_strings : yaml) (keys : list yaml)
  : logged (list yaml) :=
  match keys with
  | [] => ret []
  | key :: rest =>
      let* value := py_getitem dataset_strings key in
      let* items := py_iter value in
      let* _ := print (DatasetExtracted (length items) key) in
      let* more := extend_datasets dataset_strings rest in
      ret (items ++ more)
  end.

(** [get_text_for_translations], on the walked asset files and the parsed
    [datasets_strings.yaml]. *)
Definition get_text_for_translations (root_path : string)
    (walked : list (string * yaml)) (dataset_strings : yaml) : logged (list yaml) :=
  let assets_path :=
    AssetImport.path_join (AssetImport.path_join root_path BASE_PATH)
                          "openedx-assets/assets/" in
  let* _ := print (AssetsPath assets_path) in
  let* strings := walk_assets walked in
  let* keys := py_iter dataset_strings in
  let* more := extend_datasets dataset_strings keys in
  ret (strings ++ more).

(** *** extract_translations *)

(** [a == b] on the values that can be members of a set: a truth value
    equals the number it stands for. *)
Definition py_eq (a b : yaml) : bool :=
  match a, b with
  | YNull, YNull => true
  | YStr s, YStr t => String.eqb s t
  | _, _ =>
      match as_index a, as_index b with
      | Some i, Some j => Z.eqb i j
      | _, _ => false
      end
  end.

Definition hashable (v : yaml) : bool :=
  match v with
  | YList _ | YMap _ => false
  | _ => true
  end.

(** [set(values)]: members are added one by one, a value equal to a member
    is not added again, a sequence or a mapping cannot be a member.  The
    order of a Python set is not specified; the list keeps the order of
    first occurrence. *)
Fixpoint py_set (members values : list yaml) : logged (list yaml) :=
  match values with
  | [] => ret members
  | v :: rest =>
      if hashable v then
        py_set (if existsb (py_eq v) members then members else members ++ [v]) rest
      else raise TypeError
  end.

(** [d[k] = v] on a dict keyed by scalars. *)
Fixpoint dict_set (k v : yaml) (d : list (yaml * yaml)) : list (yaml * yaml) :=
  match d with
  | [] => [(k, v)]
  | (k', v') :: rest =>
      if py_eq k' k then (k', v) :: rest else (k', v') :: dict_set k v rest
  end.

(** [extract_translations]: the result is the mapping stored under ['en']
    in the file the function writes. *)
Definition extract_translations (root_path : string)
    (walked : list (string * yaml)) (dataset_strings : yaml)
  : logged (list (yaml * yaml)) :=
  let translation_file := "transifex_input.yaml" in
  let* _ := print Gathering in
  let* strings := get_text_for_translations root_path walked dataset_strings in
  let* STRINGS := py_set [] strings in
  let* _ := print (ExtractedTotal (length STRINGS)) in
  let en := fold_left (fun d string => dict_set string string d) STRINGS [] in
  let* _ := print (WritingEnglish translation_file) in
  let* _ := print DoneCompiling in
  ret en.

(** *** compile_translations *)

(** The loop over the locale files that [os.walk] yields: directory, file
    name and parsed content. *)
Fixpoint compile_loop (walked : list (string * string * yaml))
    (all_translations : list (string * yaml)) : logged (list (string * yaml)) :=
  match walked with
  | [] => ret all_translations
  | (root, file, loaded_strings) :: rest =>
      if negb (endswith file ".yaml") then compile_loop rest all_translations
      else
        let lang := List.last (split_on "/"%char root) "" in
        let* all_translations :=
          try_except_KeyError
            (let* v := py_getitem loaded_strings (YStr lang) in
             ret (assoc_set lang v all_translations))
            (let* v := py_getitem loaded_strings (YStr "en") in
             ret (assoc_set lang v all_translations)) in
        compile_loop rest all_translations
  end.

(** [compile_translations]: the result is the mapping the function dumps
    into [locale.yaml]. *)
Definition compile_translations (root_path : string)
    (walked : list (string * string * yaml)) : logged (list (string * yaml)) :=
  let* all_translations := compile_loop walked [] in
  let out_path :=
    AssetImport.path_join root_path
      "tutoraspects/templates/aspects/build/aspects-superset/localization/locale.yaml" in
  let* _ := print (WritingAll out_path) in
  let* _ := print Removing in
  ret all_translations.

End TranslateFiles.

(** * Vocabulary of the further properties *)

Module FileCases.
Import TranslateFiles.

Definition is_mapping (v : yaml) : bool :=
  match v with
  | YMap _ => true
  | _ => false
  end.

(** [item.get(seg, "")] on a mapping. *)
Definition get_or_empty (seg : string) (item : yaml) : yaml :=
  match item with
  | YMap entries => default (YStr "") (assoc seg entries)
  | _ => YStr ""
  end.

(** A mapping with none of the keys of [ASSET_FOLDER_MAPPING]. *)
Definition unclassified (asset : yaml) : bool :=
  match asset with
  | YMap entries =>
      negb (has_key "dashboard_title" entries)
      && negb (has_key "slice_name" entries)
      && negb (has_key "table_name" entries)
  | _ => false
  end.

(** The walked files that can contribute text: YAML files, but for the
    mappings no asset class claims. *)
Definition contributes (f : string * yaml) : bool :=
  endswith (fst f) ".yaml" && negb (unclassified (snd f)).

(** [datasets_strings.yaml] with a list of strings for every dataset. *)
Definition tables_yaml (tables : list (string * list yaml)) : yaml :=
  YMap (map (fun t => (fst t, YList (snd t))) tables).

(** No two members are equal in Python's sense. *)
Fixpoint py_distinct (members : list yaml) : bool :=
  match members with
  | [] => true
  | v :: rest => negb (existsb (py_eq v) rest) && py_distinct rest
  end.

(** The language a locale directory stands for: its last path component. *)
Definition lang_of (root : string) : string := List.last (split_on "/"%char root) "".

(** No YAML file of the walk belongs to the language. *)
Definition no_file_of (lang : string) (walked : list (string * string * yaml)) : bool :=
  forallb (fun f => negb (endswith (snd (fst f)) ".yaml")
                    || negb (String.eqb (lang_of (fst (fst f))) lang)) walked.

End FileCases.

Module MoreCases.
Import AssetImport ImportCases.

(** What the merge leaves of an object whatever it stores: the keys of a
    dict, in order, and the length of a list. *)
Definition shape (o : object) : list string + nat :=
  match o with
  | ODict entries => inl (map fst entries)
  | OList items => inr (length items)
  end.

(** The fuel [dump] needs to read a tree back. *)
Fixpoint height (t : yaml) : nat :=
  match t with
  | YList items => S (fold_right (fun t n => Nat.max (height t) n) 0 items)
  | YMap entries => S (fold_right (fun kv n => Nat.max (height (snd kv)) n) 0 entries)
  | _ => 1
  end.

(** The stores that hold the objects [alloc] added to [h], whatever else
    they hold. *)
Definition holds (h h' h2 : store) : Prop :=
  forall l, length h <= l -> l < length h' -> h2 !! l = h' !! l.

(** The old value at a key does not ask to be preserved: the key is
    missing from the old mapping, or what it holds is not a string with a
    template marker. *)
Definition old_is_plain (k : string) (old_entries : list (string * yaml)) : bool :=
  match assoc k old_entries with
  | Some (YStr old) => negb (has_template_marker old)
  | _ => true
  end.

(** The value reached from [v] by following [keys] through dicts. *)
Fixpoint descend (h : store) (v : value) (keys : list string) : option value :=
  match keys with
  | [] => Some v
  | key :: rest =>
      match deref h v with
      | Some (ODict entries) =>
          match assoc key entries with
          | Some child => descend h child rest
          | None => None
          end
      | _ => None
      end
  end.

(** Where a path stops short: at [None], or at a dict without the key. *)
Definition stops_at (h : store) (v : value) (key : string) : bool :=
  match v with
  | VNone => true
  | VRef l =>
      match h !! l with
      | Some (ODict entries) => negb (has_key key entries)
      | _ => false
      end
  | _ => false
  end.

(** The warning a check echoes for the new dict [d] when there is no
    existing file to fall back on: one line for a templated variable that
    holds a non-empty string without a leading template marker, one line
    for a required variable that is missing, no line otherwise. *)
Definition warning (orig_filename : string) (d : list (string * value)) (c : check)
  : list echo_line :=
  match c with
  | Templated var =>
      match assoc var d with
      | Some (VStr s) =>
          if negb (String.eqb s "") && negb (starts_templated s)
          then [WarnNotTemplated orig_filename var s] else []
      | _ => []
      end
  | Required var =>
      if has_key var d then [] else [WarnMissingRequired orig_filename var]
  end.

Definition nonempty {A : Type} (xs : list A) : bool :=
  match xs with
  | [] => false
  | _ => true
  end.

(** The class the loop over [ASSET_TYPE_MAP] stops at for a dict with the
    entries [d]: the first one, in the order of the table, whose key [d]
    has. *)
Definition classify (d : list (string * value)) : option Asset :=
  snd <$> List.find (fun kc => has_key (fst kc) d) ASSET_TYPE_MAP.

(** The pattern of the file matches at no position inside [stem], when
    [stem] is followed by [tail]. *)
Fixpoint unmatched (stem tail : string) : bool :=
  match stem with
  | EmptyString => true
  | String c stem' =>
      match match_numbered_yaml (stem ++ tail) with
      | Some _ => false
      | None => unmatched stem' tail
      end
  end.

Fixpoint all_digits (s : string) : bool :=
  match s with
  | EmptyString => true
  | String c rest => is_digit c && all_digits rest
  end.

(** The books of an import that started from the files [fs]: no file has
    been removed, every asset listed as written is on disk, every file
    listed for review was written, and no file is listed for review
    twice. *)
Definition books (fs : files) (st : import_state) : Prop :=
  (forall p, has_key p fs = true -> has_key p (disk st) = true)
  /\ (forall p, In p (written_assets st) -> has_key p (disk st) = true)
  /\ (forall name, In name (review_files st) ->
        exists dir, In (path_join dir name) (written_assets st))
  /\ NoDup (review_files st).

(** What [DatasetAsset.process] may do to a store: a list stays as it is,
    and a dict keeps every key it has and every entry but those of
    [verbose_name] and [sql]. *)
Definition only_names_and_sql (h h' : store) : Prop :=
  forall l o, h !! l = Some o ->
    match o with
    | OList items => h' !! l = Some (OList items)
    | ODict d =>
        exists d', h' !! l = Some (ODict d')
                   /\ (forall k, has_key k d = true -> has_key k d' = true)
                   /\ forall k, k <> "verbose_name" -> k <> "sql" ->
                                assoc k d' = assoc k d
    end.

(** The value is a dict that has the key [verbose_name]. *)
Definition named (h : store) (item : value) : Prop :=
  exists l d, item = VRef l /\ h !! l = Some (ODict d)
              /\ has_key "verbose_name" d = true.

(** The entries of an archive the import looks at: those whose path does
    not contain [metadata.yaml]. *)
Definition is_asset_entry (entry : string * yaml) : bool :=
  negb (str_contains "metadata.yaml" (fst entry)).

End MoreCases.

(** *** The merge as a function on trees

    What [Asset.omit_templated_vars] computes on two parsed files, read off
    its loops, and the layout of a parsed tree in the store: used to state
    what the stateful code does as a whole. *)

Module TreeCases.
Import AssetImport ImportCases MoreCases.

(** *** The merge, on trees

    [omit_templated_vars] as a function from the new and the existing tree
    to the tree the new one becomes, or to the exception the call raises:
    the same steps in the same order, without the store. *)
Inductive merged_tree (A : Type) : Type :=
| Merged (t : A)
| Raises (e : exn).
Arguments Merged {A} t.
Arguments Raises {A} e.

(** [for x in xs] with a body that rewrites [x] or raises. *)
Fixpoint merge_each {A : Type} (f : A -> merged_tree A) (xs : list A)
  : merged_tree (list A) :=
  match xs with
  | [] => Merged []
  | x :: rest =>
      match f x with
      | Raises e => Raises e
      | Merged x' =>
          match merge_each f rest with
          | Raises e => Raises e
          | Merged rest' => Merged (x' :: rest')
          end
      end
  end.

(** [for i, x in enumerate(xs)], counting from [i]. *)
Fixpoint merge_enumerate {A : Type} (f : nat -> A -> merged_tree A) (i : nat)
    (xs : list A) : merged_tree (list A) :=
  match xs with
  | [] => Merged []
  | x :: rest =>
      match f i x with
      | Raises e => Raises e
      | Merged x' =>
          match merge_enumerate f (S i) rest with
          | Raises e => Raises e
          | Merged rest' => Merged (x' :: rest')
          end
      end
  end.

(** [existing[key][i]] for the value [old] of [existing[key]]: [None]
    stands for the [IndexError] that the loop passes over. *)
Definition old_item (old : yaml) (i : nat) : merged_tree (option yaml) :=
  match old with
  | YList items => Merged (items !! i)
  | YStr s =>
      match String.get i s with
      | Some c => Merged (Some (YStr (String c "")))
      | None => Merged None
      end
  | YMap _ => Raises KeyError
  | _ => Raises TypeError
  end.

Definition is_templated (old : yaml) : bool :=
  match old with
  | YStr s => has_template_marker s
  | _ => false
  end.

(** The loop over the items of [content[key]] for one item, with the
    recursive call as [recur]. *)
Definition merge_item (recur : yaml -> yaml -> merged_tree yaml) (old_value : yaml)
    (i : nat) (item : yaml) : merged_tree yaml :=
  match item with
  | YMap _ =>
      match old_item old_value i with
      | Raises e => Raises e
      | Merged None => Merged item
      | Merged (Some tmp) => recur item (if TranslateUtils.truthy tmp then tmp else YNull)
      end
  | _ => Merged item
  end.

(** What [content[key]] becomes when [existing[key]] is not a templated
    string: a mapping is merged, the mappings of a list are merged item by
    item, anything else is left. *)
Definition merge_value (recur : yaml -> yaml -> merged_tree yaml) (old_value value : yaml)
  : merged_tree yaml :=
  match value with
  | YMap _ => recur value old_value
  | YList items =>
      match merge_enumerate (merge_item recur old_value) 0 items with
      | Merged items' => Merged (YList items')
      | Raises e => Raises e
      end
  | _ => Merged value
  end.

(** The body of the loop over the keys for one entry of the new mapping. *)
Definition merge_entry (recur : yaml -> yaml -> merged_tree yaml) (raw : list string)
    (old_entries : list (string * yaml)) (kv : string * yaml)
  : merged_tree (string * yaml) :=
  match kv with
  | (key, value) =>
      match assoc key old_entries with
      | None => Merged (key, value)
      | Some old_value =>
          if is_templated old_value then
            if existsb (String.eqb key) raw then
              match value with
              | YStr literal => Merged (key, YStr (raw_wrap literal))
              | _ => Raises TypeError
              end
            else Merged (key, old_value)
          else
            match merge_value recur old_value value with
            | Merged value' => Merged (key, value')
            | Raises e => Raises e
            end
      end
  end.

Fixpoint merge_tree (raw : list string) (new old : yaml) {struct new} : merged_tree yaml :=
  match new, old with
  | YMap entries, YMap old_entries =>
      match merge_each (merge_entry (merge_tree raw) raw old_entries) entries with
      | Merged entries' => Merged (YMap entries')
      | Raises e => Raises e
      end
  | _, _ => Merged new
  end.

(** The keys of every mapping of the tree are pairwise different, as the
    keys of a Python dict are. *)
Fixpoint well_keyed (t : yaml) : bool :=
  match t with
  | YMap entries =>
      distinct (map fst entries)
      && forallb (fun kv => match kv with (_, value) => well_keyed value end) entries
  | YList items => forallb well_keyed items
  | _ => true
  end.

(** *** The layout of a parsed tree

    [laid h t v a b]: in the store [h] the value [v] stands for the tree
    [t], and the objects of [t] lie in the locations from [a] up to [b],
    a container before its contents and each content in a stretch of its
    own, in order. *)
Fixpoint laid_seq {A B : Type} (P : A -> B -> nat -> nat -> Prop)
    (ts : list A) (vs : list B) (a b : nat) : Prop :=
  match ts, vs with
  | [], [] => a <= b
  | t :: ts', v :: vs' => exists m, P t v a m /\ laid_seq P ts' vs' m b
  | _, _ => False
  end.

Fixpoint laid (h : store) (t : yaml) (v : value) (a b : nat) {struct t} : Prop :=
  match t with
  | YNull => v = VNone /\ a <= b
  | YBool x => v = VBool x /\ a <= b
  | YInt n => v = VInt n /\ a <= b
  | YStr s => v = VStr s /\ a <= b
  | YList items =>
      exists l vs,
        v = VRef l /\ a <= l /\ h !! l = Some (OList vs)
        /\ laid_seq (laid h) items vs (S l) b
  | YMap entries =>
      exists l kvs,
        v = VRef l /\ a <= l /\ h !! l = Some (ODict kvs)
        /\ laid_seq (fun kv (kv' : string * value) =>
                       match kv with
                       | (key, value) => fun a b => key = fst kv' /\ laid h value (snd kv') a b
                       end)
                    entries kvs (S l) b
  end.

(** An entry of a mapping and the entry of the dict that stands for it. *)
Abbreviation laid_entry h :=
  (fun (kv : string * yaml) (kv' : string * value) (a b : nat) =>
     fst kv = fst kv' /\ laid h (snd kv) (snd kv') a b).

(** The existing mapping holds [v_old] at [key], and [v_old] stands for
    [old_value], all of it in the locations from [c] up to [d]. *)
Definition old_entry (h : store) (existing : value) (key : string) (old_value : yaml)
    (v_old : value) (c d : nat) : Prop :=
  exists (le : loc) (okvs : list (string * value)),
    existing = VRef le /\ c <= le /\ le < d
    /\ h !! le = Some (ODict okvs) /\ assoc key okvs = Some v_old
    /\ laid h old_value v_old c d.

(** *** Paths into a tree *)
Inductive step : Type :=
| Key (k : string)
| Index (i : nat).

(** The value reached in a tree by following keys through mappings and
    indexes through lists. *)
Fixpoint at_path (t : yaml) (path : list step) : option yaml :=
  match path with
  | [] => Some t
  | Key k :: rest =>
      match t with
      | YMap entries =>
          match assoc k entries with
          | Some child => at_path child rest
          | None => None
          end
      | _ => None
      end
  | Index i :: rest =>
      match t with
      | YList items =>
          match items !! i with
          | Some child => at_path child rest
          | None => None
          end
      | _ => None
      end
  end.

(** The paths the merge walks from a mapping: keys, and an index only
    between two keys, from the list at a key into a mapping of that
    list. *)
Fixpoint merge_path (path : list step) : bool :=
  match path with
  | [] => true
  | Key _ :: Index _ :: rest =>
      match rest with
      | Key _ :: _ => merge_path rest
      | _ => false
      end
  | Key _ :: rest => merge_path rest
  | Index _ :: _ => false
  end.

(** [omit_templated_vars] on two freshly loaded trees: the new tree read
    back when the call returns, the exception when it raises, [None] when
    the fuel does not suffice. *)
Definition run_merge (raw_vars : list string) (fuel : nat) (new_tree old_tree : yaml)
  : option (merged_tree yaml) :=
  let '(content, existing, h1) := load_both new_tree old_tree in
  match omit_templated_vars fuel raw_vars content existing h1 with
  | Ok _ h => Merged <$> dump fuel h content
  | Raise e _ => Some (Raises e)
  | OutOfFuel => None
  end.

(** Values [existing[key][i]] cannot index: neither a list nor a string. *)
Definition not_a_sequence (old_value : yaml) : bool :=
  match old_value with
  | YList _ | YStr _ => false
  | _ => true
  end.

End TreeCases.

(** * Text extraction: properties of [translate_var] *)

Module TranslateFacts.
Import TranslateUtils TranslateCases.

Example split_position :
  split_dot "position.*.meta.text" = ["position"; "*"; "meta"; "text"].
Proof. reflexivity. Qed.

Lemma printed_bind_ok {A B : Type} (out : list line) (a : A) (k : A -> printed B) :
  bind (out, Ok a) k = (out ++ fst (k a), snd (k a)).
Proof. unfold bind. destruct (k a); reflexivity. Qed.

Lemma printed_bind_raise {A B : Type} (out : list line) (e : exn) (k : A -> printed B) :
  bind (out, Raise e) k = (out, Raise e).
Proof. reflexivity. Qed.

(** A falsy node yields nothing, whatever the path. *)
Lemma translate_var_falsy (v : yaml) (p : list string) :
  truthy v = false -> translate_var v p = ([], Ok []).
Proof.
  intros Hv.
  destruct v as [| b | n | s | [|i items] | [|e entries]];
    simpl in Hv; try discriminate; simpl; rewrite ?Hv; reflexivity.
Qed.

(** Line 52 of the source: with a literal head segment and more segments
    to go, a mapping hands [content.get(seg)] to the recursive call. *)
Lemma translate_var_descend (entries : list (string * yaml)) (seg s2 : string)
    (rest : list string) :
  entries <> [] -> seg <> "*" ->
  translate_var (YMap entries) (seg :: s2 :: rest)
  = translate_var (default YNull (assoc seg entries)) (s2 :: rest).
Proof.
  intros Hne Hseg.
  assert (Hon : forall es,
             on_get (fun child => translate_var child (s2 :: rest)) (ret []) seg es
             = translate_var (default YNull (assoc seg es)) (s2 :: rest)).
  { induction es as [|[k v] es IH]; simpl; [reflexivity|].
    destruct (String.eqb k seg); [reflexivity | exact IH]. }
  destruct entries as [|e es]; [congruence|].
  cbn [translate_var truthy negb].
  destruct (String.eqb_spec seg "*") as [->|_]; [congruence|].
  apply Hon.
Qed.

Lemma for_extend_results {A : Type} (f : A -> printed (list yaml)) (xs : list A)
    (ress : list (list line * list yaml)) :
  Forall2 (fun x res => f x = (fst res, Ok (snd res))) xs ress ->
  for_extend f xs = (concat (map fst ress), Ok (concat (map snd ress))).
Proof.
  induction 1 as [|x res xs ress Hx _ IH]; [reflexivity|].
  cbn [for_extend map concat]. rewrite Hx, printed_bind_ok. cbn [fst snd].
  rewrite IH, printed_bind_ok. cbn [fst snd ret].
  rewrite app_nil_r. reflexivity.
Qed.

(** In a loop over several paths or several assets, a call that returns
    nothing leaves the results of the others as they are. *)
Lemma for_extend_skip {A : Type} (f : A -> printed (list yaml)) (x : A) (xs : list A)
    (out : list line) :
  f x = (out, Ok []) ->
  snd (for_extend f (x :: xs)) = snd (for_extend f xs).
Proof.
  intros Hx. cbn [for_extend]. rewrite Hx, printed_bind_ok. cbn [snd].
  destruct (for_extend f xs) as [o [r|e]]; reflexivity.
Qed.

(** A loop whose calls all return nothing returns nothing. *)
Lemma for_extend_nothing {A : Type} (f : A -> printed (list yaml)) (xs : list A) :
  Forall (fun x => f x = ([], Ok [])) xs -> for_extend f xs = ([], Ok []).
Proof.
  induction 1 as [|x xs Hx _ IH]; [reflexivity|].
  cbn [for_extend]. rewrite Hx, printed_bind_ok. cbn [fst snd].
  rewrite IH. reflexivity.
Qed.

(** C5 (as amended): extracting [position.*.meta.text] from
    [{position: {a: {}}}] returns the empty sequence and raises nothing:
    the empty mapping under [a] is falsy, so the walker returns at its
    first test and the branch contributes no entry.  So it is for every
    non-empty set of rows that are all empty.  The one-element sequence
    with the empty string is what a row gives whose [meta] mapping is not
    empty and lacks [text]. *)
Theorem C5_empty_branch_contributes_nothing :
  translate_var empty_row (split_dot "position.*.meta.text") = ([], Ok [])
  /\ translate_var row_without_text (split_dot "position.*.meta.text")
     = ([], Ok [YStr ""])
  /\ forall (rows : list (string * yaml)) (seg : string) (rest : list string),
      rows <> [] ->
      Forall (fun row => truthy (snd row) = false) rows ->
      translate_var (YMap [("position", YMap rows)]) ("position" :: "*" :: seg :: rest)
      = ([], Ok []).
Proof.
  split; [reflexivity|]. split; [reflexivity|].
  intros rows seg rest Hrows Hempty.
  rewrite translate_var_descend by discriminate.
  cbn [assoc default]. change (String.eqb "position" "position") with true. cbv iota.
  destruct rows as [|row rows]; [congruence|].
  cbn [translate_var truthy negb]. change (String.eqb "*" "*") with true. cbv iota.
  apply for_extend_nothing.
  eapply Forall_impl; [exact Hempty|].
  intros [k v] Hv. apply translate_var_falsy. exact Hv.
Qed.

Lemma C5_witness :
  translate_var (YMap [("position", YMap [("a", YMap []); ("b", YNull)])])
                ["position"; "*"; "meta"; "text"]
  = ([], Ok []).
Proof.
  apply (proj2 (proj2 C5_empty_branch_contributes_nothing)
           [("a", YMap []); ("b", YNull)] "meta" ["text"]).
  - discriminate.
  - repeat constructor.
Defined.

(** C5 as stated fails: the result for [{position: {a: {}}}] is not the
    one-element sequence holding the empty string. *)
Lemma C5_result_is_not_one_empty_string :
  snd (translate_var empty_row (split_dot "position.*.meta.text")) = Ok []
  /\ snd (translate_var empty_row (split_dot "position.*.meta.text")) <> Ok [YStr ""].
Proof. split; vm_compute; [reflexivity | discriminate]. Qed.

(** C6: extracting [position.*.meta.text] from the tree with rows [a] and
    [b] returns exactly [["X", "Y"]]; and in general a wildcard segment on
    a non-empty mapping visits every entry in the order of the mapping and
    concatenates what the entries give. *)
Theorem C6_wildcard_fans_out_in_order :
  translate_var two_rows (split_dot "position.*.meta.text")
  = ([], Ok [YStr "X"; YStr "Y"])
  /\ forall (entries : list (string * yaml)) (seg : string) (rest : list string)
       (ress : list (list line * list yaml)),
      entries <> [] ->
      Forall2 (fun kv res =>
                 translate_var (snd kv) (seg :: rest) = (fst res, Ok (snd res)))
              entries ress ->
      translate_var (YMap entries) ("*" :: seg :: rest)
      = (concat (map fst ress), Ok (concat (map snd ress))).
Proof.
  split; [reflexivity|].
  intros entries seg rest ress Hne Hall.
  destruct entries as [|e es]; [congruence|].
  cbn [translate_var truthy negb]. change (String.eqb "*" "*") with true. cbv iota.
  apply for_extend_results.
  eapply Forall2_impl; [exact Hall|].
  intros [k v] res Hkv. exact Hkv.
Qed.

Lemma C6_witness :
  translate_var (YMap [("a", YMap [("meta", YMap [("text", YStr "X")])]);
                       ("b", YMap [("meta", YMap [("text", YStr "Y")])])])
                ["*"; "meta"; "text"]
  = ([], Ok [YStr "X"; YStr "Y"]).
Proof.
  apply (proj2 C6_wildcard_fans_out_in_order
           [("a", YMap [("meta", YMap [("text", YStr "X")])]);
            ("b", YMap [("meta", YMap [("text", YStr "Y")])])]
           "meta" ["text"]
           [([], [YStr "X"]); ([], [YStr "Y"])]).
  - discriminate.
  - repeat constructor.
Defined.

(** C9 (as amended): when a scalar is reached with more than one segment
    of the path left, the call returns the empty sequence and never
    raises; the mismatch line is printed when the scalar is truthy, and
    nothing is printed when it is falsy (null, false, 0 or the empty
    string), which the first test of the walker returns on. *)
Theorem C9_scalar_before_path_end (v : yaml) (p : list string) :
  is_scalar v = true ->
  1 < length p ->
  translate_var v p
  = ((if truthy v then [CouldNotTranslate p v] else []), Ok []).
Proof.
  intros Hs Hp.
  destruct p as [|s1 [|s2 rest]]; simpl in Hp; try lia.
  destruct v as [| b | n | s | items | entries]; try discriminate Hs.
  - reflexivity.
  - destruct b; reflexivity.
  - cbn [translate_var truthy]. destruct (Z.eqb n 0); reflexivity.
  - cbn [translate_var truthy]. destruct (String.eqb s ""); reflexivity.
Qed.

Lemma C9_witness :
  is_scalar (YStr "x") = true
  /\ 1 < length ["b"; "c"]
  /\ translate_var (YStr "x") ["b"; "c"]
     = ([CouldNotTranslate ["b"; "c"] (YStr "x")], Ok []).
Proof.
  split; [reflexivity|]. split; [simpl; lia|].
  apply (C9_scalar_before_path_end (YStr "x") ["b"; "c"]); [reflexivity | simpl; lia].
Defined.

(** C9 as stated fails: in [{a: ""}] the path [a.b.c] reaches the empty
    string, a scalar, with two segments left, and nothing is logged. *)
Lemma C9_falsy_scalar_is_not_logged :
  is_scalar (YStr "") = true
  /\ 1 < length ["b"; "c"]
  /\ ~ logs_mismatch (YStr "") ["b"; "c"]
  /\ fst (translate_var (YMap [("a", YStr "")]) ["a"; "b"; "c"]) = [].
Proof.
  split; [reflexivity|]. split; [simpl; lia|]. split; [|reflexivity].
  unfold logs_mismatch. simpl. tauto.
Qed.

(** C10: extraction raises at the last segment on a truthy scalar: for
    the tree [{a: "x"}] and the path [a.b], and in general for every
    truthy scalar reached with exactly one segment left, directly or as
    the value of a key of a mapping, [translate_var] raises
    [AttributeError] and returns no sequence. *)
Theorem C10_truthy_scalar_at_last_segment_raises :
  translate_var scalar_leaf (split_dot "a.b") = ([], Raise AttributeError)
  /\ forall (v : yaml) (key seg : string),
      is_scalar v = true ->
      truthy v = true ->
      key <> "*" ->
      translate_var v [seg] = ([], Raise AttributeError)
      /\ translate_var (YMap [(key, v)]) [key; seg] = ([], Raise AttributeError).
Proof.
  split; [reflexivity|].
  intros v key seg Hs Ht Hkey.
  assert (Hleaf : translate_var v [seg] = ([], Raise AttributeError)).
  { destruct v as [| b | n | s | items | entries]; try discriminate Hs;
      simpl in Ht; try discriminate Ht;
      cbn [translate_var truthy]; rewrite Ht; reflexivity. }
  split; [exact Hleaf|].
  rewrite translate_var_descend by (assumption || discriminate).
  cbn [assoc]. rewrite String.eqb_refl. exact Hleaf.
Qed.

Lemma C10_witness :
  translate_var (YStr "x") ["b"] = ([], Raise AttributeError)
  /\ translate_var (YMap [("a", YStr "x")]) ["a"; "b"] = ([], Raise AttributeError).
Proof.
  apply (proj2 C10_truthy_scalar_at_last_segment_raises (YStr "x") "a" "b");
    [reflexivity | reflexivity | discriminate].
Defined.

End TranslateFacts.

(** * The import helper: frames, merges and the review flag *)

Module ImportFacts.
Import AssetImport ImportCases.

(** ** Entries of a dict *)

Lemma assoc_set_eq {V : Type} (k : string) (v : V) (d : list (string * V)) :
  assoc k (assoc_set k v d) = Some v.
Proof.
  induction d as [|[k' v'] d IH]; simpl.
  - rewrite String.eqb_refl. reflexivity.
  - destruct (String.eqb_spec k' k) as [->|Hne]; simpl.
    + rewrite String.eqb_refl. reflexivity.
    + destruct (String.eqb_spec k' k); [congruence | exact IH].
Qed.

Lemma assoc_set_ne {V : Type} (k k2 : string) (v : V) (d : list (string * V)) :
  k2 <> k -> assoc k2 (assoc_set k v d) = assoc k2 d.
Proof.
  intros Hne. induction d as [|[k' v'] d IH]; simpl.
  - destruct (String.eqb_spec k k2); [congruence | reflexivity].
  - destruct (String.eqb_spec k' k) as [->|Hk]; simpl.
    + destruct (String.eqb_spec k k2); [congruence | reflexivity].
    + destruct (String.eqb_spec k' k2); [reflexivity | exact IH].
Qed.

Lemma assoc_set_all (p : value -> bool) (k : string) (v : value)
    (d : list (string * value)) :
  p v = true ->
  forallb (fun kv => p (snd kv)) d = true ->
  forallb (fun kv => p (snd kv)) (assoc_set k v d) = true.
Proof.
  intros Hv. induction d as [|[k' v'] d IH]; simpl.
  - rewrite Hv. reflexivity.
  - intros [H1 H2]%andb_prop.
    destruct (String.eqb k' k); simpl.
    + rewrite Hv, H2. reflexivity.
    + rewrite H1, IH by assumption. reflexivity.
Qed.

Lemma assoc_all (p : value -> bool) (k : string) (v : value)
    (d : list (string * value)) :
  forallb (fun kv => p (snd kv)) d = true -> assoc k d = Some v -> p v = true.
Proof.
  induction d as [|[k' v'] d IH]; simpl; [discriminate|].
  intros [H1 H2]%andb_prop.
  destruct (String.eqb k' k); [intros [= <-]; exact H1 | auto].
Qed.

(** ** Ordered stores and closed regions *)

Lemma ordered_set_str (h : store) (l : loc) (d : list (string * value)) (k s : string) :
  ordered h -> h !! l = Some (ODict d) ->
  ordered (<[l := ODict (assoc_set k (VStr s) d)]> h).
Proof.
  intros Hwf Hl l' o Hl'.
  apply list_lookup_insert_Some in Hl' as [(-> & <- & _) | (_ & Hl')]; [|eauto].
  simpl. apply assoc_set_all; [reflexivity|]. exact (Hwf _ _ Hl).
Qed.

Lemma closed_set_str (b : loc) (h : store) (l : loc) (d : list (string * value))
    (k s : string) :
  closed b h -> h !! l = Some (ODict d) ->
  closed b (<[l := ODict (assoc_set k (VStr s) d)]> h).
Proof.
  intros Hcl Hl l' o Hl' Hb.
  apply list_lookup_insert_Some in Hl' as [(-> & <- & _) | (_ & Hl')]; [|eauto].
  simpl. apply assoc_set_all; [reflexivity|]. exact (Hcl _ _ Hl Hb).
Qed.

(** ** Rules of the program logic *)

Section Rules.
Context (P : store -> Prop) (R : store -> store -> Prop) (F : nat -> Prop).
Hypothesis R_refl : forall h, R h h.
Hypothesis R_trans : forall h1 h2 h3, R h1 h2 -> R h2 h3 -> R h1 h3.

Lemma triple_ret {A : Type} (a : A) (Q : A -> Prop) :
  Q a -> triple P (ret a) Q R F.
Proof. intros Ha h Hh. simpl. auto. Qed.

Lemma triple_raise {A : Type} (e : exn) (Q : A -> Prop) :
  triple P (raise e) Q R F.
Proof. intros h Hh. simpl. auto. Qed.

Lemma triple_quiet {A : Type} (m : M A) (Q : A -> Prop) :
  quiet m ->
  (forall h a, P h -> m h = Ok a h -> Q a) ->
  triple P m Q R F.
Proof.
  intros Hq HQ h Hh. specialize (Hq h). specialize (HQ h).
  destruct (m h) as [a h'|e h'|]; subst; auto.
  contradiction.
Qed.

Lemma triple_bind {A B : Type} (m : M A) (k : A -> M B)
    (Q : A -> Prop) (Q' : B -> Prop) :
  triple P m Q R F ->
  (forall a, Q a -> triple P (k a) Q' R F) ->
  triple P (bind m k) Q' R F.
Proof.
  intros Hm Hk h Hh. unfold bind. specialize (Hm h Hh).
  destruct (m h) as [a h1|e h1|]; [|exact Hm|exact Hm].
  destruct Hm as (Ha & Hh1 & HR & Hlen).
  specialize (Hk a Ha h1 Hh1).
  destruct (k a h1) as [c h2|e h2|].
  - destruct Hk as (Hc & Hh2 & HR2 & Hlen2).
    repeat split; eauto; congruence.
  - destruct Hk as (Hh2 & HR2 & Hlen2).
    repeat split; eauto; congruence.
  - rewrite <- Hlen. exact Hk.
Qed.

Lemma triple_try_pass (e0 : exn) (m : M unit) (Q : unit -> Prop) :
  triple P m Q R F -> triple P (try_pass e0 m) (fun _ => True) R F.
Proof.
  intros Hm h Hh. unfold try_pass. specialize (Hm h Hh).
  destruct (m h) as [a h1|e h1|]; [tauto | | exact Hm].
  destruct (exn_eqb e e0); tauto.
Qed.

Lemma triple_for_each {A : Type} (body : A -> M unit) (xs : list A) :
  (forall x, In x xs -> triple P (body x) (fun _ => True) R F) ->
  triple P (for_each body xs) (fun _ => True) R F.
Proof.
  induction xs as [|x xs IH]; intros Hbody; simpl.
  - apply triple_ret. exact I.
  - eapply triple_bind; [apply Hbody; left; reflexivity|].
    intros _ _. apply IH. intros y Hy. apply Hbody. right. exact Hy.
Qed.

Lemma triple_for_enumerate {A : Type} (body : nat -> A -> M unit) (xs : list A) :
  forall i,
  (forall j x, In x xs -> triple P (body j x) (fun _ => True) R F) ->
  triple P (for_enumerate body i xs) (fun _ => True) R F.
Proof.
  induction xs as [|x xs IH]; intros i Hbody; simpl.
  - apply triple_ret. exact I.
  - eapply triple_bind; [apply Hbody; left; reflexivity|].
    intros _ _. apply IH. intros j y Hy. apply Hbody. right. exact Hy.
Qed.
End Rules.

Lemma triple_weaken {A : Type} (P P' : store -> Prop) (m : M A) (Q Q' : A -> Prop)
    (R R' : store -> store -> Prop) (F F' : nat -> Prop) :
  triple P m Q R F ->
  (forall h, P' h -> P h) ->
  (forall h h', P' h -> P h' -> R h h' -> length h' = length h -> P' h' /\ R' h h') ->
  (forall a, Q a -> Q' a) ->
  (forall h, P' h -> F (length h) -> F' (length h)) ->
  triple P' m Q' R' F'.
Proof.
  intros Hm HP HR HQ HF h Hh. specialize (Hm h (HP h Hh)).
  destruct (m h) as [a h'|e h'|].
  - destruct Hm as (Ha & Hh' & HRh & Hlen).
    destruct (HR h h' Hh Hh' HRh Hlen). auto.
  - destruct Hm as (Hh' & HRh & Hlen).
    destruct (HR h h' Hh Hh' HRh Hlen). auto.
  - auto.
Qed.

Lemma quiet_contains (k : string) (v : value) : quiet (contains k v).
Proof.
  intros h. unfold contains.
  destruct v as [| | | |l]; try reflexivity.
  destruct (h !! l) as [[d|xs]|]; reflexivity.
Qed.

Lemma quiet_getitem (v : value) (k : string) : quiet (getitem v k).
Proof.
  intros h. unfold getitem.
  destruct (deref h v) as [[d|xs]|]; try reflexivity.
  destruct (assoc k d); reflexivity.
Qed.

Lemma quiet_getindex (v : value) (i : nat) : quiet (getindex v i).
Proof.
  intros h. unfold getindex.
  destruct v as [| | |s|l]; try reflexivity.
  - destruct (String.get i s); reflexivity.
  - destruct (h !! l) as [[d|xs]|]; try reflexivity.
    destruct (xs !! i); reflexivity.
Qed.

Lemma quiet_read {A : Type} (f : store -> A) : quiet (read f).
Proof. intros h. reflexivity. Qed.

(** ** Single steps on a known store *)

Lemma bind_Ok {A B : Type} (m : M A) (k : A -> M B) (h h1 : store) (a : A) :
  m h = Ok a h1 -> bind m k h = k a h1.
Proof. intros Hm. unfold bind. rewrite Hm. reflexivity. Qed.

Lemma bind_Raise {A B : Type} (m : M A) (k : A -> M B) (h h1 : store) (e : exn) :
  m h = Raise e h1 -> bind m k h = Raise e h1.
Proof. intros Hm. unfold bind. rewrite Hm. reflexivity. Qed.

Lemma contains_dict (k : string) (l : loc) (d : list (string * value)) (h : store) :
  h !! l = Some (ODict d) -> contains k (VRef l) h = Ok (has_key k d) h.
Proof. intros Hl. unfold contains. rewrite Hl. reflexivity. Qed.

Lemma getitem_dict (k : string) (l : loc) (d : list (string * value)) (v : value)
    (h : store) :
  h !! l = Some (ODict d) -> assoc k d = Some v -> getitem (VRef l) k h = Ok v h.
Proof. intros Hl Hk. unfold getitem. cbn [deref]. rewrite Hl, Hk. reflexivity. Qed.

Lemma getitem_missing (k : string) (l : loc) (d : list (string * value)) (h : store) :
  h !! l = Some (ODict d) -> assoc k d = None -> getitem (VRef l) k h = Raise KeyError h.
Proof. intros Hl Hk. unfold getitem. cbn [deref]. rewrite Hl, Hk. reflexivity. Qed.

Lemma setitem_dict (k : string) (l : loc) (d : list (string * value)) (v : value)
    (h : store) :
  h !! l = Some (ODict d) ->
  setitem (VRef l) k v h = Ok tt (<[l := ODict (assoc_set k v d)]> h).
Proof. intros Hl. unfold setitem. rewrite Hl. reflexivity. Qed.

Lemma has_key_assoc {V : Type} (k : string) (d : list (string * V)) (v : V) :
  assoc k d = Some v -> has_key k d = true.
Proof. intros Hk. unfold has_key. rewrite Hk. reflexivity. Qed.

Lemma assoc_in_keys {V : Type} (k : string) (d : list (string * V)) (v : V) :
  assoc k d = Some v -> In k (map fst d).
Proof.
  induction d as [|[k' v'] d IH]; simpl; [discriminate|].
  destruct (String.eqb_spec k' k); [left; assumption | right; auto].
Qed.

(** ** What [omit_templated_vars] may write

    Inside an ordered store whose first [b] objects are closed,
    [omit_templated_vars] on an object [c] of that region only rewrites
    objects from [c] on and before [b]. *)
Section Frame.
Variable b : loc.
Variable raw : list string.

Lemma frame_refl c h : frame b c h h.
Proof. intros l _. reflexivity. Qed.

Lemma frame_trans c h1 h2 h3 : frame b c h1 h2 -> frame b c h2 h3 -> frame b c h1 h3.
Proof. intros H12 H23 l Hl. rewrite H23, H12 by assumption. reflexivity. Qed.

Lemma touch_refl lc k h : touch b lc k h h.
Proof. split; [reflexivity|]. intros d Hd. exists d. auto. Qed.

Lemma touch_trans lc k h1 h2 h3 :
  touch b lc k h1 h2 -> touch b lc k h2 h3 -> touch b lc k h1 h3.
Proof.
  intros [Ha1 Hd1] [Ha2 Hd2]. split.
  - intros l Hl. rewrite Ha2, Ha1 by assumption. reflexivity.
  - intros d Hd. destruct (Hd1 d Hd) as (d' & Hd' & Hk).
    destruct (Hd2 d' Hd') as (d'' & Hd'' & Hk').
    exists d''. split; [exact Hd''|]. intros k2 Hk2. rewrite Hk', Hk by assumption.
    reflexivity.
Qed.

Lemma touch_frame lc k h h' : touch b lc k h h' -> frame b (VRef lc) h h'.
Proof. intros [Ha _]. exact Ha. Qed.

(** A change confined to the objects from [c] on, with [c] after [lc],
    does not touch the dict at [lc]. *)
Lemma frame_touch lc k c h h' :
  lc < b -> above lc c = true -> frame b c h h' -> touch b lc k h h'.
Proof.
  intros Hb Hc Hf.
  assert (Hle : forall l, l <= lc -> below c l).
  { intros l Hl. destruct c; simpl in *; try exact I.
    apply Nat.ltb_lt in Hc. lia. }
  split.
  - intros l [Hl|Hl]; apply Hf; [left; apply Hle; lia | right; exact Hl].
  - intros d Hd. exists d. split; [|auto].
    rewrite Hf; [exact Hd | left; apply Hle; lia].
Qed.

Section Key.
Variable lc : loc.
Variable key : string.
Variable fuel : nat.
Hypothesis lc_region : lc < b.

Local Abbreviation spec m Q :=
  (triple (inv_at b lc) m Q (touch b lc key) (short lc fuel)).

Lemma spec_ret {A : Type} (a : A) (Q : A -> Prop) : Q a -> spec (ret a) Q.
Proof. apply triple_ret. apply touch_refl. Qed.

Lemma spec_bind {A B : Type} (m : M A) (k : A -> M B) (Q : A -> Prop) (Q' : B -> Prop) :
  spec m Q -> (forall a, Q a -> spec (k a) Q') -> spec (bind m k) Q'.
Proof. apply triple_bind. apply touch_trans. Qed.

Lemma spec_quiet {A : Type} (m : M A) : quiet m -> spec m (fun _ => True).
Proof. intros Hq. apply triple_quiet; [apply touch_refl | exact Hq | auto]. Qed.

(** What is read from the dict at [lc] lies after [lc] and before [b]. *)
Lemma spec_getitem_content :
  spec (getitem (VRef lc) key)
       (fun child => above lc child = true /\ before b child = true).
Proof.
  apply triple_quiet; [apply touch_refl | apply quiet_getitem |].
  intros h a [[Hwf Hcl] _] Hget. unfold getitem in Hget. simpl in Hget.
  destruct (h !! lc) as [[d|xs]|] eqn:Hl; try discriminate.
  destruct (assoc key d) as [v|] eqn:Hk; [|discriminate].
  injection Hget as <-. split.
  - eapply assoc_all; [exact (Hwf _ _ Hl) | exact Hk].
  - eapply assoc_all; [exact (Hcl _ _ Hl lc_region) | exact Hk].
Qed.

Lemma spec_setitem_str (s : string) :
  spec (setitem (VRef lc) key (VStr s)) (fun _ => True).
Proof.
  intros h [[Hwf Hcl] Hlen]. unfold setitem.
  destruct (h !! lc) as [[d|xs]|] eqn:Hl.
  - rewrite length_insert. repeat split; auto.
    + eapply ordered_set_str; eassumption.
    + eapply closed_set_str; eassumption.
    + rewrite length_insert. exact Hlen.
    + intros l Hl'. apply list_lookup_insert_ne. lia.
    + intros d0 Hd0. rewrite Hl in Hd0. injection Hd0 as <-.
      eexists. split; [apply list_lookup_insert_eq; exact Hlen|].
      intros k2 Hk2. apply assoc_set_ne. exact Hk2.
  - repeat split; auto; try apply touch_refl.
  - repeat split; auto; try apply touch_refl.
Qed.

(** The items of a list held by the dict at [lc]. *)
Lemma spec_read_items (child : value) :
  above lc child = true -> before b child = true ->
  spec (read (fun h => match deref h child with
                       | Some (OList items) => items
                       | _ => []
                       end))
       (fun items => forall v, In v items ->
                               above lc v = true /\ before b v = true).
Proof.
  intros Ha Hb. apply triple_quiet; [apply touch_refl | apply quiet_read |].
  intros h items [[Hwf Hcl] _] Hread. injection Hread as <-.
  destruct child as [| | | |ll]; simpl; try (intros v []).
  destruct (h !! ll) as [[d|xs]|] eqn:Hll; try (intros v []).
  simpl in Ha, Hb. apply Nat.ltb_lt in Ha, Hb.
  pose proof (Hwf _ _ Hll) as Habove. pose proof (Hcl _ _ Hll Hb) as Hbefore.
  simpl in Habove, Hbefore. rewrite forallb_forall in Habove, Hbefore.
  intros v Hv. split; [|apply Hbefore; exact Hv].
  specialize (Habove v Hv). destruct v; simpl in *; auto.
  apply Nat.ltb_lt in Habove. apply Nat.ltb_lt. lia.
Qed.

Variable recur : value -> value -> M unit.
Hypothesis spec_recur : forall c e,
  above lc c = true -> before b c = true -> spec (recur c e) (fun _ => True).

Lemma spec_omit_templated_key (existing : value) :
  spec (omit_templated_key recur raw (VRef lc) existing key) (fun _ => True).
Proof.
  unfold omit_templated_key.
  eapply spec_bind; [apply spec_quiet, quiet_contains|]. intros shared _.
  destruct shared; simpl; [|apply spec_ret; exact I].
  eapply spec_bind; [apply spec_quiet, quiet_getitem|]. intros old _.
  eapply spec_bind with (Q := fun _ => True).
  { destruct old as [| | |s|]; try (apply spec_ret; exact I).
    destruct (has_template_marker s); [|apply spec_ret; exact I].
    destruct (existsb (String.eqb key) raw); [|apply spec_setitem_str].
    eapply spec_bind; [apply spec_quiet, quiet_getitem|]. intros nv _.
    destruct nv; try (apply triple_raise; apply touch_refl).
    apply spec_setitem_str. }
  intros _ _.
  eapply spec_bind; [apply spec_getitem_content|]. intros child [Ha Hb].
  eapply spec_bind; [apply spec_quiet, quiet_read|]. intros child_is_dict _.
  eapply spec_bind with (Q := fun _ => True).
  { destruct child_is_dict; [|apply spec_ret; exact I].
    eapply spec_bind; [apply spec_quiet, quiet_getitem|]. intros old_child _.
    apply spec_recur; assumption. }
  intros _ _.
  eapply spec_bind; [apply spec_getitem_content|]. intros child' [Ha' Hb'].
  eapply spec_bind; [apply spec_read_items; assumption|]. intros items Hitems.
  apply triple_for_enumerate; [apply touch_refl | apply touch_trans |].
  intros i item Hitem.
  eapply spec_bind; [apply spec_quiet, quiet_read|]. intros item_is_dict _.
  destruct item_is_dict; [|apply spec_ret; exact I].
  eapply triple_try_pass.
  eapply spec_bind; [apply spec_quiet, quiet_getitem|]. intros old_list _.
  eapply spec_bind; [apply spec_quiet, quiet_getindex|]. intros tmp _.
  eapply spec_bind; [apply spec_quiet, quiet_read|]. intros tmp' _.
  apply spec_recur; apply Hitems; exact Hitem.
Qed.
End Key.

(** From the frame of the recursive calls to the specification the body
    of the loop asks of them. *)
Lemma frame_recur (lc : loc) (key : string) (fuel : nat)
    (recur : value -> value -> M unit) :
  lc < b ->
  (forall c e, before b c = true ->
     triple (inv b) (recur c e) (fun _ => True) (frame b c)
            (fun n => fuel <= n - floor c n)) ->
  forall c e, above lc c = true -> before b c = true ->
    triple (inv_at b lc) (recur c e) (fun _ => True) (touch b lc key) (short lc fuel).
Proof.
  intros Hlc Hrec c e Ha Hb.
  eapply triple_weaken; [apply (Hrec c e Hb) | | | |].
  - intros h0 [Hinv _]. exact Hinv.
  - intros h0 h1 [_ Hl0] Hinv1 Hf Hlen1. split.
    + split; [exact Hinv1 | lia].
    + eapply frame_touch; eassumption.
  - auto.
  - intros h0 [_ Hl0] Hshort. unfold short.
    destruct c as [| | | |lc']; simpl in *; try lia.
    apply Nat.ltb_lt in Ha. lia.
Qed.

(** The frame of [omit_templated_vars], with the fuel it needs: fuel
    runs out only if there is no more of it than objects from [c] on. *)
Lemma omit_templated_vars_frame (fuel : nat) :
  forall c e, before b c = true ->
    triple (inv b) (omit_templated_vars fuel raw c e) (fun _ => True) (frame b c)
           (fun n => fuel <= n - floor c n).
Proof.
  induction fuel as [|fuel IH]; intros c e Hc h Hh; simpl.
  - unfold out_of_fuel. lia.
  - assert (Hstay : True /\ inv b h /\ frame b c h h /\ length h = length h)
      by (split; [exact I|]; split; [exact Hh|]; split;
          [apply frame_refl | reflexivity]).
    destruct (deref h c) as [[entries|items]|] eqn:Hderef; try exact Hstay.
    destruct (deref h e) as [[entries'|items']|] eqn:Hderef'; try exact Hstay.
    clear Hstay.
    destruct c as [| | | |lc]; try discriminate Hderef. simpl in Hderef, Hc.
    apply Nat.ltb_lt in Hc.
    assert (Hlen : lc < length h) by (eapply lookup_lt_Some; exact Hderef).
    assert (Hloop : triple (inv_at b lc)
              (for_each (omit_templated_key (omit_templated_vars fuel raw) raw
                                            (VRef lc) e)
                        (map fst entries))
              (fun _ => True) (frame b (VRef lc)) (short lc fuel)).
    { apply triple_for_each; [apply frame_refl | apply frame_trans |].
      intros key _.
      eapply triple_weaken;
        [apply (spec_omit_templated_key lc key fuel Hc) | | | |];
        try (intros; assumption).
      - apply frame_recur; assumption.
      - intros h0 h1 Hinv0 Hinv1 Ht _. split; [exact Hinv1|].
        eapply touch_frame; exact Ht. }
    specialize (Hloop h (conj Hh Hlen)).
    destruct (for_each _ _ h) as [a h'|e0 h'|].
    + destruct Hloop as (_ & [Hinv' _] & Hf & Hl'). auto.
    + destruct Hloop as ([Hinv' _] & Hf & Hl'). auto.
    + unfold short in Hloop. simpl. exact Hloop.
Qed.

(** The body of the loop, with the real recursive call. *)
Lemma omit_templated_key_touch (lc : loc) (key : string) (fuel : nat) (e : value) :
  lc < b ->
  triple (inv_at b lc)
         (omit_templated_key (omit_templated_vars fuel raw) raw (VRef lc) e key)
         (fun _ => True) (touch b lc key) (short lc fuel).
Proof.
  intros Hlc. apply spec_omit_templated_key; [exact Hlc|].
  apply frame_recur; [exact Hlc|]. apply omit_templated_vars_frame.
Qed.

(** ** The entry of one shared key after the merge *)
Section Merge.
Variables (lc le : loc) (de : list (string * value)) (k old : string).
Variable fuel : nat.
Hypothesis lc_region : lc < b.
Hypothesis le_outside : le < lc \/ b <= le.
Hypothesis old_value : assoc k de = Some (VStr old).
Hypothesis old_templated : has_template_marker old = true.

Abbreviation body :=
  (omit_templated_key (omit_templated_vars fuel raw) raw (VRef lc) (VRef le)).

Lemma other_key_keeps_entry (v : value) (key : string) (h h' : store) :
  key <> k ->
  entry_is b lc le de k v h ->
  body key h = Ok tt h' ->
  entry_is b lc le de k v h'.
Proof.
  intros Hne (Hinv & Hle & d & Hlc & Hk) Hrun.
  pose proof (omit_templated_key_touch lc key fuel (VRef le) lc_region h Hinv) as Ht.
  rewrite Hrun in Ht. destruct Ht as (_ & Hinv' & [Hout Hd] & _).
  split; [exact Hinv'|]. split.
  - rewrite Hout by exact le_outside. exact Hle.
  - destruct (Hd d Hlc) as (d' & Hlc' & Hsame).
    exists d'. split; [exact Hlc'|]. rewrite Hsame by congruence. exact Hk.
Qed.

Lemma other_keys_keep_entry (v : value) (keys : list string) :
  ~ In k keys ->
  forall h h',
    entry_is b lc le de k v h ->
    for_each body keys h = Ok tt h' ->
    entry_is b lc le de k v h'.
Proof.
  induction keys as [|key keys IH]; intros Hnot h h' Hst Hrun; simpl in Hrun.
  - injection Hrun as <-. exact Hst.
  - unfold bind in Hrun.
    destruct (body key h) as [[] h1|e h1|] eqn:Hkey; try discriminate.
    apply (IH (fun Hin => Hnot (or_intror Hin)) h1 h'); [|exact Hrun].
    eapply other_key_keeps_entry; [|exact Hst|exact Hkey].
    intros ->. apply Hnot. left. reflexivity.
Qed.

Lemma this_key_sets_entry (new : string) (h : store) :
  entry_is b lc le de k (VStr new) h ->
  exists h',
    body k h = Ok tt h'
    /\ entry_is b lc le de k (VStr (merged_entry raw k old new)) h'.
Proof.
  intros (Hinv & Hle & d & Hlc & Hk).
  assert (Hne : lc <> le) by lia.
  assert (Hlen : lc < length h) by (eapply lookup_lt_Some; exact Hlc).
  set (h' := <[lc := ODict (assoc_set k (VStr (merged_entry raw k old new)) d)]> h).
  assert (Hlc' : h' !! lc
                 = Some (ODict (assoc_set k (VStr (merged_entry raw k old new)) d)))
    by (apply list_lookup_insert_eq; exact Hlen).
  assert (Hrun : body k h = Ok tt h').
  { unfold omit_templated_key.
    erewrite bind_Ok by (apply contains_dict; exact Hle).
    rewrite (has_key_assoc _ _ _ old_value). cbn [negb].
    erewrite bind_Ok by (eapply getitem_dict; [exact Hle | exact old_value]).
    cbv beta iota. rewrite old_templated.
    assert (Hset : forall v, setitem (VRef lc) k v h
                             = Ok tt (<[lc := ODict (assoc_set k v d)]> h))
      by (intros v; apply setitem_dict; exact Hlc).
    erewrite bind_Ok with (h1 := h') (a := tt).
    2:{ unfold merged_entry in h'. subst h'.
        destruct (existsb (String.eqb k) raw); [|apply Hset].
        erewrite bind_Ok by (eapply getitem_dict; [exact Hlc | exact Hk]).
        apply Hset. }
    erewrite bind_Ok by (eapply getitem_dict; [exact Hlc' | apply assoc_set_eq]).
    erewrite bind_Ok by reflexivity. cbn [is_dict deref].
    erewrite bind_Ok by reflexivity.
    erewrite bind_Ok by (eapply getitem_dict; [exact Hlc' | apply assoc_set_eq]).
    erewrite bind_Ok by reflexivity. cbn [deref].
    reflexivity. }
  exists h'. split; [exact Hrun|].
  pose proof (omit_templated_key_touch lc k fuel (VRef le) lc_region h Hinv) as Ht.
  rewrite Hrun in Ht. destruct Ht as (_ & Hinv' & [Hout _] & _).
  split; [exact Hinv'|]. split.
  - rewrite Hout by exact le_outside. exact Hle.
  - eexists. split; [exact Hlc'|]. apply assoc_set_eq.
Qed.

Lemma for_each_app {A : Type} (f : A -> M unit) (xs ys : list A) (h h' : store) :
  for_each f (xs ++ ys) h = Ok tt h' ->
  exists hm, for_each f xs h = Ok tt hm /\ for_each f ys hm = Ok tt h'.
Proof.
  revert h. induction xs as [|x xs IH]; intros h Hrun; simpl in *.
  - exists h. split; [reflexivity | exact Hrun].
  - unfold bind in *. destruct (f x h) as [[] h1|e h1|]; try discriminate.
    apply IH. exact Hrun.
Qed.

(** After the whole loop the entry [k] holds the merged value. *)
Lemma loop_sets_entry (new : string) (keys : list string) (h h' : store) :
  NoDup keys -> In k keys ->
  entry_is b lc le de k (VStr new) h ->
  for_each body keys h = Ok tt h' ->
  entry_is b lc le de k (VStr (merged_entry raw k old new)) h'.
Proof.
  intros Hnodup Hin Hst Hrun.
  apply in_split in Hin as (ks1 & ks2 & ->).
  apply NoDup_app in Hnodup as (_ & Hsep & [Hk2 _]%NoDup_cons).
  assert (Hk1 : ~ In k ks1).
  { intros H%list_elem_of_In. apply (Hsep k H). left. }
  rewrite list_elem_of_In in Hk2.
  apply for_each_app in Hrun as (h1 & Hrun1 & Hrun2).
  pose proof (other_keys_keep_entry _ _ Hk1 _ _ Hst Hrun1) as Hst1.
  destruct (this_key_sets_entry new h1 Hst1) as (h2 & Hbody & Hst2).
  simpl in Hrun2. rewrite (bind_Ok _ _ _ _ _ Hbody) in Hrun2.
  exact (other_keys_keep_entry _ _ Hk2 _ _ Hst2 Hrun2).
Qed.
End Merge.

(** The merge at one shared key whose old value is templated: with
    enough fuel the call does not stop for lack of it, and when it
    returns the entry holds the old text, or the wrapped new text for a
    raw key. *)
Lemma omit_templated_vars_entry (fuel : nat) (lc le : loc)
    (dc de : list (string * value)) (k new old : string) (h : store) :
  inv b h -> lc < b -> le < lc \/ b <= le ->
  h !! lc = Some (ODict dc) -> h !! le = Some (ODict de) ->
  NoDup (map fst dc) ->
  assoc k dc = Some (VStr new) -> assoc k de = Some (VStr old) ->
  has_template_marker old = true ->
  (length h - lc < fuel ->
   omit_templated_vars fuel raw (VRef lc) (VRef le) h <> OutOfFuel)
  /\ forall h', omit_templated_vars fuel raw (VRef lc) (VRef le) h = Ok tt h' ->
       exists d', h' !! lc = Some (ODict d')
                  /\ assoc k d' = Some (VStr (merged_entry raw k old new)).
Proof.
  intros Hinv Hlc Hle Hc He Hnodup Hnew Hold Hmark. split.
  - intros Hfuel Hout.
    assert (Hb : before b (VRef lc) = true) by (apply Nat.ltb_lt; exact Hlc).
    pose proof (omit_templated_vars_frame fuel (VRef lc) (VRef le) Hb h Hinv) as Hf.
    rewrite Hout in Hf. simpl in Hf. lia.
  - intros h' Hrun. destruct fuel as [|fuel]; [discriminate|].
    simpl in Hrun. rewrite Hc, He in Hrun.
    assert (Hst : entry_is b lc le de k (VStr new) h).
    { split; [split; [exact Hinv | eapply lookup_lt_Some; exact Hc]|].
      split; [exact He|]. exists dc. auto. }
    pose proof (loop_sets_entry lc le de k old fuel Hlc Hle Hold Hmark new
                  (map fst dc) h h' Hnodup (assoc_in_keys _ _ _ Hnew) Hst Hrun)
      as (_ & _ & d' & Hd' & Hk').
    exists d'. auto.
Qed.
End Frame.

Lemma distinct_NoDup (keys : list string) : distinct keys = true -> NoDup keys.
Proof.
  induction keys as [|k keys IH]; simpl; [constructor|].
  intros [Hk Hrest]%andb_prop. apply NoDup_cons_2; [|auto].
  intros Hin%list_elem_of_In. apply negb_true_iff in Hk.
  assert (existsb (String.eqb k) keys = true); [|congruence].
  apply existsb_exists. exists k. split; [exact Hin | apply String.eqb_refl].
Qed.

(** ** Loading a tree *)

Lemma yaml_nested_ind (P : yaml -> Prop) :
  P YNull ->
  (forall b, P (YBool b)) ->
  (forall n, P (YInt n)) ->
  (forall s, P (YStr s)) ->
  (forall items, Forall P items -> P (YList items)) ->
  (forall entries, Forall (fun kv => P (snd kv)) entries -> P (YMap entries)) ->
  forall t, P t.
Proof.
  intros Hnull Hbool Hint Hstr Hlist Hmap.
  fix IH 1. intros [| b | n | s | items | entries].
  - exact Hnull.
  - apply Hbool.
  - apply Hint.
  - apply Hstr.
  - apply Hlist.
    induction items as [|t items IHitems]; constructor; [apply IH | exact IHitems].
  - apply Hmap. induction entries as [|[k t] entries IHentries]; constructor;
      [apply IH | exact IHentries].
Qed.

Lemma before_mono (b b' : loc) (v : value) :
  b <= b' -> before b v = true -> before b' v = true.
Proof.
  intros Hle. destruct v; simpl; auto.
  intros H%Nat.ltb_lt. apply Nat.ltb_lt. lia.
Qed.

Lemma object_before_mono (b b' : loc) (o : object) :
  b <= b' -> object_all (before b) o = true -> object_all (before b') o = true.
Proof.
  intros Hle. destruct o as [d|xs]; simpl; rewrite !forallb_forall;
    intros H x Hx; eapply before_mono; eauto.
Qed.

Lemma forallb_snd {K : Type} (p : value -> bool) (d : list (K * value)) :
  forallb (fun kv => p (snd kv)) d = forallb p (map snd d).
Proof. induction d as [|[k v] d IH]; simpl; [|rewrite IH]; reflexivity. Qed.

Lemma grows_scalar (h : store) (v : value) :
  (forall l, v <> VRef l) -> grows h [v] h.
Proof.
  intros Hv. split; [lia|]. split; [auto|]. split.
  - intros l o Hl Ho. apply lookup_lt_Some in Ho. lia.
  - constructor; [|constructor]. split; [intros n _|]; destruct v; try reflexivity;
      exfalso; eapply Hv; reflexivity.
Qed.

(** One more tree after some: the stores chain. *)
Lemma grows_cons (h h1 h2 : store) (v : value) (vs : list value) :
  grows h [v] h1 -> grows h1 vs h2 -> grows h (v :: vs) h2.
Proof.
  intros (Hlen1 & Hpre1 & Hnew1 & Hv1) (Hlen2 & Hpre2 & Hnew2 & Hv2).
  split; [lia|]. split; [|split].
  - intros l Hl. rewrite Hpre2 by lia. apply Hpre1. exact Hl.
  - intros l o Hl Ho. destruct (Nat.lt_ge_cases l (length h1)) as [Hlt|Hge].
    + rewrite Hpre2 in Ho by exact Hlt. destruct (Hnew1 l o Hl Ho) as [Ha Hb].
      split; [exact Ha|]. eapply object_before_mono; [|exact Hb]. lia.
    + apply Hnew2; assumption.
  - constructor.
    + apply Forall_inv in Hv1 as [Ha Hb]. split; [exact Ha|].
      eapply before_mono; [|exact Hb]. lia.
    + eapply Forall_impl; [exact Hv2|]. intros x [Ha Hb]. split; [|exact Hb].
      intros n Hn. apply Ha. lia.
Qed.

(** A container placed before its contents. *)
Lemma grows_container (h h2 : store) (o placeholder : object) (vs : list value) :
  grows (h ++ [placeholder]) vs h2 ->
  (forall p, object_all p o = forallb p vs) ->
  grows h [VRef (length h)] (<[length h := o]> h2).
Proof.
  intros (Hlen & Hpre & Hnew & Hvs) Ho.
  rewrite length_app in Hlen, Hpre, Hnew. simpl in Hlen, Hpre, Hnew.
  assert (Hall : forall p : value -> bool, Forall (fun v => p v = true) vs ->
                                           object_all p o = true).
  { intros p Hp. rewrite Ho. apply forallb_forall. intros x Hx.
    rewrite Forall_forall in Hp. apply Hp. apply list_elem_of_In. exact Hx. }
  split; [rewrite length_insert; lia|]. split; [|split].
  - intros l Hl. rewrite list_lookup_insert_ne by lia.
    rewrite Hpre by lia. apply lookup_app_l. exact Hl.
  - intros l o' Hl Ho'. rewrite length_insert.
    apply list_lookup_insert_Some in Ho' as [(<- & <- & _) | (Hne & Ho')].
    + split; apply Hall; (eapply Forall_impl; [exact Hvs|]); intros x [Ha Hb].
      * apply Ha. rewrite length_app. simpl. lia.
      * exact Hb.
    + apply Hnew; [lia | exact Ho'].
  - constructor; [|constructor]. split.
    + intros n Hn. simpl. apply Nat.ltb_lt. exact Hn.
    + simpl. apply Nat.ltb_lt. rewrite length_insert. lia.
Qed.

Lemma alloc_items_grows (items : list yaml) :
  Forall (fun t => forall h v h', alloc t h = (v, h') -> grows h [v] h') items ->
  forall h vs h', alloc_items alloc items h = (vs, h') -> grows h vs h'.
Proof.
  induction 1 as [|t items Ht _ IH]; intros h vs h' Hrun; simpl in Hrun.
  - injection Hrun as <- <-. split; [lia|]. split; [auto|]. split; [|constructor].
    intros l o Hl Ho. apply lookup_lt_Some in Ho. lia.
  - destruct (alloc t h) as [v h1] eqn:Hv.
    destruct (alloc_items alloc items h1) as [vs' h2] eqn:Hvs.
    injection Hrun as <- <-. eapply grows_cons; eauto.
Qed.

Lemma alloc_entries_grows (entries : list (string * yaml)) :
  Forall (fun kv => forall h v h', alloc (snd kv) h = (v, h') -> grows h [v] h')
         entries ->
  forall h kvs h', alloc_entries alloc entries h = (kvs, h') ->
    grows h (map snd kvs) h'.
Proof.
  induction 1 as [|[k t] entries Ht _ IH]; intros h kvs h' Hrun; simpl in Hrun.
  - injection Hrun as <- <-. split; [lia|]. split; [auto|]. split; [|constructor].
    intros l o Hl Ho. apply lookup_lt_Some in Ho. lia.
  - destruct (alloc t h) as [v h1] eqn:Hv.
    destruct (alloc_entries alloc entries h1) as [kvs' h2] eqn:Hvs.
    injection Hrun as <- <-. simpl. eapply grows_cons; eauto.
Qed.

Lemma alloc_grows (t : yaml) :
  forall h v h', alloc t h = (v, h') -> grows h [v] h'.
Proof.
  induction t as [| b | n | s | items IH | entries IH] using yaml_nested_ind;
    intros h v h' Hrun; simpl in Hrun;
    try (injection Hrun as <- <-; apply grows_scalar; intros l; discriminate).
  - destruct (alloc_items alloc items (h ++ [OList []])) as [vs h2] eqn:Hvs.
    injection Hrun as <- <-.
    eapply grows_container; [eapply alloc_items_grows; eassumption|].
    reflexivity.
  - destruct (alloc_entries alloc entries (h ++ [ODict []])) as [kvs h2] eqn:Hkvs.
    injection Hrun as <- <-.
    eapply grows_container; [eapply alloc_entries_grows; eassumption|].
    intros p. apply forallb_snd.
Qed.

(** The entries of a loaded mapping: the keys of the tree in their order,
    and a string for each string. *)
Lemma alloc_entries_keys (entries : list (string * yaml)) :
  forall h kvs h', alloc_entries alloc entries h = (kvs, h') ->
    map fst kvs = map fst entries
    /\ forall k s, assoc k entries = Some (YStr s) -> assoc k kvs = Some (VStr s).
Proof.
  induction entries as [|[k t] entries IH]; intros h kvs h' Hrun; simpl in Hrun.
  - injection Hrun as <- <-. split; [reflexivity | discriminate].
  - destruct (alloc t h) as [v h1] eqn:Hv.
    destruct (alloc_entries alloc entries h1) as [kvs' h2] eqn:Hkvs.
    injection Hrun as <- <-. destruct (IH _ _ _ Hkvs) as [Hkeys Hstr].
    split; [simpl; rewrite Hkeys; reflexivity|].
    intros k' s. simpl. destruct (String.eqb k k'); [|apply Hstr].
    intros [= ->]. simpl in Hv. injection Hv as <- <-. reflexivity.
Qed.

(** A mapping loaded into [h]: its dict is the object at [length h]. *)
Lemma alloc_mapping (entries : list (string * yaml)) (h : store) :
  exists kvs h',
    alloc (YMap entries) h = (VRef (length h), h')
    /\ h' !! length h = Some (ODict kvs)
    /\ map fst kvs = map fst entries
    /\ forall k s, assoc k entries = Some (YStr s) -> assoc k kvs = Some (VStr s).
Proof.
  simpl. destruct (alloc_entries alloc entries (h ++ [ODict []])) as [kvs h2] eqn:Hkvs.
  exists kvs. eexists. split; [reflexivity|].
  destruct (alloc_entries_keys _ _ _ _ Hkvs) as [Hkeys Hstr].
  split; [|auto].
  apply list_lookup_insert_eq.
  assert (Hall : Forall (fun kv : string * yaml =>
                           forall h v h', alloc (snd kv) h = (v, h') -> grows h [v] h')
                        entries)
    by (apply Forall_forall; intros kv _; apply alloc_grows).
  destruct (alloc_entries_grows entries Hall _ _ _ Hkvs) as (Hlen & _).
  rewrite length_app in Hlen. simpl in Hlen. lia.
Qed.

(** Two mappings loaded one after the other: the new one is the dict at 0,
    its objects are an ordered, closed region, and the existing one is the
    dict right after that region. *)
Lemma load_both_mappings (new_entries old_entries : list (string * yaml)) :
  exists b h dc de,
    load_both (YMap new_entries) (YMap old_entries) = (VRef 0, VRef b, h)
    /\ inv b h /\ 0 < b
    /\ h !! 0 = Some (ODict dc) /\ h !! b = Some (ODict de)
    /\ map fst dc = map fst new_entries
    /\ (forall k s, assoc k new_entries = Some (YStr s) -> assoc k dc = Some (VStr s))
    /\ (forall k s, assoc k old_entries = Some (YStr s) -> assoc k de = Some (VStr s)).
Proof.
  unfold load_both.
  destruct (alloc_mapping new_entries []) as (dc & h0 & Hc & Hdc & Hkeys & Hnew).
  destruct (alloc_mapping old_entries h0) as (de & h1 & He & Hde & _ & Hold).
  rewrite Hc, He. simpl length in *.
  destruct (alloc_grows _ _ _ _ Hc) as (_ & _ & Hobj0 & _).
  destruct (alloc_grows _ _ _ _ He) as (Hlen1 & Hpre1 & Hobj1 & _).
  assert (Hb : 0 < length h0) by (eapply lookup_lt_Some; exact Hdc).
  exists (length h0), h1, dc, de. split; [reflexivity|].
  split; [split|].
  - intros l o Ho. destruct (Nat.lt_ge_cases l (length h0)) as [Hlt|Hge].
    + rewrite Hpre1 in Ho by exact Hlt. apply (Hobj0 l o); [simpl; lia | exact Ho].
    + apply (Hobj1 l o Hge Ho).
  - intros l o Ho Hlt. rewrite Hpre1 in Ho by exact Hlt.
    apply (Hobj0 l o); [simpl; lia | exact Ho].
  - split; [exact Hb|]. split; [rewrite Hpre1 by exact Hb; exact Hdc|].
    split; [exact Hde|]. auto.
Qed.

(** The merge of two loaded mappings at one shared key. *)
Lemma merge_loaded_mappings (raw : list string) (fuel : nat)
    (new_entries old_entries : list (string * yaml)) (k new old : string) :
  distinct (map fst new_entries) = true ->
  assoc k new_entries = Some (YStr new) ->
  assoc k old_entries = Some (YStr old) ->
  has_template_marker old = true ->
  exists content existing h,
    load_both (YMap new_entries) (YMap old_entries) = (content, existing, h)
    /\ (length h < fuel -> omit_templated_vars fuel raw content existing h <> OutOfFuel)
    /\ forall h', omit_templated_vars fuel raw content existing h = Ok tt h' ->
         getitem content k h' = Ok (VStr (merged_entry raw k old new)) h'.
Proof.
  intros Hkeys Hnew Hold Hmark.
  destruct (load_both_mappings new_entries old_entries)
    as (b & h & dc & de & Hload & Hinv & Hb & Hc & He & Hdc & Hnew' & Hold').
  exists (VRef 0), (VRef b), h. split; [exact Hload|].
  destruct (omit_templated_vars_entry b raw fuel 0 b dc de k new old h)
    as [Hfuel Hrun]; auto.
  { rewrite Hdc. apply distinct_NoDup. exact Hkeys. }
  split.
  - intros Hlen. apply Hfuel. lia.
  - intros h' Hh'. destruct (Hrun h' Hh') as (d' & Hd' & Hk').
    eapply getitem_dict; eassumption.
Qed.

(** The merge of two mappings loaded apart writes to no object of the
    existing tree, whether it returns or raises. *)
Lemma merge_keeps_existing_objects (raw : list string) (fuel : nat)
    (new_entries old_entries : list (string * yaml)) :
  let '(content, existing, h) := load_both (YMap new_entries) (YMap old_entries) in
  forall h' b,
    store_after (omit_templated_vars fuel raw content existing h) = Some h' ->
    existing = VRef b ->
    forall l, b <= l -> h' !! l = h !! l.
Proof.
  destruct (load_both_mappings new_entries old_entries)
    as (b & h & dc & de & -> & Hinv & Hb & _).
  intros h' b' Hafter [= <-] l Hl.
  assert (Hc : before b (VRef 0) = true) by (apply Nat.ltb_lt; exact Hb).
  pose proof (omit_templated_vars_frame b raw fuel (VRef 0) (VRef b) Hc h Hinv) as Hf.
  destruct (omit_templated_vars fuel raw (VRef 0) (VRef b) h) as [[] h1|e h1|];
    simpl in Hafter; try discriminate; injection Hafter as <-.
  - destruct Hf as (_ & _ & Hf & _). apply Hf. right. exact Hl.
  - destruct Hf as (_ & Hf & _). apply Hf. right. exact Hl.
Qed.

(** C7: in the merge, a key of both mappings whose old value is a string
    with a template marker, whose new value is a plain string and which is
    not a raw field ends up holding the old templated string, for every
    pair of parsed mappings; merging new [{sql: "SELECT 1"}] with existing
    [{sql: "{{ TABLE_NAME }}"}] gives [{sql: "{{ TABLE_NAME }}"}].  With
    more fuel than objects loaded the model does not stop for lack of
    fuel. *)
Theorem C7_old_template_is_kept :
  merged (get_raw_vars DatasetAsset) 4
         (YMap [("sql", YStr "SELECT 1")]) (YMap [("sql", YStr "{{ TABLE_NAME }}")])
  = Some (YMap [("sql", YStr "{{ TABLE_NAME }}")])
  /\ forall (raw : list string) (fuel : nat)
       (new_entries old_entries : list (string * yaml)) (k new old : string),
      distinct (map fst new_entries) = true ->
      assoc k new_entries = Some (YStr new) ->
      assoc k old_entries = Some (YStr old) ->
      has_template_marker old = true ->
      existsb (String.eqb k) raw = false ->
      let '(content, existing, h) := load_both (YMap new_entries) (YMap old_entries) in
      (length h < fuel -> omit_templated_vars fuel raw content existing h <> OutOfFuel)
      /\ forall h', omit_templated_vars fuel raw content existing h = Ok tt h' ->
           getitem content k h' = Ok (VStr old) h'.
Proof.
  split; [vm_compute; reflexivity|].
  intros raw fuel new_entries old_entries k new old Hkeys Hnew Hold Hmark Hraw.
  destruct (merge_loaded_mappings raw fuel new_entries old_entries k new old
              Hkeys Hnew Hold Hmark) as (content & existing & h & -> & H).
  unfold merged_entry in H. rewrite Hraw in H. exact H.
Qed.

Lemma C7_witness :
  let '(content, existing, h) :=
    load_both (YMap [("sql", YStr "SELECT 1"); ("schema", YStr "{{ S }}")])
              (YMap [("schema", YStr "{{ S }}"); ("sql", YStr "{{ TABLE_NAME }}")]) in
  (length h < 3 -> omit_templated_vars 3 [] content existing h <> OutOfFuel)
  /\ forall h', omit_templated_vars 3 [] content existing h = Ok tt h' ->
       getitem content "sql" h' = Ok (VStr "{{ TABLE_NAME }}") h'.
Proof.
  apply (proj2 C7_old_template_is_kept [] 3
               [("sql", YStr "SELECT 1"); ("schema", YStr "{{ S }}")]
               [("schema", YStr "{{ S }}"); ("sql", YStr "{{ TABLE_NAME }}")]
               "sql" "SELECT 1" "{{ TABLE_NAME }}");
    reflexivity.
Defined.

(** C8: in the merge, a key of both mappings whose old value holds a
    template marker and which is a raw field gets its new literal wrapped
    in [{% raw %}...{% endraw %}], for every pair of parsed mappings; the
    stored text is built from the new value alone.  Merging new
    [{query_context: "SELECT 2"}] with existing [{query_context: "{{ X }}"}]
    for a chart gives [{query_context: "{% raw %}SELECT 2{% endraw %}"}]. *)
Theorem C8_raw_field_is_wrapped :
  merged (get_raw_vars ChartAsset) 4
         (YMap [("query_context", YStr "SELECT 2")])
         (YMap [("query_context", YStr "{{ X }}")])
  = Some (YMap [("query_context", YStr "{% raw %}SELECT 2{% endraw %}")])
  /\ forall (raw : list string) (fuel : nat)
       (new_entries old_entries : list (string * yaml)) (k new old : string),
      distinct (map fst new_entries) = true ->
      assoc k new_entries = Some (YStr new) ->
      assoc k old_entries = Some (YStr old) ->
      has_template_marker old = true ->
      existsb (String.eqb k) raw = true ->
      let '(content, existing, h) := load_both (YMap new_entries) (YMap old_entries) in
      (length h < fuel -> omit_templated_vars fuel raw content existing h <> OutOfFuel)
      /\ forall h', omit_templated_vars fuel raw content existing h = Ok tt h' ->
           getitem content k h'
           = Ok (VStr ("{% raw %}" ++ new ++ "{% endraw %}")) h'.
Proof.
  split; [vm_compute; reflexivity|].
  intros raw fuel new_entries old_entries k new old Hkeys Hnew Hold Hmark Hraw.
  destruct (merge_loaded_mappings raw fuel new_entries old_entries k new old
              Hkeys Hnew Hold Hmark) as (content & existing & h & -> & H).
  unfold merged_entry in H. rewrite Hraw in H. exact H.
Qed.

Lemma C8_witness :
  let '(content, existing, h) :=
    load_both (YMap [("slice_name", YStr "c"); ("query_context", YStr "SELECT 2")])
              (YMap [("query_context", YStr "{{ X }}")]) in
  (length h < 3 ->
   omit_templated_vars 3 ChartAsset_raw_vars content existing h <> OutOfFuel)
  /\ forall h', omit_templated_vars 3 ChartAsset_raw_vars content existing h = Ok tt h' ->
       getitem content "query_context" h'
       = Ok (VStr ("{% raw %}" ++ "SELECT 2" ++ "{% endraw %}")) h'.
Proof.
  apply (proj2 C8_raw_field_is_wrapped ChartAsset_raw_vars 3
               [("slice_name", YStr "c"); ("query_context", YStr "SELECT 2")]
               [("query_context", YStr "{{ X }}")]
               "query_context" "SELECT 2" "{{ X }}");
    reflexivity.
Defined.

(** ** The review flag *)

Lemma assoc_set_nonempty {V : Type} (k : string) (v : V) (d : list (string * V)) :
  assoc_set k v d <> [].
Proof.
  destruct d as [|[k' v'] d]; simpl; [|destruct (String.eqb k' k)]; discriminate.
Qed.

(** Storing an entry never turns a truthy value falsy. *)
Lemma truthy_setitem (existing content : value) (k : string) (v : value)
    (h h' : store) :
  truthy h existing = true ->
  setitem content k v h = Ok tt h' ->
  truthy h' existing = true.
Proof.
  intros Ht Hset. unfold setitem in Hset.
  destruct content as [| | | |lc]; try discriminate.
  destruct (h !! lc) as [[d|xs]|] eqn:Hlc; try discriminate.
  injection Hset as <-.
  destruct existing as [| | | |le]; simpl in *; try exact Ht.
  destruct (decide (lc = le)) as [->|Hne].
  - rewrite list_lookup_insert_eq by (eapply lookup_lt_Some; exact Hlc).
    pose proof (assoc_set_nonempty k v d). destruct (assoc_set k v d); congruence.
  - rewrite list_lookup_insert_ne by exact Hne. exact Ht.
Qed.

Section Checks.
Variables (orig_filename : string) (content existing : value).

Abbreviation step := (run_check orig_filename content existing).

(** A fallback is there for every check of the pass or for none: a step
    keeps the existing tree truthy, and with a truthy existing tree no
    step raises the flag. *)
Lemma step_with_existing (st st' : review) (c : check) (h h' : store) :
  truthy h existing = true ->
  step st c h = Ok st' h' ->
  truthy h' existing = true /\ (fst st' = true -> fst st = true).
Proof.
  intros Ht Hrun. destruct c as [var|var]; simpl in Hrun.
  - unfold check_templated_var, bind in Hrun.
    destruct (getitem content var h) as [current h1|e h1|] eqn:Hget; try discriminate.
    pose proof (quiet_getitem content var h) as Hq. rewrite Hget in Hq. subst h1.
    unfold is_truthy, read in Hrun.
    destruct (negb (truthy h current)); [injection Hrun as <- <-; auto|].
    destruct current as [| | |s|]; try discriminate.
    destruct (starts_templated s); [injection Hrun as <- <-; auto|].
    rewrite Ht in Hrun.
    destruct (getitem existing var h) as [old h1|e h1|] eqn:Hold; try discriminate.
    pose proof (quiet_getitem existing var h) as Hq. rewrite Hold in Hq. subst h1.
    destruct (setitem content var old h) as [[] h1|e h1|] eqn:Hset; try discriminate.
    injection Hrun as <- <-. split; [|discriminate].
    eapply truthy_setitem; eassumption.
  - unfold check_required_var, bind in Hrun.
    destruct (contains var content h) as [present h1|e h1|] eqn:Hin; try discriminate.
    pose proof (quiet_contains var content h) as Hq. rewrite Hin in Hq. subst h1.
    destruct present; [injection Hrun as <- <-; auto|].
    unfold is_truthy, read in Hrun. rewrite Ht in Hrun.
    destruct (getitem existing var h) as [old h1|e h1|] eqn:Hold; try discriminate.
    pose proof (quiet_getitem existing var h) as Hq. rewrite Hold in Hq. subst h1.
    destruct (setitem content var old h) as [[] h1|e h1|] eqn:Hset; try discriminate.
    injection Hrun as <- <-. split; [|discriminate].
    eapply truthy_setitem; eassumption.
Qed.

(** Without an existing tree a step writes nothing and lowers no flag. *)
Lemma step_without_existing (st st' : review) (c : check) (h h' : store) :
  truthy h existing = false ->
  step st c h = Ok st' h' ->
  h' = h /\ (fst st = true -> fst st' = true).
Proof.
  intros Ht Hrun. destruct c as [var|var]; simpl in Hrun.
  - unfold check_templated_var, bind in Hrun.
    destruct (getitem content var h) as [current h1|e h1|] eqn:Hget; try discriminate.
    pose proof (quiet_getitem content var h) as Hq. rewrite Hget in Hq. subst h1.
    unfold is_truthy, read in Hrun.
    destruct (negb (truthy h current)); [injection Hrun as <- <-; auto|].
    destruct current as [| | |s|]; try discriminate.
    destruct (starts_templated s); [injection Hrun as <- <-; auto|].
    rewrite Ht in Hrun. injection Hrun as <- <-. auto.
  - unfold check_required_var, bind in Hrun.
    destruct (contains var content h) as [present h1|e h1|] eqn:Hin; try discriminate.
    pose proof (quiet_contains var content h) as Hq. rewrite Hin in Hq. subst h1.
    destruct present; [injection Hrun as <- <-; auto|].
    unfold is_truthy, read in Hrun. rewrite Ht in Hrun.
    injection Hrun as <- <-. auto.
Qed.

Lemma steps_with_existing (cs : list check) :
  forall (st st' : review) (h h' : store),
    truthy h existing = true ->
    for_fold step st cs h = Ok st' h' ->
    truthy h' existing = true /\ (fst st' = true -> fst st = true).
Proof.
  induction cs as [|c cs IH]; intros st st' h h' Ht Hrun; simpl in Hrun.
  - injection Hrun as <- <-. auto.
  - unfold bind in Hrun.
    destruct (step st c h) as [st1 h1|e h1|] eqn:Hc; try discriminate.
    destruct (step_with_existing _ _ _ _ _ Ht Hc) as [Ht1 Hf1].
    destruct (IH _ _ _ _ Ht1 Hrun) as [Ht' Hf']. auto.
Qed.

Lemma steps_without_existing (cs : list check) :
  forall (st st' : review) (h h' : store),
    truthy h existing = false ->
    for_fold step st cs h = Ok st' h' ->
    h' = h /\ (fst st = true -> fst st' = true).
Proof.
  induction cs as [|c cs IH]; intros st st' h h' Ht Hrun; simpl in Hrun.
  - injection Hrun as <- <-. auto.
  - unfold bind in Hrun.
    destruct (step st c h) as [st1 h1|e h1|] eqn:Hc; try discriminate.
    destruct (step_without_existing _ _ _ _ _ Ht Hc) as [-> Hf1].
    destruct (IH _ _ _ _ Ht Hrun) as [-> Hf']. auto.
Qed.

Lemma for_fold_app {A S : Type} (f : S -> A -> M S) (xs ys : list A) (s : S) (h : store) :
  for_fold f s (xs ++ ys) h
  = bind (for_fold f s xs) (fun s' => for_fold f s' ys) h.
Proof.
  revert s h. induction xs as [|x xs IH]; intros s h; simpl.
  - reflexivity.
  - unfold bind. destruct (f s x h) as [s1 h1|e h1|]; try reflexivity.
    apply IH.
Qed.

Lemma for_fold_map {A B S : Type} (g : A -> B) (f : S -> B -> M S) (xs : list A)
    (s : S) (h : store) :
  for_fold f s (map g xs) h = for_fold (fun s x => f s (g x)) s xs h.
Proof.
  revert s h. induction xs as [|x xs IH]; intros s h; simpl; [reflexivity|].
  unfold bind. destruct (f s (g x) h) as [s1 h1|e h1|]; try reflexivity.
  apply IH.
Qed.

(** The two loops of the source are one pass over [checks_of cls]. *)
Lemma validate_vars_checks (cls : Asset) (st : review) (h : store) :
  validate_vars cls orig_filename content existing st h
  = for_fold step st (checks_of cls) h.
Proof.
  unfold validate_vars, checks_of. rewrite for_fold_app. unfold bind.
  rewrite for_fold_map. simpl.
  destruct (for_fold _ st (get_templated_vars cls) h) as [st1 h1|e h1|];
    try reflexivity.
  rewrite for_fold_map. reflexivity.
Qed.
End Checks.

(** C1 (as amended): within one validation pass the review flag only
    goes up.  If the flag is raised after some first part of the checks of
    the asset, templated or required, then no existing tree was loaded, no
    later check of the pass recovers anything (the store is left as it
    was), and the completed pass reports the file as needing review. *)
Theorem C1_raised_flag_stays_raised (cls : Asset) (orig_filename : string)
    (content existing : value) (earlier later : list check)
    (h h1 h2 : store) (warned : list echo_line) (final : review) :
  checks_of cls = earlier ++ later ->
  for_fold (run_check orig_filename content existing) (false, []) earlier h
  = Ok (true, warned) h1 ->
  validate_vars cls orig_filename content existing (false, []) h = Ok final h2 ->
  fst final = true /\ truthy h existing = false /\ h2 = h.
Proof.
  intros Hsplit Hearlier Hall.
  rewrite validate_vars_checks, Hsplit, for_fold_app in Hall.
  rewrite (bind_Ok _ _ _ _ _ Hearlier) in Hall.
  destruct (truthy h existing) eqn:Ht.
  - destruct (steps_with_existing _ _ _ _ _ _ _ _ Ht Hearlier) as [_ Hflag].
    specialize (Hflag eq_refl). discriminate.
  - destruct (steps_without_existing _ _ _ _ _ _ _ _ Ht Hearlier) as [-> _].
    destruct (steps_without_existing _ _ _ _ _ _ _ _ Ht Hall) as [-> Hflag].
    auto.
Qed.

Lemma C1_witness :
  checks_of DatasetAsset
  = [Templated "schema"] ++ [Templated "table_name"; Templated "sql"]
  /\ for_fold (run_check "events_1.yaml" (VRef 0) VNone) (false, [])
              [Templated "schema"] literal_dataset_store
     = Ok (true, [WarnNotTemplated "events_1.yaml" "schema" "public"])
          literal_dataset_store
  /\ validate_vars DatasetAsset "events_1.yaml" (VRef 0) VNone (false, [])
                   literal_dataset_store
     = Ok (true, [WarnNotTemplated "events_1.yaml" "schema" "public";
                  WarnNotTemplated "events_1.yaml" "table_name" "events"])
          literal_dataset_store
  /\ (fst (true, [WarnNotTemplated "events_1.yaml" "schema" "public";
                  WarnNotTemplated "events_1.yaml" "table_name" "events"]) = true
      /\ truthy literal_dataset_store VNone = false
      /\ literal_dataset_store = literal_dataset_store).
Proof.
  split; [reflexivity|]. split; [reflexivity|]. split; [reflexivity|].
  apply (C1_raised_flag_stays_raised DatasetAsset "events_1.yaml" (VRef 0) VNone
           [Templated "schema"] [Templated "table_name"; Templated "sql"]
           literal_dataset_store literal_dataset_store literal_dataset_store
           [WarnNotTemplated "events_1.yaml" "schema" "public"]
           (true, [WarnNotTemplated "events_1.yaml" "schema" "public";
                   WarnNotTemplated "events_1.yaml" "table_name" "events"]));
    reflexivity.
Defined.

(** C1 as stated fails: the dataset file has a literal [schema] that the
    existing file cannot supply and a literal [table_name] that it can.
    The pass does not report the file as needing review: the first check
    raises [KeyError] on the existing tree. *)
Lemma C1_unrecoverable_then_recoverable_is_not_reported :
  needs_review_of
    (validate_parsed plain_libraries dataset_on_disk 8
                     "datasets/events_1.yaml" dataset_literal_schema "/assets")
  <> Some true
  /\ raised
       (validate_parsed plain_libraries dataset_on_disk 8
                        "datasets/events_1.yaml" dataset_literal_schema "/assets")
     = Some KeyError.
Proof. split; vm_compute; [discriminate | reflexivity]. Qed.

(** C2, at the failing input: a chart arrives without a query context and
    the chart on disk has one whose raw field is templated.
    [ChartAsset.process] stores the existing query context itself in the
    new tree and then merges it with itself, which wraps the field inside
    the existing tree once more.  The same happens within a whole run of
    [_validate_asset_file], where the existing tree is the object loaded at
    location 1, and the import writes the doubly wrapped field to disk. *)
Theorem C2_process_rewrites_existing_tree :
  existing_around_process ChartAsset plain_libraries 12
                          chart_without_query_context chart_on_disk
  = Some (chart_on_disk, chart_on_disk_rewritten)
  /\ chart_on_disk_rewritten <> chart_on_disk
  /\ (exists h r,
        validate_parsed plain_libraries [("/assets/charts/c_012345.yaml", chart_on_disk)]
                        12 "charts/c_1.yaml" chart_without_query_context "/assets"
        = Ok r h
        /\ dump 12 h (VRef 1) = Some chart_on_disk_rewritten)
  /\ import_superset_assets plain_libraries 12
       [("charts/c_1.yaml", chart_without_query_context)]
       [("/assets/charts/c_012345.yaml", chart_on_disk)] "/assets"
     = Returned 0
         {| disk := [("/assets/charts/c_012345.yaml", chart_on_disk_rewritten)];
            written_assets := ["/assets/charts/c_012345.yaml"];
            review_files := [];
            dataset_warn := false;
            echoed := [BlankLine; Serialized 1] |}.
Proof.
  split; [vm_compute; reflexivity|]. split; [discriminate|].
  split; [|vm_compute; reflexivity].
  eexists. eexists. split; vm_compute; reflexivity.
Qed.

(** Text extraction skips a mapping without discriminator key. *)
Lemma mark_text_unclassified (entries : list (string * yaml)) :
  has_key "dashboard_title" entries = false ->
  has_key "slice_name" entries = false ->
  has_key "table_name" entries = false ->
  TranslateUtils.mark_text_for_translation (YMap entries) = ([], TranslateUtils.Ok []).
Proof.
  intros H1 H2 H3. unfold TranslateUtils.mark_text_for_translation. simpl.
  rewrite H1. simpl. rewrite H2. simpl. rewrite H3. reflexivity.
Qed.

Lemma has_key_assoc_set {V : Type} (k k2 : string) (v : V) (d : list (string * V)) :
  k2 <> k -> has_key k2 (assoc_set k v d) = has_key k2 d.
Proof. intros Hne. unfold has_key. rewrite assoc_set_ne by exact Hne. reflexivity. Qed.

(** The import skips a dict without discriminator key when it has a
    string [uuid]: no destination, no review, and only the file name
    stored in it. *)
Lemma validate_unclassified_with_uuid (ext : externals) (fs : files) (fuel : nat)
    (asset_path all_assets_path uuid : string) (l : loc)
    (d : list (string * value)) (h : store) :
  h !! l = Some (ODict d) ->
  has_key "slice_name" d = false ->
  has_key "dashboard_title" d = false ->
  has_key "table_name" d = false ->
  has_key "database_name" d = false ->
  assoc "uuid" d = Some (VStr uuid) ->
  exists name,
    _validate_asset_file ext fs fuel asset_path (VRef l) all_assets_path h
    = Ok (None, (false, []))
         (<[l := ODict (assoc_set FILE_NAME_ATTRIBUTE (VStr name) d)]> h).
Proof.
  intros Hl Hc Hd Ht Hb Hu. eexists. unfold _validate_asset_file.
  assert (Hnone : assoc "dashboard_title" d = None).
  { unfold has_key in Hd.
    destruct (assoc "dashboard_title" d); [discriminate | reflexivity]. }
  erewrite bind_Ok.
  2:{ unfold py_get. cbn [deref]. rewrite Hl, Hnone. reflexivity. }
  erewrite bind_Ok by reflexivity. cbn [truthy negb].
  erewrite bind_Ok.
  2:{ erewrite bind_Ok by (eapply getitem_dict; eassumption).
      erewrite bind_Ok by reflexivity. reflexivity. }
  erewrite bind_Ok by (apply setitem_dict; exact Hl).
  assert (Hl' : forall v, (<[l := v]> h) !! l = Some v).
  { intros v. apply list_lookup_insert_eq. eapply lookup_lt_Some. exact Hl. }
  unfold ASSET_TYPE_MAP. cbn [validate_by_type].
  erewrite bind_Ok by (apply contains_dict; apply Hl').
  rewrite has_key_assoc_set, Hc by discriminate.
  erewrite bind_Ok by (apply contains_dict; apply Hl').
  rewrite has_key_assoc_set, Hd by discriminate.
  erewrite bind_Ok by (apply contains_dict; apply Hl').
  rewrite has_key_assoc_set, Ht by discriminate.
  erewrite bind_Ok by (apply contains_dict; apply Hl').
  rewrite has_key_assoc_set, Hb by discriminate.
  reflexivity.
Qed.

(** C3, at the failing input: an entry with none of the discriminator
    keys and no [uuid].  Text extraction returns nothing for it, but
    [_validate_asset_file] raises [KeyError] while it computes the file
    name, before it looks for a discriminator, and the import stops there:
    the dashboard that follows in the archive is not written. *)
Theorem C3_unknown_entry_without_uuid_raises :
  TranslateUtils.mark_text_for_translation unknown_entry = ([], TranslateUtils.Ok [])
  /\ raised (validate_parsed plain_libraries [] 8 "extra/foo.yaml" unknown_entry "/assets")
     = Some KeyError
  /\ import_superset_assets plain_libraries 8
       [("extra/foo.yaml", unknown_entry); ("dashboards/d_1.yaml", dashboard_without_roles)]
       [] "/assets"
     = Failed KeyError
         {| disk := []; written_assets := []; review_files := [];
            dataset_warn := false; echoed := [] |}.
Proof. repeat split; vm_compute; reflexivity. Qed.

(** What the check of a required variable does in each case. *)
Lemma check_required_recovers (orig_filename var : string) (lc le : loc)
    (dc de : list (string * value)) (old : value) (st : review) (h : store) :
  h !! lc = Some (ODict dc) -> has_key var dc = false ->
  h !! le = Some (ODict de) -> assoc var de = Some old ->
  check_required_var orig_filename (VRef lc) (VRef le) st var h
  = Ok (false, snd st) (<[lc := ODict (assoc_set var old dc)]> h).
Proof.
  intros Hc Habs He Hold. unfold check_required_var.
  erewrite bind_Ok by (apply contains_dict; exact Hc). rewrite Habs.
  erewrite bind_Ok by reflexivity.
  assert (Ht : truthy h (VRef le) = true).
  { simpl. rewrite He. destruct de; [discriminate | reflexivity]. }
  rewrite Ht.
  erewrite bind_Ok by (eapply getitem_dict; eassumption).
  erewrite bind_Ok by (apply setitem_dict; exact Hc). reflexivity.
Qed.

Lemma check_required_flags (orig_filename var : string) (lc : loc)
    (dc : list (string * value)) (existing : value) (st : review) (h : store) :
  h !! lc = Some (ODict dc) -> has_key var dc = false ->
  truthy h existing = false ->
  check_required_var orig_filename (VRef lc) existing st var h
  = Ok (true, snd st ++ [WarnMissingRequired orig_filename var]) h.
Proof.
  intros Hc Habs Ht. unfold check_required_var.
  erewrite bind_Ok by (apply contains_dict; exact Hc). rewrite Habs.
  erewrite bind_Ok by reflexivity. rewrite Ht. reflexivity.
Qed.

Lemma check_required_raises (orig_filename var : string) (lc le : loc)
    (dc de : list (string * value)) (st : review) (h : store) :
  h !! lc = Some (ODict dc) -> has_key var dc = false ->
  h !! le = Some (ODict de) -> de <> [] -> assoc var de = None ->
  check_required_var orig_filename (VRef lc) (VRef le) st var h = Raise KeyError h.
Proof.
  intros Hc Habs He Hne Hold. unfold check_required_var.
  erewrite bind_Ok by (apply contains_dict; exact Hc). rewrite Habs.
  erewrite bind_Ok by reflexivity.
  assert (Ht : truthy h (VRef le) = true).
  { simpl. rewrite He. destruct de; [congruence | reflexivity]. }
  rewrite Ht.
  erewrite bind_Raise by (eapply getitem_missing; eassumption). reflexivity.
Qed.

(** C4, at the failing input: a dashboard without [_roles] is imported
    twice.  The first import finds no file on disk, raises the flag and
    still writes the dashboard, without [_roles].  The second import finds
    that file: the required path is absent from the new tree and from the
    existing tree, and instead of raising the flag the check raises
    [KeyError] on the existing tree. *)
Theorem C4_missing_in_both_trees_raises_KeyError :
  import_superset_assets plain_libraries 8
    [("dashboards/d_1.yaml", dashboard_without_roles)] [] "/assets"
  = Failed SupersetCommandError
      {| disk := [("/assets/dashboards/d.yaml", dashboard_written)];
         written_assets := ["/assets/dashboards/d.yaml"];
         review_files := ["d.yaml"];
         dataset_warn := false;
         echoed := [WarnMissingRequired "d_1.yaml" "_roles"; BlankLine;
                    ReviewCount 1; ReviewFile "d.yaml"] |}
  /\ needs_review_of
       (validate_parsed plain_libraries [("/assets/dashboards/d.yaml", dashboard_written)] 8
                        "dashboards/d_1.yaml" dashboard_without_roles "/assets")
     = None
  /\ import_superset_assets plain_libraries 8
       [("dashboards/d_1.yaml", dashboard_without_roles)]
       [("/assets/dashboards/d.yaml", dashboard_written)] "/assets"
     = Failed KeyError
         {| disk := [("/assets/dashboards/d.yaml", dashboard_written)];
            written_assets := []; review_files := [];
            dataset_warn := false; echoed := [] |}.
Proof. repeat split; vm_compute; reflexivity. Qed.
End ImportFacts.

(** * Further properties of text extraction *)

Module TranslateMore.
Import TranslateUtils TranslateCases FileCases.

Lemma for_append_mappings (seg : string) (items : list yaml) :
  for_append (fun item => py_get item seg (YStr "")) items
  = ([], if forallb is_mapping items then Ok (map (get_or_empty seg) items)
         else Raise AttributeError).
Proof.
  induction items as [|item items IH]; [reflexivity|].
  cbn [for_append forallb map].
  destruct item as [| b | n | s | xs | entries]; try reflexivity.
  cbn [py_get is_mapping andb get_or_empty]. rewrite IH.
  destruct (assoc seg entries); destruct (forallb is_mapping items); reflexivity.
Qed.

(** X1: at the last segment a non-empty sequence gives one value per item, in
    order: the item's value at the segment, the empty string where the
    item lacks it.  An item that is not a mapping, [None] included, makes
    the call raise [AttributeError]. *)
Theorem sequence_at_last_segment (items : list yaml) (seg : string) :
  items <> [] ->
  translate_var (YList items) [seg]
  = ([], if forallb is_mapping items then Ok (map (get_or_empty seg) items)
         else Raise AttributeError).
Proof.
  intros Hne. destruct items as [|item items]; [congruence|].
  change (translate_var (YList (item :: items)) [seg])
    with (for_append (fun item => py_get item seg (YStr "")) (item :: items)).
  apply for_append_mappings.
Qed.

Lemma sequence_at_last_segment_witness :
  translate_var (YList [YMap [("verbose_name", YStr "Count")]; YMap [("x", YNull)]])
                ["verbose_name"]
  = ([], Ok [YStr "Count"; YStr ""])
  /\ translate_var (YList [YMap [("verbose_name", YStr "Count")]; YNull])
                   ["verbose_name"]
     = ([], Raise AttributeError).
Proof.
  split.
  - apply (sequence_at_last_segment
             [YMap [("verbose_name", YStr "Count")]; YMap [("x", YNull)]]
             "verbose_name"); discriminate.
  - apply (sequence_at_last_segment
             [YMap [("verbose_name", YStr "Count")]; YNull] "verbose_name"); discriminate.
Defined.

Lemma bind_raises {A B : Type} (m : printed A) (k : A -> printed B) (e : exn) :
  snd (bind m k) = Raise e ->
  snd m = Raise e \/ exists a, snd m = Ok a /\ snd (k a) = Raise e.
Proof.
  destruct m as [out [a|e']]; simpl.
  - destruct (k a) as [out' r] eqn:Hk. simpl. intros ->. right. exists a.
    rewrite Hk. split; reflexivity.
  - intros [= ->]. left. reflexivity.
Qed.

Lemma for_extend_raises {A : Type} (f : A -> printed (list yaml)) (xs : list A)
    (e : exn) :
  snd (for_extend f xs) = Raise e -> exists x, In x xs /\ snd (f x) = Raise e.
Proof.
  induction xs as [|x xs IH]; simpl; [discriminate|].
  intros H. apply bind_raises in H. destruct H as [H|[vs [_ H]]].
  - exists x. auto.
  - apply bind_raises in H. destruct H as [H|[ws [_ H]]]; [|discriminate].
    destruct (IH H) as [y [Hy He]]. exists y. auto.
Qed.

Lemma for_append_raises {A : Type} (f : A -> printed yaml) (xs : list A) (e : exn) :
  snd (for_append f xs) = Raise e -> exists x, In x xs /\ snd (f x) = Raise e.
Proof.
  induction xs as [|x xs IH]; simpl; [discriminate|].
  intros H. apply bind_raises in H. destruct H as [H|[vs [_ H]]].
  - exists x. auto.
  - apply bind_raises in H. destruct H as [H|[ws [_ H]]]; [|discriminate].
    destruct (IH H) as [y [Hy He]]. exists y. auto.
Qed.

Lemma py_get_raises (content : yaml) (key : string) (d : yaml) (e : exn) :
  snd (py_get content key d) = Raise e -> e = AttributeError.
Proof.
  destruct content; simpl; try (intros [= <-]; reflexivity).
  destruct (assoc key entries); discriminate.
Qed.

(** X2: whatever the tree, a call with at least one path segment raises
    nothing but [AttributeError]: no [KeyError], [IndexError] or
    [TypeError] leaves the walker. *)
Theorem translate_var_raises_only_AttributeError (content : yaml) :
  forall (var_path : list string) (e : exn),
    var_path <> [] ->
    snd (translate_var content var_path) = Raise e ->
    e = AttributeError.
Proof.
  induction content as [| b | n | s | items IH | entries IH]
    using ImportFacts.yaml_nested_ind;
    intros var_path e Hne Hraise.
  1-4: destruct var_path as [|seg [|s2 rest]]; [congruence| |];
       simpl in Hraise;
       repeat match type of Hraise with
              | context [if ?c then _ else _] => destruct c; simpl in Hraise
              end;
       try discriminate; try (injection Hraise as <-; reflexivity).
  - destruct items as [|item items]; [discriminate|].
    destruct var_path as [|seg [|s2 rest]]; [congruence| |].
    + change (translate_var (YList (item :: items)) [seg])
        with (for_append (fun item => py_get item seg (YStr "")) (item :: items))
        in Hraise.
      apply for_append_raises in Hraise. destruct Hraise as [x [_ Hx]].
      eapply py_get_raises. exact Hx.
    + change (translate_var (YList (item :: items)) (seg :: s2 :: rest))
        with (for_extend (fun item => translate_var item (s2 :: rest)) (item :: items))
        in Hraise.
      apply for_extend_raises in Hraise. destruct Hraise as [x [Hin Hx]].
      rewrite List.Forall_forall in IH. eapply (IH x); [exact Hin| |exact Hx]. discriminate.
  - destruct entries as [|kv entries]; [discriminate|].
    destruct var_path as [|seg [|s2 rest]]; [congruence| |].
    + change (translate_var (YMap (kv :: entries)) [seg])
        with (bind (py_get (YMap (kv :: entries)) seg (YStr ""))
                   (fun v => ret (list_or [v] []))) in Hraise.
      apply bind_raises in Hraise. destruct Hraise as [H|[a [_ H]]]; [|discriminate].
      eapply py_get_raises. exact H.
    + change (translate_var (YMap (kv :: entries)) (seg :: s2 :: rest))
        with (if String.eqb seg "*" then
                for_extend (fun kv => match kv with
                                      | (_, value) => translate_var value (s2 :: rest)
                                      end) (kv :: entries)
              else on_get (fun child => translate_var child (s2 :: rest)) (ret []) seg
                          (kv :: entries)) in Hraise.
      rewrite List.Forall_forall in IH.
      destruct (String.eqb seg "*").
      * apply for_extend_raises in Hraise. destruct Hraise as [[k v] [Hin Hx]].
        eapply (IH (k, v)); [exact Hin| |exact Hx]. discriminate.
      * revert Hraise IH. generalize (kv :: entries). intros es.
        induction es as [|[k v] es IHes]; simpl; [discriminate|].
        intros Hraise IH. destruct (String.eqb k seg).
        -- eapply (IH (k, v)); [left; reflexivity| |exact Hraise]. discriminate.
        -- apply IHes; [exact Hraise|]. intros x Hx. apply IH. right. exact Hx.
Qed.

Lemma translate_var_raises_only_AttributeError_witness :
  ["a"; "b"] <> []
  /\ snd (translate_var (YMap [("a", YStr "x")]) ["a"; "b"]) = Raise AttributeError
  /\ AttributeError = AttributeError.
Proof.
  split; [discriminate|]. split; [reflexivity|].
  apply (translate_var_raises_only_AttributeError (YMap [("a", YStr "x")])
           ["a"; "b"] AttributeError); [discriminate | reflexivity].
Defined.

Lemma top_level_field (entries : list (string * yaml)) (seg : string) :
  entries <> [] ->
  translate_var (YMap entries) [seg] = ([], Ok [get_or_empty seg (YMap entries)]).
Proof.
  intros Hne. destruct entries as [|kv entries]; [congruence|].
  change (translate_var (YMap (kv :: entries)) [seg])
    with (bind (py_get (YMap (kv :: entries)) seg (YStr ""))
               (fun v => ret (list_or [v] []))).
  cbn [py_get get_or_empty]. destruct (assoc seg (kv :: entries)); reflexivity.
Qed.

Lemma sequence_field (items : list yaml) (seg : string) :
  forallb is_mapping items = true ->
  translate_var (YList items) [seg] = ([], Ok (map (get_or_empty seg) items)).
Proof.
  intros Hall. destruct items as [|item items]; [reflexivity|].
  change (translate_var (YList (item :: items)) [seg])
    with (for_append (fun item => py_get item seg (YStr "")) (item :: items)).
  rewrite for_append_mappings, Hall. reflexivity.
Qed.

Lemma descend_to (entries : list (string * yaml)) (seg s2 : string) (child : yaml) :
  entries <> [] -> seg <> "*" -> assoc seg entries = Some child ->
  translate_var (YMap entries) [seg; s2] = translate_var child [s2].
Proof.
  intros Hne Hseg Hchild.
  rewrite TranslateFacts.translate_var_descend by assumption.
  rewrite Hchild. reflexivity.
Qed.

(** X3: a chart always contributes its [slice_name] and its [description], in
    this order, with the empty string for a field it lacks; the two axis
    labels follow, again with the empty string for a missing one, when
    [params] is a mapping that is not empty, and nothing follows when
    [params] is missing or falsy. *)
Theorem chart_text_is_name_description_and_labels (entries : list (string * yaml)) :
  entries <> [] ->
  let field := fun k => get_or_empty k (YMap entries) in
  match assoc "params" entries with
  | Some (YMap (p :: params)) =>
      extract_text ChartAsset (YMap entries)
      = ([], Ok [field "slice_name"; field "description";
                 get_or_empty "x_axis_label" (YMap (p :: params));
                 get_or_empty "y_axis_label" (YMap (p :: params))])
  | Some params =>
      truthy params = false ->
      extract_text ChartAsset (YMap entries)
      = ([], Ok [field "slice_name"; field "description"])
  | None =>
      extract_text ChartAsset (YMap entries)
      = ([], Ok [field "slice_name"; field "description"])
  end.
Proof.
  intros Hne field. unfold extract_text.
  change (translatable_attributes ChartAsset)
    with ["slice_name"; "description"; "params.x_axis_label"; "params.y_axis_label"].
  cbn [for_extend].
  change (split_dot "slice_name") with ["slice_name"].
  change (split_dot "description") with ["description"].
  change (split_dot "params.x_axis_label") with ["params"; "x_axis_label"].
  change (split_dot "params.y_axis_label") with ["params"; "y_axis_label"].
  rewrite !top_level_field by exact Hne.
  rewrite !TranslateFacts.translate_var_descend by (assumption || discriminate).
  destruct (assoc "params" entries) as [params|]; cbv [default from_option id].
  - destruct params as [| b | n | s | items | [|p params]];
      try (intros Hf;
           rewrite (TranslateFacts.translate_var_falsy _ ["x_axis_label"] Hf),
                   (TranslateFacts.translate_var_falsy _ ["y_axis_label"] Hf);
           reflexivity).
    rewrite !top_level_field by discriminate. reflexivity.
  - reflexivity.
Qed.

Lemma chart_text_is_name_description_and_labels_witness :
  extract_text ChartAsset
    (YMap [("slice_name", YStr "Enrollments");
           ("params", YMap [("x_axis_label", YStr "Week")])])
  = ([], Ok [YStr "Enrollments"; YStr ""; YStr "Week"; YStr ""]).
Proof.
  apply (chart_text_is_name_description_and_labels [("slice_name", YStr "Enrollments");
                        ("params", YMap [("x_axis_label", YStr "Week")])]).
  discriminate.
Defined.

(** X4: a dataset whose [metrics] and [columns] are sequences of mappings
    contributes one value per metric and then one per column, in order:
    the [verbose_name], or the empty string where there is none. *)
Theorem dataset_text_is_the_verbose_names (entries : list (string * yaml)) (metrics columns : list yaml) :
  assoc "metrics" entries = Some (YList metrics) ->
  assoc "columns" entries = Some (YList columns) ->
  forallb is_mapping metrics = true ->
  forallb is_mapping columns = true ->
  extract_text DatasetAsset (YMap entries)
  = ([], Ok (map (get_or_empty "verbose_name") metrics
             ++ map (get_or_empty "verbose_name") columns)).
Proof.
  intros Hm Hc Hms Hcs. unfold extract_text.
  assert (Hne : entries <> []) by (intros ->; discriminate).
  change (translatable_attributes DatasetAsset)
    with ["metrics.verbose_name"; "columns.verbose_name"].
  cbn [for_extend].
  change (split_dot "metrics.verbose_name") with ["metrics"; "verbose_name"].
  change (split_dot "columns.verbose_name") with ["columns"; "verbose_name"].
  rewrite (descend_to entries "metrics" "verbose_name" (YList metrics))
    by (assumption || discriminate).
  rewrite (descend_to entries "columns" "verbose_name" (YList columns))
    by (assumption || discriminate).
  rewrite !sequence_field by assumption.
  cbn [bind ret app]. rewrite !app_nil_r. reflexivity.
Qed.

Lemma dataset_text_is_the_verbose_names_witness :
  extract_text DatasetAsset
    (YMap [("table_name", YStr "fact_enrollments");
           ("metrics", YList [YMap [("verbose_name", YStr "Count")]]);
           ("columns", YList [YMap [("column_name", YStr "org")];
                              YMap [("verbose_name", YStr "Course")]])])
  = ([], Ok [YStr "Count"; YStr ""; YStr "Course"]).
Proof.
  apply (dataset_text_is_the_verbose_names
           [("table_name", YStr "fact_enrollments");
            ("metrics", YList [YMap [("verbose_name", YStr "Count")]]);
            ("columns", YList [YMap [("column_name", YStr "org")];
                               YMap [("verbose_name", YStr "Course")]])]
           [YMap [("verbose_name", YStr "Count")]]
           [YMap [("column_name", YStr "org")]; YMap [("verbose_name", YStr "Course")]]);
    reflexivity.
Defined.

End TranslateMore.

(** * The file-level functions of translate_utils.py: properties *)

Module FilesFacts.
Import TranslateFiles FileCases ImportCases.

Lemma logged_bind_ok {A B : Type} (out : list report) (a : A) (k : A -> logged B) :
  bind (out, TranslateUtils.Ok a) k = (out ++ fst (k a), snd (k a)).
Proof. unfold bind. destruct (k a); reflexivity. Qed.

Lemma logged_bind_ret {A : Type} (m : logged A) : bind m (fun a => ret a) = m.
Proof.
  destruct m as [out [a|e]]; simpl; [|reflexivity]. rewrite app_nil_r. reflexivity.
Qed.

Lemma logged_bind_inv {A B : Type} (m : logged A) (k : A -> logged B)
    (out : list report) (b : B) :
  bind m k = (out, TranslateUtils.Ok b) ->
  exists o1 a o2, m = (o1, TranslateUtils.Ok a) /\ k a = (o2, TranslateUtils.Ok b)
                  /\ out = o1 ++ o2.
Proof.
  destruct m as [o1 [a|e]]; simpl; [|discriminate].
  destruct (k a) as [o2 r] eqn:Hk. intros [= <- ->]. exists o1, a, o2. auto.
Qed.

(** *** get_text_for_translations *)

Lemma walk_assets_contributing (walked : list (string * yaml)) :
  walk_assets (List.filter contributes walked) = walk_assets walked.
Proof.
  induction walked as [|[file asset] walked IH]; [reflexivity|].
  cbn [List.filter walk_assets]. unfold contributes at 1. cbn [fst snd].
  destruct (endswith file ".yaml") eqn:Hy; cbn [andb negb]; [|exact IH].
  destruct (unclassified asset) eqn:Hu; cbn [negb].
  - destruct asset as [| | | | |entries]; try discriminate.
    cbn [unclassified] in Hu.
    apply andb_prop in Hu. destruct Hu as [Hu H3].
    apply andb_prop in Hu. destruct Hu as [H1 H2].
    apply negb_true_iff in H1, H2, H3.
    rewrite (ImportFacts.mark_text_unclassified entries H1 H2 H3).
    rewrite IH. unfold lift. cbn [fst snd map].
    rewrite logged_bind_ok. cbn [app].
    change (fun more : list yaml => ret ([] ++ more)) with (fun more : list yaml => ret more).
    rewrite logged_bind_ret. destruct (walk_assets walked); reflexivity.
  - cbn [walk_assets]. rewrite Hy. cbn [negb]. rewrite IH. reflexivity.
Qed.

(** X5: files that are not YAML files, and YAML files holding a mapping that no
    asset class claims, change nothing: neither the strings returned nor
    the lines printed nor an exception. *)
Theorem unclaimed_files_contribute_nothing (root_path : string)
    (walked : list (string * yaml)) (dataset_strings : yaml) :
  get_text_for_translations root_path (List.filter contributes walked) dataset_strings
  = get_text_for_translations root_path walked dataset_strings.
Proof.
  unfold get_text_for_translations. rewrite walk_assets_contributing. reflexivity.
Qed.

Lemma assoc_tables (tables : list (string * list yaml)) (k : string) (items : list yaml) :
  distinct (map fst tables) = true ->
  In (k, items) tables ->
  assoc k (map (fun t => (fst t, YList (snd t))) tables) = Some (YList items).
Proof.
  induction tables as [|[k' items'] tables IH]; [intros _ []|].
  cbn [map fst distinct]. intros Hd Hin. apply andb_prop in Hd. destruct Hd as [Hk Hd].
  cbn [assoc snd]. destruct (String.eqb k' k) eqn:Heq.
  - apply String.eqb_eq in Heq. subst k'. destruct Hin as [[= <-]|Hin]; [reflexivity|].
    apply negb_true_iff in Hk.
    assert (Hex : existsb (String.eqb k) (map fst tables) = true).
    { apply existsb_exists. exists k. split; [|apply String.eqb_refl].
      change k with (fst (k, items)). apply in_map. exact Hin. }
    congruence.
  - destruct Hin as [[= -> _]|Hin]; [rewrite String.eqb_refl in Heq; discriminate|].
    apply IH; assumption.
Qed.

Lemma extend_datasets_tables (entries : list (string * yaml))
    (tables : list (string * list yaml)) :
  (forall k items, In (k, items) tables -> assoc k entries = Some (YList items)) ->
  extend_datasets (YMap entries) (map (fun t => YStr (fst t)) tables)
  = (map (fun t => DatasetExtracted (length (snd t)) (YStr (fst t))) tables,
     TranslateUtils.Ok (concat (map snd tables))).
Proof.
  induction tables as [|[k items] tables IH]; intros Hall; [reflexivity|].
  cbn [map extend_datasets fst snd concat].
  cbn [py_getitem]. rewrite (Hall k items) by (left; reflexivity).
  rewrite IH by (intros k' items' Hin; apply Hall; right; exact Hin).
  cbn [bind ret py_iter print app]. rewrite app_nil_r. reflexivity.
Qed.

(** X6: with a list of strings per dataset in [datasets_strings.yaml], the
    result is the strings of the asset files, in the order of the walk,
    followed by the lists of the datasets, in the order of the file; one
    line is printed per dataset. *)
Theorem dataset_strings_follow_asset_strings (root_path : string)
    (walked : list (string * yaml)) (tables : list (string * list yaml))
    (out : list report) (strings : list yaml) :
  distinct (map fst tables) = true ->
  walk_assets walked = (out, TranslateUtils.Ok strings) ->
  get_text_for_translations root_path walked (tables_yaml tables)
  = (AssetsPath (AssetImport.path_join (AssetImport.path_join root_path BASE_PATH)
                                       "openedx-assets/assets/")
       :: out ++ map (fun t => DatasetExtracted (length (snd t)) (YStr (fst t))) tables,
     TranslateUtils.Ok (strings ++ concat (map snd tables))).
Proof.
  intros Hd Hwalk. unfold get_text_for_translations, tables_yaml. rewrite Hwalk.
  cbn [print bind py_iter ret]. rewrite map_map. cbn [fst].
  rewrite extend_datasets_tables.
  2:{ intros k items Hin. apply assoc_tables; assumption. }
  cbn [bind ret app]. rewrite !app_nil_r. reflexivity.
Qed.

Lemma dataset_strings_follow_asset_strings_witness :
  get_text_for_translations "/repo"
    [("chart.yaml", YMap [("slice_name", YStr "Enrollments")]); ("README.md", YNull)]
    (tables_yaml [("fact_enrollments", [YStr "Course"; YStr "Mode"])])
  = ([AssetsPath "/repo/tutoraspects/templates/aspects/build/aspects-superset/openedx-assets/assets/";
      FromAsset (TranslateUtils.Extracted 2 "charts" YNull);
      DatasetExtracted 2 (YStr "fact_enrollments")],
     TranslateUtils.Ok [YStr "Enrollments"; YStr ""; YStr "Course"; YStr "Mode"]).
Proof.
  apply (dataset_strings_follow_asset_strings "/repo"
           [("chart.yaml", YMap [("slice_name", YStr "Enrollments")]); ("README.md", YNull)]
           [("fact_enrollments", [YStr "Course"; YStr "Mode"])]
           [FromAsset (TranslateUtils.Extracted 2 "charts" YNull)]
           [YStr "Enrollments"; YStr ""]); reflexivity.
Defined.

(** *** extract_translations *)

Lemma py_eq_sym (a b : yaml) : py_eq a b = py_eq b a.
Proof.
  destruct a, b; simpl; try reflexivity;
    try apply Z.eqb_sym; try apply String.eqb_sym;
    repeat match goal with |- context [if ?c then _ else _] => destruct c end;
    reflexivity.
Qed.

Lemma py_eq_str (s : string) (v : yaml) : py_eq (YStr s) v = true -> v = YStr s.
Proof.
  destruct v; simpl; try discriminate. intros H. apply String.eqb_eq in H. congruence.
Qed.

Lemma py_eq_refl_str (s : string) : py_eq (YStr s) (YStr s) = true.
Proof. simpl. apply String.eqb_refl. Qed.

Lemma existsb_py_eq_str (s : string) (vs : list yaml) :
  existsb (py_eq (YStr s)) vs = true <-> In (YStr s) vs.
Proof.
  rewrite existsb_exists. split.
  - intros [v [Hin Heq]]. apply py_eq_str in Heq. congruence.
  - intros Hin. exists (YStr s). split; [exact Hin | apply py_eq_refl_str].
Qed.

Lemma py_distinct_snoc (members : list yaml) (v : yaml) :
  py_distinct members = true ->
  existsb (py_eq v) members = false ->
  py_distinct (members ++ [v]) = true.
Proof.
  induction members as [|m members IH]; [reflexivity|].
  cbn [py_distinct existsb app]. intros Hd Hv.
  apply andb_prop in Hd. destruct Hd as [Hm Hd].
  apply orb_false_iff in Hv. destruct Hv as [Hvm Hv].
  rewrite existsb_app. cbn [existsb]. rewrite (py_eq_sym m v), Hvm.
  apply negb_true_iff in Hm. rewrite Hm. cbn. apply IH; assumption.
Qed.

(** What [set(values)] holds, starting from the members already added. *)
Lemma py_set_members (values : list yaml) :
  forall (members : list yaml) (out : list report) (S : list yaml),
    py_distinct members = true ->
    py_set members values = (out, TranslateUtils.Ok S) ->
    py_distinct S = true
    /\ forallb hashable values = true
    /\ (forall s, In (YStr s) S <-> In (YStr s) members \/ In (YStr s) values)
    /\ (forall v, In v S -> In v members \/ In v values).
Proof.
  induction values as [|v values IH]; intros members out S Hd Hset.
  - injection Hset as _ <-. repeat split; auto; try tauto.
    intros [H|[]]; exact H.
  - cbn [py_set] in Hset. destruct (hashable v) eqn:Hh; [|discriminate].
    destruct (existsb (py_eq v) members) eqn:Hex.
    + destruct (IH _ _ _ Hd Hset) as (H1 & H2 & H3 & H4).
      split; [exact H1|]. split; [cbn; rewrite Hh; exact H2|]. split.
      * intros s. rewrite H3. cbn [In]. split; [tauto|].
        intros [H|[H|H]]; auto. subst v. left. apply existsb_py_eq_str. exact Hex.
      * intros x Hx. destruct (H4 x Hx); cbn [In]; auto.
    + destruct (IH _ _ _ (py_distinct_snoc _ _ Hd Hex) Hset) as (H1 & H2 & H3 & H4).
      split; [exact H1|]. split; [cbn; rewrite Hh; exact H2|]. split.
      * intros s. rewrite H3, in_app_iff. cbn [In]. split.
        -- intros [[H|[H|[]]]|H]; auto.
        -- intros [H|[H|H]]; auto.
      * intros x Hx. destruct (H4 x Hx) as [H|H]; cbn [In]; auto.
        apply in_app_iff in H. destruct H as [H|[H|[]]]; auto.
Qed.

Lemma py_set_raises (values : list yaml) :
  forall members, forallb hashable values = false ->
    py_set members values = ([], TranslateUtils.Raise TypeError).
Proof.
  induction values as [|v values IH]; intros members Hh; [discriminate|].
  cbn [py_set]. cbn [forallb] in Hh. destruct (hashable v); [|reflexivity].
  apply IH. exact Hh.
Qed.

Lemma py_set_returns (values : list yaml) :
  forall members, forallb hashable values = true ->
    exists S, py_set members values = ([], TranslateUtils.Ok S).
Proof.
  induction values as [|v values IH]; intros members Hh.
  - exists members. reflexivity.
  - cbn [py_set]. cbn [forallb] in Hh. apply andb_prop in Hh. destruct Hh as [-> Hh].
    apply IH. exact Hh.
Qed.

Lemma dict_set_new (k v : yaml) (d : list (yaml * yaml)) :
  existsb (py_eq k) (map fst d) = false -> dict_set k v d = d ++ [(k, v)].
Proof.
  induction d as [|[k' v'] d IH]; [reflexivity|].
  cbn [map fst existsb dict_set app]. intros H. apply orb_false_iff in H.
  destruct H as [Hk H]. rewrite (py_eq_sym k' k), Hk. rewrite IH by exact H. reflexivity.
Qed.

Lemma py_distinct_app (xs ys : list yaml) :
  py_distinct (xs ++ ys) = true ->
  py_distinct ys = true /\ forall y, In y ys -> existsb (py_eq y) xs = false.
Proof.
  induction xs as [|x xs IH]; cbn [app py_distinct existsb].
  - auto.
  - intros H. apply andb_prop in H. destruct H as [Hx H].
    destruct (IH H) as [Hys Hall]. split; [exact Hys|].
    intros y Hy. rewrite (Hall y Hy), orb_false_r.
    apply negb_true_iff in Hx. rewrite py_eq_sym.
    destruct (py_eq x y) eqn:Hxy; [|reflexivity].
    assert (existsb (py_eq x) (xs ++ ys) = true); [|congruence].
    apply existsb_exists. exists y. split; [|exact Hxy]. apply in_app_iff. auto.
Qed.

Lemma fold_dict_set (S : list yaml) :
  forall d, py_distinct (map fst d ++ S) = true ->
    fold_left (fun d string => dict_set string string d) S d
    = d ++ map (fun s => (s, s)) S.
Proof.
  induction S as [|s S IH]; intros d Hd; cbn [fold_left map].
  - rewrite app_nil_r. reflexivity.
  - destruct (py_distinct_app _ _ Hd) as [_ Hall].
    rewrite dict_set_new by (apply Hall; left; reflexivity).
    rewrite IH.
    + rewrite <- app_assoc. reflexivity.
    + rewrite map_app. cbn [map fst]. rewrite <- app_assoc. exact Hd.
Qed.

(** X7: what [extract_translations] writes under ['en'], given the strings
    gathered.  When every gathered value can be a set member, each entry
    maps a value to itself, no two keys are equal, every key was gathered
    and a string is a key exactly when it was gathered.  When a sequence
    or a mapping was gathered, the call raises [TypeError]. *)
Theorem English_file_maps_each_string_to_itself (root_path : string)
    (walked : list (string * yaml)) (dataset_strings : yaml)
    (out : list report) (strings : list yaml) :
  get_text_for_translations root_path walked dataset_strings
  = (out, TranslateUtils.Ok strings) ->
  if forallb hashable strings then
    exists en,
      snd (extract_translations root_path walked dataset_strings) = TranslateUtils.Ok en
      /\ map snd en = map fst en
      /\ py_distinct (map fst en) = true
      /\ (forall k, In k (map fst en) -> In k strings)
      /\ (forall s, In (YStr s) strings <-> In (YStr s, YStr s) en)
  else
    snd (extract_translations root_path walked dataset_strings)
    = TranslateUtils.Raise TypeError.
Proof.
  intros Hget. unfold extract_translations. rewrite Hget.
  destruct (forallb hashable strings) eqn:Hh.
  - destruct (py_set_returns strings [] Hh) as [S HS].
    destruct (py_set_members strings [] [] S eq_refl HS) as (Hd & _ & Hstr & Hin).
    exists (map (fun s => (s, s)) S).
    cbn [bind print]. rewrite HS. cbn [bind print ret snd].
    rewrite (fold_dict_set S []) by exact Hd. cbn [app snd].
    split; [reflexivity|].
    rewrite !map_map. cbn [fst snd]. rewrite map_id.
    split; [reflexivity|]. split; [exact Hd|]. split.
    + intros k Hk. destruct (Hin k Hk) as [[]|H]. exact H.
    + intros s. rewrite in_map_iff. split.
      * intros Hs. exists (YStr s). split; [reflexivity|]. apply Hstr. auto.
      * intros [x [[= -> _] Hx]]. apply Hstr in Hx. destruct Hx as [[]|Hx]. exact Hx.
  - cbn [bind print]. rewrite (py_set_raises strings [] Hh). reflexivity.
Qed.

Lemma English_file_maps_each_string_to_itself_witness :
  exists en,
    snd (extract_translations "/repo"
           [("a.yaml", YMap [("slice_name", YStr "Enrollments")]);
            ("b.yaml", YMap [("slice_name", YStr "Enrollments")])]
           (tables_yaml [("fact", [YStr "Course"])]))
    = TranslateUtils.Ok en
    /\ map snd en = map fst en
    /\ py_distinct (map fst en) = true
    /\ (forall k, In k (map fst en) ->
                  In k [YStr "Enrollments"; YStr ""; YStr "Enrollments"; YStr "";
                        YStr "Course"])
    /\ (forall s, In (YStr s) [YStr "Enrollments"; YStr ""; YStr "Enrollments"; YStr "";
                               YStr "Course"]
                  <-> In (YStr s, YStr s) en).
Proof.
  exact (English_file_maps_each_string_to_itself "/repo"
           [("a.yaml", YMap [("slice_name", YStr "Enrollments")]);
            ("b.yaml", YMap [("slice_name", YStr "Enrollments")])]
           (tables_yaml [("fact", [YStr "Course"])])
           (fst (get_text_for_translations "/repo"
                   [("a.yaml", YMap [("slice_name", YStr "Enrollments")]);
                    ("b.yaml", YMap [("slice_name", YStr "Enrollments")])]
                   (tables_yaml [("fact", [YStr "Course"])])))
           [YStr "Enrollments"; YStr ""; YStr "Enrollments"; YStr ""; YStr "Course"]
           eq_refl).
Defined.

(** *** compile_translations *)

Lemma compile_loop_other_languages (lang : string)
    (walked : list (string * string * yaml)) :
  no_file_of lang walked = true ->
  forall all_translations out all',
    compile_loop walked all_translations = (out, TranslateUtils.Ok all') ->
    assoc lang all' = assoc lang all_translations.
Proof.
  induction walked as [|[[root file] loaded] walked IH]; intros Hno all0 out all' Hrun.
  - injection Hrun as _ <-. reflexivity.
  - cbn [no_file_of forallb fst snd] in Hno. apply andb_prop in Hno.
    destruct Hno as [Hthis Hno]. cbn [compile_loop] in Hrun.
    destruct (endswith file ".yaml") eqn:Hy; cbn [negb] in Hrun, Hthis.
    + cbn [orb] in Hthis. apply negb_true_iff in Hthis.
      apply String.eqb_neq in Hthis. fold (lang_of root) in Hrun.
      apply logged_bind_inv in Hrun. destruct Hrun as (o1 & all1 & o2 & Hstep & Hrest & _).
      rewrite (IH Hno _ _ _ Hrest).
      assert (Hset : exists v, all1 = assoc_set (lang_of root) v all0).
      { unfold try_except_KeyError in Hstep.
        destruct (py_getitem loaded (YStr (lang_of root))) as [o [v|e]] eqn:Hown;
          cbn [bind ret] in Hstep.
        - injection Hstep as _ <-. eauto.
        - destruct e; try discriminate.
          destruct (py_getitem loaded (YStr "en")) as [o' [v|e]];
            cbn [bind ret] in Hstep; [|discriminate].
          injection Hstep as _ <-. eauto. }
      destruct Hset as [v ->]. apply ImportFacts.assoc_set_ne. congruence.
    + eapply IH; eassumption.
Qed.

Lemma compile_loop_app (xs ys : list (string * string * yaml)) :
  forall all_translations,
    compile_loop (xs ++ ys) all_translations
    = bind (compile_loop xs all_translations) (compile_loop ys).
Proof.
  induction xs as [|[[root file] loaded] xs IH]; intros all0.
  - cbn [app compile_loop]. unfold ret. rewrite logged_bind_ok.
    destruct (compile_loop ys all0); reflexivity.
  - cbn [app compile_loop]. destruct (negb (endswith file ".yaml")); [apply IH|].
    match goal with
    | |- bind ?m _ = _ => destruct m as [o [a|e]]
    end; [|reflexivity].
    rewrite !logged_bind_ok. rewrite IH.
    destruct (compile_loop xs a) as [o1 [a1|e1]]; simpl; [|reflexivity].
    destruct (compile_loop ys a1) as [o2 r2]. simpl. rewrite app_assoc. reflexivity.
Qed.

(** X8: the translations of a language are those of its last YAML file in the
    walk: what the file holds under the language itself, else what it
    holds under ["en"].  A file with neither key stops the compilation
    with [KeyError]. *)
Theorem language_key_falls_back_to_en (root_path : string)
    (earlier later : list (string * string * yaml)) (root file : string)
    (entries : list (string * yaml)) (out : list report)
    (all_earlier : list (string * yaml)) :
  endswith file ".yaml" = true ->
  no_file_of (lang_of root) later = true ->
  compile_loop earlier [] = (out, TranslateUtils.Ok all_earlier) ->
  match assoc (lang_of root) entries, assoc "en" entries with
  | Some v, _ | None, Some v =>
      forall out' all_translations,
        compile_translations root_path (earlier ++ (root, file, YMap entries) :: later)
        = (out', TranslateUtils.Ok all_translations) ->
        assoc (lang_of root) all_translations = Some v
  | None, None =>
      snd (compile_translations root_path (earlier ++ (root, file, YMap entries) :: later))
      = TranslateUtils.Raise KeyError
  end.
Proof.
  intros Hy Hno Hearlier.
  assert (Hrun : forall v,
             match assoc (lang_of root) entries with
             | Some v' => v' = v
             | None => assoc "en" entries = Some v
             end ->
             forall out' all_translations,
               compile_translations root_path
                 (earlier ++ (root, file, YMap entries) :: later)
               = (out', TranslateUtils.Ok all_translations) ->
               assoc (lang_of root) all_translations = Some v).
  { intros v Hv out' all' Hc. unfold compile_translations in Hc.
    apply logged_bind_inv in Hc. destruct Hc as (o1 & all1 & o2 & Hloop & Hret & _).
    cbn in Hret. injection Hret as _ <-.
    rewrite compile_loop_app, Hearlier, logged_bind_ok in Hloop.
    cbn [compile_loop] in Hloop. rewrite Hy in Hloop. cbn [negb] in Hloop.
    fold (lang_of root) in Hloop.
    assert (Hstep : try_except_KeyError
                      (bind (py_getitem (YMap entries) (YStr (lang_of root)))
                            (fun v => ret (assoc_set (lang_of root) v all_earlier)))
                      (bind (py_getitem (YMap entries) (YStr "en"))
                            (fun v => ret (assoc_set (lang_of root) v all_earlier)))
                    = ([], TranslateUtils.Ok (assoc_set (lang_of root) v all_earlier))).
    { cbn [py_getitem]. destruct (assoc (lang_of root) entries) as [v'|].
      - subst v'. reflexivity.
      - rewrite Hv. reflexivity. }
    rewrite Hstep, logged_bind_ok in Hloop. cbn [app] in Hloop.
    destruct (compile_loop later _) as [o3 r3] eqn:Hlater. cbn [fst snd] in Hloop.
    injection Hloop as _ ->.
    rewrite (compile_loop_other_languages _ _ Hno _ _ _ Hlater).
    apply ImportFacts.assoc_set_eq. }
  destruct (assoc (lang_of root) entries) as [v|] eqn:Hown.
  - apply Hrun. reflexivity.
  - destruct (assoc "en" entries) as [v|] eqn:Hen.
    + apply Hrun. reflexivity.
    + unfold compile_translations.
      rewrite compile_loop_app, Hearlier, logged_bind_ok.
      cbn [compile_loop]. rewrite Hy. cbn [negb]. fold (lang_of root).
      cbn [py_getitem]. rewrite Hown, Hen. reflexivity.
Qed.

Lemma language_key_falls_back_to_en_witness :
  exists out' all_translations,
    compile_translations "/repo"
      ([("/locale/fr", "locale.yaml", YMap [("fr", YStr "old")])]
       ++ ("/locale/fr", "new.yaml", YMap [("en", YStr "bonjour")])
       :: [("/locale/de", "locale.yaml", YMap [("de", YStr "hallo")])])
    = (out', TranslateUtils.Ok all_translations)
    /\ assoc (lang_of "/locale/fr") all_translations = Some (YStr "bonjour").
Proof.
  eexists. eexists. split; [reflexivity|].
  eapply (language_key_falls_back_to_en "/repo"
            [("/locale/fr", "locale.yaml", YMap [("fr", YStr "old")])]
            [("/locale/de", "locale.yaml", YMap [("de", YStr "hallo")])]
            "/locale/fr" "new.yaml" [("en", YStr "bonjour")]
            [] [("fr", YStr "old")]); reflexivity.
Defined.

End FilesFacts.

(** * Further properties of the import helper *)

Module ImportMore.
Import AssetImport ImportCases MoreCases ImportFacts.

Lemma assoc_set_keys {V : Type} (k : string) (v : V) (d : list (string * V)) :
  In k (map fst d) -> map fst (assoc_set k v d) = map fst d.
Proof.
  induction d as [|[k' v'] d IH]; simpl; [intros []|].
  destruct (String.eqb k' k) eqn:Heq.
  - apply String.eqb_eq in Heq. subst k'. reflexivity.
  - intros [->|Hin]; [rewrite String.eqb_refl in Heq; discriminate|].
    simpl. rewrite IH by exact Hin. reflexivity.
Qed.

Section Shapes.
Variable shapes : list (list string + nat).
Variable raw : list string.

Abbreviation shaped := (fun h : store => map shape h = shapes).
Abbreviation any := (fun _ _ : store => True).
Abbreviation whenever := (fun _ : nat => True).
Abbreviation keeps m := (triple shaped m (fun _ => True) any whenever).

Lemma keeps_bind {A B : Type} (m : M A) (k : A -> M B) :
  triple shaped m (fun _ => True) any whenever ->
  (forall a, triple shaped (k a) (fun _ => True) any whenever) ->
  triple shaped (bind m k) (fun _ => True) any whenever.
Proof. intros Hm Hk. eapply triple_bind; eauto. Qed.

Lemma keeps_quiet {A : Type} (m : M A) :
  quiet m -> triple shaped m (fun _ => True) any whenever.
Proof. intros Hq. apply triple_quiet; auto. Qed.

Lemma keeps_ret {A : Type} (a : A) : triple shaped (ret a) (fun _ => True) any whenever.
Proof. apply triple_ret; auto. Qed.

(** Storing under a key the dict already has keeps its keys. *)
Lemma keeps_setitem (lc : loc) (keys : list string) (key : string) (v : value) :
  shapes !! lc = Some (inl keys) -> In key keys ->
  triple shaped (setitem (VRef lc) key v) (fun _ => True) any whenever.
Proof.
  intros Hshape Hkey h Hh. unfold setitem.
  assert (Hl : shape <$> h !! lc = Some (inl keys)).
  { rewrite <- list_lookup_fmap. change (map shape h !! lc = Some (inl keys)).
    rewrite Hh. exact Hshape. }
  destruct (h !! lc) as [[d|xs]|] eqn:Hlc; try discriminate.
  injection Hl as Hd. rewrite length_insert. repeat split; auto.
  change (shape <$> <[lc := ODict (assoc_set key v d)]> h = shapes).
  rewrite list_fmap_insert. cbn [shape]. rewrite assoc_set_keys by (rewrite Hd; exact Hkey).
  rewrite Hd. rewrite <- Hh. apply list_insert_id.
  change (map shape h !! lc = Some (inl keys)). rewrite Hh. exact Hshape.
Qed.

Lemma keeps_omit_templated_key (recur : value -> value -> M unit)
    (lc : loc) (keys : list string) (key : string) (existing : value) :
  (forall c e, triple shaped (recur c e) (fun _ => True) any whenever) ->
  shapes !! lc = Some (inl keys) -> In key keys ->
  triple shaped (omit_templated_key recur raw (VRef lc) existing key)
         (fun _ => True) any whenever.
Proof.
  intros Hrecur Hshape Hkey. unfold omit_templated_key.
  apply keeps_bind; [apply keeps_quiet, quiet_contains|]. intros shared.
  destruct shared; simpl; [|apply keeps_ret].
  apply keeps_bind; [apply keeps_quiet, quiet_getitem|]. intros old.
  apply keeps_bind.
  { destruct old as [| | |s|]; try apply keeps_ret.
    destruct (has_template_marker s); [|apply keeps_ret].
    destruct (existsb (String.eqb key) raw); [|eapply keeps_setitem; eassumption].
    apply keeps_bind; [apply keeps_quiet, quiet_getitem|]. intros nv.
    destruct nv; try (apply triple_raise; auto).
    eapply keeps_setitem; eassumption. }
  intros _.
  apply keeps_bind; [apply keeps_quiet, quiet_getitem|]. intros child.
  apply keeps_bind; [apply keeps_quiet, quiet_read|]. intros child_is_dict.
  apply keeps_bind.
  { destruct child_is_dict; [|apply keeps_ret].
    apply keeps_bind; [apply keeps_quiet, quiet_getitem|]. intros old_child.
    apply Hrecur. }
  intros _.
  apply keeps_bind; [apply keeps_quiet, quiet_getitem|]. intros child'.
  apply keeps_bind; [apply keeps_quiet, quiet_read|]. intros items.
  apply triple_for_enumerate; auto.
  intros i item _.
  apply keeps_bind; [apply keeps_quiet, quiet_read|]. intros item_is_dict.
  destruct item_is_dict; [|apply keeps_ret].
  eapply triple_try_pass.
  apply keeps_bind; [apply keeps_quiet, quiet_getitem|]. intros old_list.
  apply keeps_bind; [apply keeps_quiet, quiet_getindex|]. intros tmp.
  apply keeps_bind; [apply keeps_quiet, quiet_read|]. intros tmp'.
  apply Hrecur.
Qed.

Lemma keeps_omit_templated_vars (fuel : nat) :
  forall c e, triple shaped (omit_templated_vars fuel raw c e) (fun _ => True)
                     any whenever.
Proof.
  induction fuel as [|fuel IH]; intros c e h Hh; simpl; [exact I|].
  destruct (deref h c) as [[entries|items]|] eqn:Hc; auto.
  destruct (deref h e) as [[entries'|items']|] eqn:He; auto.
  destruct c as [| | | |lc]; try discriminate Hc. cbn [deref] in Hc.
  assert (Hshape : shapes !! lc = Some (inl (map fst entries))).
  { rewrite <- Hh. change ((shape <$> h) !! lc = Some (inl (map fst entries))).
    apply list_lookup_fmap_Some. exists (ODict entries). split; [reflexivity | exact Hc]. }
  refine (triple_for_each shaped any whenever _ _ _ (map fst entries) _ h Hh); auto.
  intros key Hkey. eapply keeps_omit_templated_key; eauto.
Qed.
End Shapes.

(** X9: the merge never adds or removes a key and never changes the length of
    a list, in any store, also when the new and the existing tree share
    objects: when the call returns or raises, every object has the keys,
    in order, or the length it had. *)
Theorem merge_keeps_keys_and_lengths (fuel : nat) (raw : list string)
    (content existing : value) (h h' : store) :
  store_after (omit_templated_vars fuel raw content existing h) = Some h' ->
  map shape h' = map shape h.
Proof.
  intros Hrun.
  pose proof (keeps_omit_templated_vars (map shape h) raw fuel content existing h eq_refl)
    as Hkeep.
  destruct (omit_templated_vars fuel raw content existing h) as [a h1|e h1|];
    simpl in Hrun; try discriminate; injection Hrun as ->; tauto.
Qed.

Lemma merge_keeps_keys_and_lengths_witness :
  store_after (omit_templated_vars 3 ChartAsset_raw_vars (VRef 0) (VRef 0)
                 [ODict [("sqlExpression", VStr "{{ x }}"); ("items", VRef 1)];
                  OList [VInt 1]])
  = Some [ODict [("sqlExpression", VStr "{% raw %}{{ x }}{% endraw %}");
                 ("items", VRef 1)];
          OList [VInt 1]]
  /\ map shape [ODict [("sqlExpression", VStr "{% raw %}{{ x }}{% endraw %}");
                       ("items", VRef 1)];
                OList [VInt 1]]
     = map shape [ODict [("sqlExpression", VStr "{{ x }}"); ("items", VRef 1)];
                  OList [VInt 1]].
Proof.
  split; [vm_compute; reflexivity|].
  apply (merge_keeps_keys_and_lengths 3 ChartAsset_raw_vars (VRef 0) (VRef 0)).
  vm_compute. reflexivity.
Defined.

(** ** Reading back what was loaded *)

Lemma alloc_length (t : yaml) (h : store) (v : value) (h' : store) :
  alloc t h = (v, h') ->
  length h <= length h' /\ forall l, l < length h -> h' !! l = h !! l.
Proof.
  intros Ha. destruct (alloc_grows t h v h' Ha) as (Hlen & Hkeep & _). auto.
Qed.

Lemma alloc_items_dump (items : list yaml) (fuel : nat) :
  Forall (fun t => forall h v h', alloc t h = (v, h') -> height t <= fuel ->
                   forall h2, holds h h' h2 -> dump fuel h2 v = Some t) items ->
  Forall (fun t => height t <= fuel) items ->
  forall h vs h', alloc_items alloc items h = (vs, h') ->
    length h <= length h'
    /\ (forall l, l < length h -> h' !! l = h !! l)
    /\ forall h2, holds h h' h2 -> mapM (dump fuel h2) vs = Some items.
Proof.
  induction 1 as [|t items Ht _ IH]; intros Hfuel h vs h' Ha; simpl in Ha.
  - injection Ha as <- <-. repeat split; auto.
  - destruct (alloc t h) as [v h1] eqn:Hv.
    destruct (alloc_items alloc items h1) as [vs' h2] eqn:Hvs.
    injection Ha as <- <-.
    inversion Hfuel as [|? ? Hfuel_t Hfuel_items]; subst.
    destruct (alloc_length _ _ _ _ Hv) as [Hlen1 Hkeep1].
    destruct (IH Hfuel_items _ _ _ Hvs) as (Hlen2 & Hkeep2 & Hdump).
    split; [lia|]. split.
    + intros l Hl. rewrite Hkeep2 by lia. apply Hkeep1. exact Hl.
    + intros h3 Hholds. apply mapM_Some. constructor.
      * apply (Ht _ _ _ Hv Hfuel_t). intros l Hl1 Hl2.
        rewrite Hholds by lia. apply Hkeep2. exact Hl2.
      * apply mapM_Some. apply Hdump. intros l Hl1 Hl2. apply Hholds; lia.
Qed.

Lemma alloc_entries_dump (entries : list (string * yaml)) (fuel : nat) :
  Forall (fun kv => forall h v h', alloc (snd kv) h = (v, h') ->
                    height (snd kv) <= fuel ->
                    forall h2, holds h h' h2 -> dump fuel h2 v = Some (snd kv))
         entries ->
  Forall (fun kv => height (snd kv) <= fuel) entries ->
  forall h kvs h', alloc_entries alloc entries h = (kvs, h') ->
    length h <= length h'
    /\ (forall l, l < length h -> h' !! l = h !! l)
    /\ forall h2, holds h h' h2 ->
         mapM (fun kv => pair (fst kv) <$> dump fuel h2 (snd kv)) kvs = Some entries.
Proof.
  induction 1 as [|[k t] entries Ht _ IH]; intros Hfuel h kvs h' Ha; simpl in Ha.
  - injection Ha as <- <-. repeat split; auto.
  - destruct (alloc t h) as [v h1] eqn:Hv.
    destruct (alloc_entries alloc entries h1) as [kvs' h2] eqn:Hkvs.
    injection Ha as <- <-.
    inversion Hfuel as [|? ? Hfuel_t Hfuel_entries]; subst.
    destruct (alloc_length _ _ _ _ Hv) as [Hlen1 Hkeep1].
    destruct (IH Hfuel_entries _ _ _ Hkvs) as (Hlen2 & Hkeep2 & Hdump).
    split; [lia|]. split.
    + intros l Hl. rewrite Hkeep2 by lia. apply Hkeep1. exact Hl.
    + intros h3 Hholds. apply mapM_Some. constructor.
      * cbn [fst snd] in *. rewrite (Ht _ _ _ Hv Hfuel_t); [reflexivity|].
        intros l Hl1 Hl2. rewrite Hholds by lia. apply Hkeep2. exact Hl2.
      * apply mapM_Some. apply Hdump. intros l Hl1 Hl2. apply Hholds; lia.
Qed.

Lemma height_items (items : list yaml) (fuel : nat) :
  fold_right (fun t n => Nat.max (height t) n) 0 items <= fuel ->
  Forall (fun t => height t <= fuel) items.
Proof.
  induction items as [|t items IH]; simpl; intros H; constructor; [lia|].
  apply IH. lia.
Qed.

Lemma height_entries (entries : list (string * yaml)) (fuel : nat) :
  fold_right (fun kv n => Nat.max (height (snd kv)) n) 0 entries <= fuel ->
  Forall (fun kv => height (snd kv) <= fuel) entries.
Proof.
  induction entries as [|kv entries IH]; simpl; intros H; constructor; [lia|].
  apply IH. lia.
Qed.

(** A tree placed in the store reads back as itself, from every store that
    still holds its objects, with fuel for its height. *)
Lemma alloc_dump (t : yaml) :
  forall (fuel : nat) (h : store) (v : value) (h' : store),
    alloc t h = (v, h') -> height t <= fuel ->
    forall h2, holds h h' h2 -> dump fuel h2 v = Some t.
Proof.
  induction t as [| b | n | s | items IH | entries IH] using yaml_nested_ind;
    intros fuel h v h' Ha Hfuel h2 Hholds; cbn [height] in Hfuel;
    (destruct fuel as [|fuel]; [lia|]).
  1-4: simpl in Ha; injection Ha as <- <-; reflexivity.
  - cbn [alloc] in Ha.
    destruct (alloc_items alloc items (h ++ [OList []])) as [vs h1] eqn:Hvs.
    injection Ha as <- <-.
    assert (Hall : Forall (fun t => forall h v h', alloc t h = (v, h') ->
                     height t <= fuel ->
                     forall h2, holds h h' h2 -> dump fuel h2 v = Some t) items).
    { eapply Forall_impl; [exact IH|]. intros t Ht h0 v0 h0' H1 H2 h3 H3.
      eapply Ht; eassumption. }
    assert (Hfit : Forall (fun t => height t <= fuel) items)
      by (apply height_items; lia).
    destruct (alloc_items_dump items fuel Hall Hfit _ _ _ Hvs) as (Hlen & _ & Hdump).
    rewrite length_app in Hlen. cbn [length] in Hlen.
    unfold holds in Hholds. rewrite length_insert in Hholds.
    cbn [dump]. unfold loc. rewrite (Hholds (length h)) by lia.
    rewrite list_lookup_insert_eq by lia.
    rewrite Hdump; [reflexivity|].
    intros l Hl1 Hl2. rewrite length_app in Hl1. cbn [length] in Hl1.
    rewrite Hholds by lia. apply list_lookup_insert_ne. lia.
  - cbn [alloc] in Ha.
    destruct (alloc_entries alloc entries (h ++ [ODict []])) as [kvs h1] eqn:Hkvs.
    injection Ha as <- <-.
    assert (Hall : Forall (fun kv => forall h v h', alloc (snd kv) h = (v, h') ->
                     height (snd kv) <= fuel ->
                     forall h2, holds h h' h2 -> dump fuel h2 v = Some (snd kv))
                          entries).
    { eapply Forall_impl; [exact IH|]. intros kv Ht h0 v0 h0' H1 H2 h3 H3.
      eapply Ht; eassumption. }
    assert (Hfit : Forall (fun kv => height (snd kv) <= fuel) entries)
      by (apply height_entries; lia).
    destruct (alloc_entries_dump entries fuel Hall Hfit _ _ _ Hkvs)
      as (Hlen & _ & Hdump).
    rewrite length_app in Hlen. cbn [length] in Hlen.
    unfold holds in Hholds. rewrite length_insert in Hholds.
    cbn [dump]. unfold loc. rewrite (Hholds (length h)) by lia.
    rewrite list_lookup_insert_eq by lia.
    rewrite Hdump; [reflexivity|].
    intros l Hl1 Hl2. rewrite length_app in Hl1. cbn [length] in Hl1.
    rewrite Hholds by lia. apply list_lookup_insert_ne. lia.
Qed.

(** X10: the merge leaves the existing tree as it was loaded: read back after
    the call, whether the call returned or raised, the existing file is
    the tree that was on disk. *)
Theorem merge_leaves_existing_tree (raw : list string) (fuel n : nat)
    (new_entries old_entries : list (string * yaml)) :
  height (YMap old_entries) <= n ->
  let '(content, existing, h) := load_both (YMap new_entries) (YMap old_entries) in
  forall h',
    store_after (omit_templated_vars fuel raw content existing h) = Some h' ->
    dump n h' existing = Some (YMap old_entries).
Proof.
  intros Hn.
  pose proof (merge_keeps_existing_objects raw fuel new_entries old_entries) as Hkeep.
  unfold load_both in *.
  destruct (alloc (YMap new_entries) []) as [content h0] eqn:Hnew.
  destruct (alloc (YMap old_entries) h0) as [existing h1] eqn:Hold.
  intros h' Hrun.
  eapply alloc_dump; [exact Hold | exact Hn |].
  intros l Hl1 Hl2. eapply Hkeep; [exact Hrun | | exact Hl1].
  destruct (alloc_mapping old_entries h0) as (kvs & h1' & Ha & _).
  rewrite Hold in Ha. injection Ha as -> _. reflexivity.
Qed.

Lemma merge_leaves_existing_tree_witness :
  height (YMap [("sql", YStr "{{ Q }}"); ("extra", YMap [("a", YStr "{{ A }}")])]) <= 3
  /\ let '(content, existing, h) :=
       load_both (YMap [("sql", YStr "SELECT 1"); ("extra", YMap [("a", YStr "b")])])
                 (YMap [("sql", YStr "{{ Q }}");
                        ("extra", YMap [("a", YStr "{{ A }}")])]) in
     forall h',
       store_after (omit_templated_vars 5 [] content existing h) = Some h' ->
       dump 3 h' existing
       = Some (YMap [("sql", YStr "{{ Q }}"); ("extra", YMap [("a", YStr "{{ A }}")])]).
Proof.
  split; [simpl; lia|].
  apply (merge_leaves_existing_tree [] 5 3
           [("sql", YStr "SELECT 1"); ("extra", YMap [("a", YStr "b")])]
           [("sql", YStr "{{ Q }}"); ("extra", YMap [("a", YStr "{{ A }}")])]).
  simpl. lia.
Defined.

Lemma alloc_string (t : yaml) (h : store) (s : string) (h' : store) :
  alloc t h = (VStr s, h') -> t = YStr s.
Proof.
  destruct t; simpl; try discriminate.
  - intros [= ->]. reflexivity.
  - destruct (alloc_items alloc items (h ++ [OList []])); discriminate.
  - destruct (alloc_entries alloc entries (h ++ [ODict []])); discriminate.
Qed.

(** What a loaded dict holds as a string, the tree held as that string;
    a key the tree lacks, the dict lacks. *)
Lemma alloc_entries_back (entries : list (string * yaml)) :
  forall h kvs h', alloc_entries alloc entries h = (kvs, h') ->
    forall k,
      match assoc k kvs with
      | Some (VStr s) => assoc k entries = Some (YStr s)
      | Some _ => exists t, assoc k entries = Some t
      | None => assoc k entries = None
      end.
Proof.
  induction entries as [|[k t] entries IH]; intros h kvs h' Hrun k'; simpl in Hrun.
  - injection Hrun as <- <-. reflexivity.
  - destruct (alloc t h) as [v h1] eqn:Hv.
    destruct (alloc_entries alloc entries h1) as [kvs' h2] eqn:Hkvs.
    injection Hrun as <- <-. simpl. destruct (String.eqb k k').
    + destruct v; eauto. apply alloc_string in Hv. congruence.
    + apply (IH _ _ _ Hkvs).
Qed.

Lemma load_both_back (new_entries old_entries : list (string * yaml)) :
  exists b h dc de,
    load_both (YMap new_entries) (YMap old_entries) = (VRef 0, VRef b, h)
    /\ inv b h /\ 0 < b
    /\ h !! 0 = Some (ODict dc) /\ h !! b = Some (ODict de)
    /\ map fst dc = map fst new_entries
    /\ (forall k s, assoc k new_entries = Some (YStr s) -> assoc k dc = Some (VStr s))
    /\ (forall k s, assoc k de = Some (VStr s) -> assoc k old_entries = Some (YStr s))
    /\ (forall k, assoc k de = None -> assoc k old_entries = None).
Proof.
  destruct (load_both_mappings new_entries old_entries)
    as (b & h & dc & de & Hload & Hinv & Hb & Hc & He & Hdc & Hnew & _).
  exists b, h, dc, de. repeat (split; [assumption|]).
  unfold load_both in Hload.
  destruct (alloc (YMap new_entries) []) as [content h0].
  destruct (alloc (YMap old_entries) h0) as [existing h1] eqn:Hold.
  injection Hload as -> -> ->. cbn [alloc] in Hold.
  destruct (alloc_entries alloc old_entries (h0 ++ [ODict []])) as [kvs h2] eqn:Hkvs.
  injection Hold as <- <-.
  assert (Hb' : length h0 < length h2).
  { assert (Hlt : length h0 < length (<[length h0 := ODict kvs]> h2))
      by (eapply lookup_lt_Some; exact He).
    rewrite length_insert in Hlt. exact Hlt. }
  rewrite list_lookup_insert_eq in He by exact Hb'. injection He as <-.
  pose proof (alloc_entries_back _ _ _ _ Hkvs) as Hback.
  split; intros k; specialize (Hback k).
  - intros s Hs. rewrite Hs in Hback. exact Hback.
  - intros Hnone. rewrite Hnone in Hback. exact Hback.
Qed.

Section Plain.
Variables (b : loc) (raw : list string) (lc le : loc) (de : list (string * value)).
Variables (k new : string) (fuel : nat).
Hypothesis lc_region : lc < b.
Hypothesis le_outside : le < lc \/ b <= le.
Hypothesis old_plain :
  match assoc k de with
  | Some (VStr old) => has_template_marker old = false
  | _ => True
  end.

Abbreviation body :=
  (omit_templated_key (omit_templated_vars fuel raw) raw (VRef lc) (VRef le)).

(** At such a key the body of the loop stores nothing. *)
Lemma plain_key_is_skipped (h : store) :
  entry_is b lc le de k (VStr new) h -> body k h = Ok tt h.
Proof.
  intros (Hinv & Hle & d & Hlc & Hk). unfold omit_templated_key.
  erewrite bind_Ok by (apply contains_dict; exact Hle).
  unfold has_key. destruct (assoc k de) as [old|] eqn:Hold; cbn [negb]; [|reflexivity].
  erewrite bind_Ok by (eapply getitem_dict; [exact Hle | exact Hold]).
  cbv beta iota.
  erewrite bind_Ok with (h1 := h) (a := tt).
  2:{ destruct old as [| | |s|]; try reflexivity. rewrite old_plain. reflexivity. }
  erewrite bind_Ok by (eapply getitem_dict; [exact Hlc | exact Hk]).
  erewrite bind_Ok by reflexivity. cbn [is_dict deref].
  erewrite bind_Ok by reflexivity.
  erewrite bind_Ok by (eapply getitem_dict; [exact Hlc | exact Hk]).
  erewrite bind_Ok by reflexivity. cbn [deref]. reflexivity.
Qed.

Lemma loop_keeps_plain_entry (keys : list string) (h h' : store) :
  NoDup keys -> In k keys ->
  entry_is b lc le de k (VStr new) h ->
  for_each body keys h = Ok tt h' ->
  entry_is b lc le de k (VStr new) h'.
Proof.
  intros Hnodup Hin Hst Hrun.
  apply in_split in Hin as (ks1 & ks2 & ->).
  apply NoDup_app in Hnodup as (_ & Hsep & [Hk2 _]%NoDup_cons).
  assert (Hk1 : ~ In k ks1).
  { intros H%list_elem_of_In. apply (Hsep k H). left. }
  rewrite list_elem_of_In in Hk2.
  apply for_each_app in Hrun as (h1 & Hrun1 & Hrun2).
  pose proof (other_keys_keep_entry b raw lc le de k fuel lc_region le_outside
                _ _ Hk1 _ _ Hst Hrun1) as Hst1.
  simpl in Hrun2. rewrite (bind_Ok _ _ _ _ _ (plain_key_is_skipped h1 Hst1)) in Hrun2.
  exact (other_keys_keep_entry b raw lc le de k fuel lc_region le_outside
           _ _ Hk2 _ _ Hst1 Hrun2).
Qed.
End Plain.

(** X11: only a templated old string replaces a new string.  Where the old
    mapping lacks the key, or holds there anything but a string with a
    template marker (a literal, a number, a list, a mapping), the merge of
    two parsed mappings leaves the new string in place, raw field or not. *)
Theorem plain_old_value_never_wins (raw : list string) (fuel : nat)
    (new_entries old_entries : list (string * yaml)) (k new : string) :
  distinct (map fst new_entries) = true ->
  assoc k new_entries = Some (YStr new) ->
  old_is_plain k old_entries = true ->
  let '(content, existing, h) := load_both (YMap new_entries) (YMap old_entries) in
  (length h < fuel -> omit_templated_vars fuel raw content existing h <> OutOfFuel)
  /\ forall h', omit_templated_vars fuel raw content existing h = Ok tt h' ->
       getitem content k h' = Ok (VStr new) h'.
Proof.
  intros Hkeys Hnew Hplain.
  destruct (load_both_back new_entries old_entries)
    as (b & h & dc & de & -> & Hinv & Hb & Hc & He & Hdc & Hnew' & Hstr & Hnone).
  split.
  - intros Hfuel Hout.
    assert (Hbb : before b (VRef 0) = true) by (apply Nat.ltb_lt; exact Hb).
    pose proof (omit_templated_vars_frame b raw fuel (VRef 0) (VRef b) Hbb h Hinv) as Hf.
    rewrite Hout in Hf. simpl in Hf. lia.
  - intros h' Hrun. destruct fuel as [|fuel]; [discriminate|].
    simpl in Hrun. unfold loc in *. rewrite Hc, He in Hrun.
    assert (Hold : match assoc k de with
                   | Some (VStr old) => has_template_marker old = false
                   | _ => True
                   end).
    { destruct (assoc k de) as [[| | |old|]|] eqn:Hde; auto.
      unfold old_is_plain in Hplain. rewrite (Hstr _ _ Hde) in Hplain.
      apply negb_true_iff. exact Hplain. }
    assert (Hst : entry_is b 0 b de k (VStr new) h).
    { split; [split; [exact Hinv | eapply lookup_lt_Some; exact Hc]|].
      split; [exact He|]. exists dc. auto. }
    assert (Hnodup : NoDup (map fst dc))
      by (rewrite Hdc; apply distinct_NoDup; exact Hkeys).
    pose proof (loop_keeps_plain_entry b raw 0 b de k new fuel Hb (or_intror (le_n b))
                  Hold (map fst dc) h h' Hnodup (assoc_in_keys _ _ _ (Hnew' _ _ Hnew))
                  Hst Hrun) as (_ & _ & d' & Hd' & Hk').
    eapply getitem_dict; eassumption.
Qed.

Lemma plain_old_value_never_wins_witness :
  let '(content, existing, h) :=
    load_both (YMap [("sql", YStr "SELECT 2"); ("schema", YStr "main")])
              (YMap [("sql", YStr "SELECT 1"); ("table_name", YStr "{{ T }}")]) in
  (length h < 3 -> omit_templated_vars 3 [] content existing h <> OutOfFuel)
  /\ forall h', omit_templated_vars 3 [] content existing h = Ok tt h' ->
       getitem content "sql" h' = Ok (VStr "SELECT 2") h'.
Proof.
  apply (plain_old_value_never_wins [] 3
           [("sql", YStr "SELECT 2"); ("schema", YStr "main")]
           [("sql", YStr "SELECT 1"); ("table_name", YStr "{{ T }}")]
           "sql" "SELECT 2"); reflexivity.
Defined.

Lemma assoc_pop_ne {V : Type} (k k2 : string) (d : list (string * V)) :
  k2 <> k -> assoc k2 (assoc_pop k d) = assoc k2 d.
Proof.
  intros Hne. induction d as [|[k' v'] d IH]; simpl; [reflexivity|].
  destruct (String.eqb k' k) eqn:Hk; simpl.
  - apply String.eqb_eq in Hk. subst k'.
    destruct (String.eqb k k2) eqn:Hk2; [|reflexivity].
    apply String.eqb_eq in Hk2. congruence.
  - rewrite IH. reflexivity.
Qed.

Lemma assoc_pop_eq {V : Type} (k : string) (d : list (string * V)) :
  distinct (map fst d) = true -> assoc k (assoc_pop k d) = None.
Proof.
  induction d as [|[k' v'] d IH]; simpl; [reflexivity|].
  intros Hd. apply andb_prop in Hd. destruct Hd as [Hk' Hd].
  destruct (String.eqb k' k) eqn:Hk; simpl.
  - apply String.eqb_eq in Hk. subst k'. apply negb_true_iff in Hk'.
    destruct (assoc k d) as [v|] eqn:Hv; [|reflexivity].
    assert (Hex : existsb (String.eqb k) (map fst d) = true); [|congruence].
    apply existsb_exists. exists k. split; [|apply String.eqb_refl].
    eapply assoc_in_keys. exact Hv.
  - rewrite Hk. apply IH. exact Hd.
Qed.

Lemma assoc_pop_absent {V : Type} (k : string) (d : list (string * V)) :
  assoc k d = None -> assoc_pop k d = d.
Proof.
  induction d as [|[k' v'] d IH]; simpl; [reflexivity|].
  destruct (String.eqb k' k); [discriminate|]. intros H. rewrite IH by exact H.
  reflexivity.
Qed.

Lemma remove_step (l : loc) (d : list (string * value)) (key k2 : string)
    (rest : list string) (child : value) (h : store) :
  h !! l = Some (ODict d) -> assoc key d = Some child ->
  _remove_content (VRef l) (key :: k2 :: rest) h = _remove_content child (k2 :: rest) h.
Proof.
  intros Hl Hchild.
  change (_remove_content (VRef l) (key :: k2 :: rest))
    with (bind (contains key (VRef l))
               (fun found : bool =>
                  if found then bind (getitem (VRef l) key)
                                     (fun child => _remove_content child (k2 :: rest))
                  else ret tt)).
  erewrite bind_Ok by (apply contains_dict; exact Hl).
  rewrite (has_key_assoc _ _ _ Hchild).
  erewrite bind_Ok by (eapply getitem_dict; eassumption). reflexivity.
Qed.

(** X12: a path that leads through dicts to a dict: the last key is popped from
    that dict and nothing else changes.  With the keys of the dict
    pairwise different, the key is gone afterwards, and every other entry
    of the dict is as before. *)
Theorem remove_content_pops_the_last_key (prefix : list string) :
  forall (content : value) (key : string) (l : loc) (d : list (string * value))
         (h : store),
    descend h content prefix = Some (VRef l) ->
    h !! l = Some (ODict d) ->
    distinct (map fst d) = true ->
    _remove_content content (prefix ++ [key]) h
    = Ok tt (<[l := ODict (assoc_pop key d)]> h)
    /\ contains key (VRef l) (<[l := ODict (assoc_pop key d)]> h)
       = Ok false (<[l := ODict (assoc_pop key d)]> h)
    /\ forall k2, k2 <> key -> assoc k2 (assoc_pop key d) = assoc k2 d.
Proof.
  induction prefix as [|k prefix IH]; intros content key l d h Hreach Hl Hd.
  - injection Hreach as ->. split; [|split].
    + cbn [app _remove_content]. unfold py_pop. unfold loc in *. rewrite Hl. reflexivity.
    + erewrite contains_dict
        by (apply list_lookup_insert_eq; eapply lookup_lt_Some; exact Hl).
      unfold has_key. rewrite assoc_pop_eq by exact Hd. reflexivity.
    + intros k2 Hk2. apply assoc_pop_ne. exact Hk2.
  - cbn [descend] in Hreach.
    destruct (deref h content) as [[d0|xs]|] eqn:Hc; try discriminate.
    destruct (assoc k d0) as [child|] eqn:Hchild; [|discriminate].
    destruct content as [| | | |l0]; try discriminate Hc. cbn [deref] in Hc.
    destruct (IH child key l d h Hreach Hl Hd) as (Hrun & Hgone & Hkeep).
    split; [|split; assumption].
    rewrite <- Hrun. destruct (prefix ++ [key]) as [|k2 rest] eqn:Hp.
    + destruct prefix; discriminate.
    + cbn [app]. rewrite Hp. eapply remove_step; eassumption.
Qed.

Lemma remove_content_pops_the_last_key_witness :
  _remove_content (VRef 0) (["params"] ++ ["slice_id"])
    [ODict [("slice_name", VStr "c"); ("params", VRef 1)];
     ODict [("slice_id", VInt 7); ("viz_type", VStr "pie")]]
  = Ok tt (<[1 := ODict (assoc_pop "slice_id"
                           [("slice_id", VInt 7); ("viz_type", VStr "pie")])]>
             [ODict [("slice_name", VStr "c"); ("params", VRef 1)];
              ODict [("slice_id", VInt 7); ("viz_type", VStr "pie")]])
  /\ contains "slice_id" (VRef 1)
       (<[1 := ODict (assoc_pop "slice_id"
                        [("slice_id", VInt 7); ("viz_type", VStr "pie")])]>
          [ODict [("slice_name", VStr "c"); ("params", VRef 1)];
           ODict [("slice_id", VInt 7); ("viz_type", VStr "pie")]])
     = Ok false
          (<[1 := ODict (assoc_pop "slice_id"
                           [("slice_id", VInt 7); ("viz_type", VStr "pie")])]>
             [ODict [("slice_name", VStr "c"); ("params", VRef 1)];
              ODict [("slice_id", VInt 7); ("viz_type", VStr "pie")]])
  /\ forall k2, k2 <> "slice_id" ->
       assoc k2 (assoc_pop "slice_id" [("slice_id", VInt 7); ("viz_type", VStr "pie")])
       = assoc k2 [("slice_id", VInt 7); ("viz_type", VStr "pie")].
Proof.
  apply (remove_content_pops_the_last_key ["params"] (VRef 0) "slice_id" 1
           [("slice_id", VInt 7); ("viz_type", VStr "pie")]); reflexivity.
Defined.

(** X13: a path that cannot be followed changes nothing and raises nothing:
    when the value reached after some first part of the path is [None], or
    is a dict that lacks the next key, the call returns and leaves the
    store as it was. *)
Theorem remove_content_skips_a_missing_path (prefix : list string) :
  forall (content v : value) (key : string) (rest : list string) (h : store),
    descend h content prefix = Some v ->
    stops_at h v key = true ->
    _remove_content content (prefix ++ key :: rest) h = Ok tt h.
Proof.
  induction prefix as [|k prefix IH]; intros content v key rest h Hreach Hstop.
  - injection Hreach as ->. cbn [app]. destruct v as [| | | |l]; try discriminate.
    + reflexivity.
    + cbn [stops_at] in Hstop.
      destruct (h !! l) as [[d|xs]|] eqn:Hl; try discriminate.
      apply negb_true_iff in Hstop.
      assert (Habs : assoc key d = None)
        by (unfold has_key in Hstop; destruct (assoc key d); [discriminate|reflexivity]).
      destruct rest as [|k2 rest].
      * cbn [_remove_content]. unfold py_pop. unfold loc in *. rewrite Hl.
        rewrite assoc_pop_absent by exact Habs.
        rewrite list_insert_id by exact Hl. reflexivity.
      * change (_remove_content (VRef l) (key :: k2 :: rest))
          with (bind (contains key (VRef l))
                     (fun found : bool =>
                        if found then bind (getitem (VRef l) key)
                                           (fun child => _remove_content child (k2 :: rest))
                        else ret tt)).
        erewrite bind_Ok by (apply contains_dict; exact Hl).
        rewrite Hstop. reflexivity.
  - cbn [descend] in Hreach.
    destruct (deref h content) as [[d0|xs]|] eqn:Hc; try discriminate.
    destruct (assoc k d0) as [child|] eqn:Hchild; [|discriminate].
    destruct content as [| | | |l0]; try discriminate Hc. cbn [deref] in Hc.
    rewrite <- (IH child v key rest h Hreach Hstop).
    destruct (prefix ++ key :: rest) as [|k2 rest'] eqn:Hp.
    + destruct prefix; discriminate.
    + cbn [app]. rewrite Hp. eapply remove_step; eassumption.
Qed.

Lemma remove_content_skips_a_missing_path_witness :
  _remove_content (VRef 0) (["extra"] ++ "certification" :: [])
    [ODict [("table_name", VStr "t"); ("extra", VNone)]]
  = Ok tt [ODict [("table_name", VStr "t"); ("extra", VNone)]].
Proof.
  apply (remove_content_skips_a_missing_path ["extra"] (VRef 0) VNone
           "certification" []); reflexivity.
Defined.

Section NoExisting.
Variables (orig_filename : string) (lc : loc) (existing : value).
Variables (d : list (string * value)) (h : store).
Hypothesis content_dict : h !! lc = Some (ODict d).
Hypothesis no_existing : truthy h existing = false.

Abbreviation step := (run_check orig_filename (VRef lc) existing).

Lemma step_warns (st st' : review) (c : check) (h' : store) :
  step st c h = Ok st' h' ->
  h' = h
  /\ snd st' = snd st ++ warning orig_filename d c
  /\ fst st' = fst st || nonempty (warning orig_filename d c).
Proof.
  intros Hrun. destruct st as [flag warned]. destruct c as [var|var]; simpl in Hrun.
  - unfold check_templated_var in Hrun. cbn [warning].
    destruct (assoc var d) as [current|] eqn:Hvar.
    + rewrite (bind_Ok _ _ _ _ _ (getitem_dict _ _ _ _ _ content_dict Hvar)) in Hrun.
      unfold is_truthy in Hrun. erewrite bind_Ok in Hrun by reflexivity.
      destruct current as [| b | n | s | l]; cbn [truthy] in Hrun.
      * injection Hrun as <- <-. cbn. rewrite app_nil_r, orb_false_r. auto.
      * destruct b; cbn [negb] in Hrun; [discriminate|].
        injection Hrun as <- <-. cbn. rewrite app_nil_r, orb_false_r. auto.
      * destruct (negb (n =? 0)%Z); cbn [negb] in Hrun; [discriminate|].
        injection Hrun as <- <-. cbn. rewrite app_nil_r, orb_false_r. auto.
      * destruct (negb (String.eqb s "")); cbn [negb andb] in *.
        -- destruct (starts_templated s); cbn [negb].
           ++ injection Hrun as <- <-. cbn. rewrite app_nil_r, orb_false_r. auto.
           ++ erewrite bind_Ok in Hrun by reflexivity. rewrite no_existing in Hrun.
              injection Hrun as <- <-. cbn. rewrite orb_true_r. auto.
        -- injection Hrun as <- <-. cbn. rewrite app_nil_r, orb_false_r. auto.
      * match type of Hrun with
        | context [if ?c then _ else _] => destruct c
        end; cbv [ret raise] in Hrun; [|discriminate].
        injection Hrun as <- <-. cbn. rewrite app_nil_r, orb_false_r. auto.
    + rewrite (bind_Raise _ _ _ _ _ (getitem_missing _ _ _ _ content_dict Hvar)) in Hrun.
      discriminate.
  - unfold check_required_var in Hrun. cbn [warning].
    rewrite (bind_Ok _ _ _ _ _ (contains_dict var _ _ _ content_dict)) in Hrun.
    destruct (has_key var d).
    + injection Hrun as <- <-. cbn. rewrite app_nil_r, orb_false_r. auto.
    + unfold is_truthy in Hrun. erewrite bind_Ok in Hrun by reflexivity.
      rewrite no_existing in Hrun. injection Hrun as <- <-. cbn.
      rewrite orb_true_r. auto.
Qed.

Lemma steps_warn (cs : list check) :
  forall (st st' : review) (h' : store),
    for_fold step st cs h = Ok st' h' ->
    h' = h
    /\ snd st' = snd st ++ flat_map (warning orig_filename d) cs
    /\ fst st' = fst st || nonempty (flat_map (warning orig_filename d) cs).
Proof.
  induction cs as [|c cs IH]; intros st st' h' Hrun; simpl in Hrun.
  - injection Hrun as <- <-. cbn. rewrite app_nil_r, orb_false_r. auto.
  - unfold bind in Hrun.
    destruct (step st c h) as [st1 h1|e h1|] eqn:Hc; try discriminate.
    destruct (step_warns _ _ _ _ Hc) as (-> & Hw1 & Hf1).
    destruct (IH _ _ _ Hrun) as (-> & Hw & Hf).
    split; [reflexivity|]. cbn [flat_map]. split.
    + rewrite Hw, Hw1, app_assoc. reflexivity.
    + rewrite Hf, Hf1.
      destruct (fst st); [reflexivity|].
      destruct (warning orig_filename d c); reflexivity.
Qed.
End NoExisting.

(** X14: without an existing file to fall back on, a completed validation pass
    changes nothing in the new tree, echoes one warning for each templated
    variable that holds a non-empty string without a leading template
    marker and for each required variable that is missing, in the order of
    the checks, and reports the file for review exactly when it echoed a
    warning. *)
Theorem first_import_warns_once_per_failing_check (cls : Asset)
    (orig_filename : string) (lc : loc) (existing : value)
    (d : list (string * value)) (h h' : store) (flag : bool)
    (warnings : list echo_line) :
  h !! lc = Some (ODict d) ->
  truthy h existing = false ->
  validate_vars cls orig_filename (VRef lc) existing (false, []) h
  = Ok (flag, warnings) h' ->
  h' = h
  /\ warnings = flat_map (warning orig_filename d) (checks_of cls)
  /\ flag = nonempty warnings.
Proof.
  intros Hc Hno Hrun. rewrite validate_vars_checks in Hrun.
  destruct (steps_warn orig_filename lc existing d h Hc Hno _ _ _ _ Hrun)
    as (-> & Hw & Hf).
  cbn [fst snd app orb] in Hw, Hf. subst. auto.
Qed.

Lemma first_import_warns_once_per_failing_check_witness :
  literal_dataset_store = literal_dataset_store
  /\ [WarnNotTemplated "events_1.yaml" "schema" "public";
      WarnNotTemplated "events_1.yaml" "table_name" "events"]
     = flat_map (warning "events_1.yaml"
                   [("table_name", VStr "events"); ("schema", VStr "public");
                    ("sql", VStr "{{ query }}")])
                (checks_of DatasetAsset)
  /\ true = nonempty [WarnNotTemplated "events_1.yaml" "schema" "public";
                      WarnNotTemplated "events_1.yaml" "table_name" "events"].
Proof.
  apply (first_import_warns_once_per_failing_check DatasetAsset "events_1.yaml" 0 VNone
           [("table_name", VStr "events"); ("schema", VStr "public");
            ("sql", VStr "{{ query }}")]
           literal_dataset_store literal_dataset_store); reflexivity.
Defined.

Section WithExisting.
Variables (orig_filename : string) (content existing : value).

(** With a truthy existing tree no step echoes a warning. *)
Lemma step_is_silent (st st' : review) (c : check) (h h' : store) :
  truthy h existing = true ->
  run_check orig_filename content existing st c h = Ok st' h' ->
  snd st' = snd st.
Proof.
  intros Ht Hrun. destruct c as [var|var]; simpl in Hrun.
  - unfold check_templated_var, bind in Hrun.
    destruct (getitem content var h) as [current h1|e h1|] eqn:Hget; try discriminate.
    pose proof (quiet_getitem content var h) as Hq. rewrite Hget in Hq. subst h1.
    unfold is_truthy, read in Hrun.
    destruct (negb (truthy h current)); [injection Hrun as <- <-; auto|].
    destruct current as [| | |s|]; try discriminate.
    destruct (starts_templated s); [injection Hrun as <- <-; auto|].
    rewrite Ht in Hrun.
    destruct (getitem existing var h) as [old h1|e h1|] eqn:Hold; try discriminate.
    destruct (setitem content var old h1) as [[] h2|e h2|] eqn:Hset; try discriminate.
    injection Hrun as <- <-. reflexivity.
  - unfold check_required_var, bind in Hrun.
    destruct (contains var content h) as [present h1|e h1|] eqn:Hin; try discriminate.
    pose proof (quiet_contains var content h) as Hq. rewrite Hin in Hq. subst h1.
    destruct present; [injection Hrun as <- <-; auto|].
    unfold is_truthy, read in Hrun. rewrite Ht in Hrun.
    destruct (getitem existing var h) as [old h1|e h1|] eqn:Hold; try discriminate.
    destruct (setitem content var old h1) as [[] h2|e h2|] eqn:Hset; try discriminate.
    injection Hrun as <- <-. reflexivity.
Qed.

Lemma steps_are_silent (cs : list check) :
  forall (st st' : review) (h h' : store),
    truthy h existing = true ->
    for_fold (run_check orig_filename content existing) st cs h = Ok st' h' ->
    snd st' = snd st.
Proof.
  induction cs as [|c cs IH]; intros st st' h h' Ht Hrun; simpl in Hrun.
  - injection Hrun as <- <-. reflexivity.
  - unfold bind in Hrun.
    destruct (run_check orig_filename content existing st c h) as [st1 h1|e h1|] eqn:Hc;
      try discriminate.
    destruct (step_with_existing _ _ _ _ _ _ _ _ Ht Hc) as [Ht1 _].
    rewrite (IH _ _ _ _ Ht1 Hrun). exact (step_is_silent _ _ _ _ _ Ht Hc).
Qed.
End WithExisting.

(** X15: with an existing file that is not empty, a validation pass that
    completes never reports the file for review and echoes no warning,
    whatever the new tree and the existing tree hold: a literal in the new
    tree is replaced by the old value, literal or not. *)
Theorem existing_file_silences_review (cls : Asset) (orig_filename : string)
    (content existing : value) (h h' : store) (final : review) :
  truthy h existing = true ->
  validate_vars cls orig_filename content existing (false, []) h = Ok final h' ->
  final = (false, []).
Proof.
  intros Ht Hrun. rewrite validate_vars_checks in Hrun.
  destruct (steps_with_existing _ _ _ _ _ _ _ _ Ht Hrun) as [_ Hflag].
  pose proof (steps_are_silent _ _ _ _ _ _ _ _ Ht Hrun) as Hsilent.
  destruct final as [[|] warned]; cbn [fst snd] in *.
  - specialize (Hflag eq_refl). discriminate.
  - subst. reflexivity.
Qed.

Lemma existing_file_silences_review_witness :
  validate_vars DatasetAsset "events_1.yaml" (VRef 0) (VRef 1) (false, [])
    (literal_dataset_store
     ++ [ODict [("table_name", VStr "events"); ("schema", VStr "public")]])
  = Ok (false, [])
       (literal_dataset_store
        ++ [ODict [("table_name", VStr "events"); ("schema", VStr "public")]])
  /\ (false, @nil echo_line) = (false, []).
Proof.
  split; [vm_compute; reflexivity|].
  apply (existing_file_silences_review DatasetAsset "events_1.yaml" (VRef 0) (VRef 1)
           (literal_dataset_store
            ++ [ODict [("table_name", VStr "events"); ("schema", VStr "public")]])
           (literal_dataset_store
            ++ [ODict [("table_name", VStr "events"); ("schema", VStr "public")]]));
    vm_compute; reflexivity.
Defined.

(** ** A templated variable the new tree lacks *)

Lemma check_templated_keeps_absence (orig_filename : string) (lc : loc)
    (existing : value) (st : review) (v var : string)
    (d : list (string * value)) (h : store) :
  h !! lc = Some (ODict d) -> has_key var d = false -> v <> var ->
  match check_templated_var orig_filename (VRef lc) existing st v h with
  | Ok _ h1 => exists d1, h1 !! lc = Some (ODict d1) /\ has_key var d1 = false
  | Raise _ _ => True
  | OutOfFuel => False
  end.
Proof.
  intros Hc Habs Hne. unfold check_templated_var, bind.
  pose proof (quiet_getitem (VRef lc) v h) as Hq.
  destruct (getitem (VRef lc) v h) as [current h1|e h1|]; [subst h1|exact I|exact Hq].
  unfold is_truthy, read.
  destruct (negb (truthy h current)); [cbv [ret]; eauto|].
  destruct current as [| | |s|]; try (cbv [raise]; exact I).
  destruct (starts_templated s); [cbv [ret]; eauto|].
  destruct (truthy h existing); [|cbv [ret]; eauto].
  pose proof (quiet_getitem existing v h) as Hq'.
  destruct (getitem existing v h) as [old h1|e h1|]; [subst h1|exact I|exact Hq'].
  rewrite (setitem_dict _ _ _ _ _ Hc).
  eexists. split.
  - apply list_lookup_insert_eq. eapply lookup_lt_Some. exact Hc.
  - rewrite has_key_assoc_set by congruence. exact Habs.
Qed.

Lemma templated_loop_raises (orig_filename : string) (lc : loc) (existing : value)
    (var : string) (vars : list string) :
  In var vars ->
  forall (st : review) (d : list (string * value)) (h : store),
    h !! lc = Some (ODict d) -> has_key var d = false ->
    exists e h',
      for_fold (check_templated_var orig_filename (VRef lc) existing) st vars h
      = Raise e h'.
Proof.
  induction vars as [|v vars IH]; intros Hin st d h Hc Habs; [destruct Hin|].
  cbn [for_fold]. unfold bind.
  destruct (String.eqb v var) eqn:Heq.
  - apply String.eqb_eq in Heq. subst v.
    assert (Hnone : assoc var d = None)
      by (unfold has_key in Habs; destruct (assoc var d); [discriminate|reflexivity]).
    unfold check_templated_var.
    rewrite (bind_Raise _ _ _ _ _ (getitem_missing _ _ _ _ Hc Hnone)). eauto.
  - apply String.eqb_neq in Heq.
    pose proof (check_templated_keeps_absence orig_filename lc existing st v var d h
                  Hc Habs Heq) as Hstep.
    destruct (check_templated_var orig_filename (VRef lc) existing st v h)
      as [st1 h1|e h1|]; [|eauto|destruct Hstep].
    destruct Hstep as (d1 & Hc1 & Habs1).
    apply (IH ltac:(destruct Hin; [congruence|assumption]) st1 d1 h1 Hc1 Habs1).
Qed.

(** X16: a variable that is expected to be templated must be there: when the
    new tree lacks one of the templated variables of its class, the
    validation pass raises, with or without an existing file, and returns
    no verdict. *)
Theorem missing_templated_variable_raises (cls : Asset) (orig_filename : string)
    (lc : loc) (existing : value) (var : string) (st : review)
    (d : list (string * value)) (h : store) :
  h !! lc = Some (ODict d) ->
  In var (get_templated_vars cls) ->
  has_key var d = false ->
  exists e h', validate_vars cls orig_filename (VRef lc) existing st h = Raise e h'.
Proof.
  intros Hc Hin Habs. unfold validate_vars.
  destruct (templated_loop_raises orig_filename lc existing var _ Hin st d h Hc Habs)
    as (e & h' & Hraise).
  exists e, h'. apply bind_Raise. exact Hraise.
Qed.

Lemma missing_templated_variable_raises_witness :
  exists e h',
    validate_vars DatasetAsset "events_1.yaml" (VRef 0) VNone (false, [])
      [ODict [("table_name", VStr "{{ T }}"); ("schema", VStr "{{ S }}")]]
    = Raise e h'.
Proof.
  apply (missing_templated_variable_raises DatasetAsset "events_1.yaml" 0 VNone "sql"
           (false, []) [("table_name", VStr "{{ T }}"); ("schema", VStr "{{ S }}")]);
    [reflexivity | simpl; auto | reflexivity].
Defined.

Lemma bind_Ok_inv {A B : Type} (m : M A) (k : A -> M B) (h h' : store) (b : B) :
  bind m k h = Ok b h' -> exists a h1, m h = Ok a h1 /\ k a h1 = Ok b h'.
Proof.
  unfold bind. destruct (m h) as [a h1|e h1|]; try discriminate. eauto.
Qed.

(** ** ChartAsset.process without an existing file *)

(** X17: on a first import (no existing file) [ChartAsset.process] decodes the
    query context in place: a chart without the key raises [KeyError]; a
    string is replaced by the tree [json.loads] gives for it, which reads
    back from the new tree as that tree, or the decoder's exception stops
    the call; any other value is left as it is. *)
Theorem chart_first_import_decodes_query_context (ext : externals) (fuel : nat)
    (lc : loc) (d : list (string * value)) (h : store) :
  h !! lc = Some (ODict d) ->
  match assoc "query_context" d with
  | None => ChartAsset_process ext fuel (VRef lc) VNone h = Raise KeyError h
  | Some (VStr s) =>
      match json_loads ext s with
      | Some t =>
          exists decoded h',
            ChartAsset_process ext fuel (VRef lc) VNone h = Ok tt h'
            /\ getitem (VRef lc) "query_context" h' = Ok decoded h'
            /\ dump (height t) h' decoded = Some t
            /\ forall l, l < length h -> l <> lc -> h' !! l = h !! l
      | None => ChartAsset_process ext fuel (VRef lc) VNone h = Raise JSONDecodeError h
      end
  | Some _ => ChartAsset_process ext fuel (VRef lc) VNone h = Ok tt h
  end.
Proof.
  intros Hc. unfold ChartAsset_process.
  assert (Hget : py_get (VRef lc) "query_context" VNone h
                 = Ok (default VNone (assoc "query_context" d)) h).
  { unfold py_get. cbn [deref]. unfold loc in *. rewrite Hc.
    destruct (assoc "query_context" d); reflexivity. }
  rewrite (bind_Ok _ _ _ _ _ Hget).
  unfold is_truthy. erewrite bind_Ok by reflexivity. erewrite bind_Ok by reflexivity.
  cbn [truthy]. rewrite andb_false_r. erewrite bind_Ok by reflexivity.
  destruct (assoc "query_context" d) as [qc|] eqn:Hqc.
  - erewrite bind_Ok by (eapply getitem_dict; eassumption).
    destruct qc as [| b | n | s | l];
      try (erewrite bind_Ok by reflexivity; erewrite bind_Ok by reflexivity;
           reflexivity).
    destruct (json_loads ext s) as [t|].
    + destruct (alloc t h) as [decoded h1] eqn:Halloc.
      assert (Hnew : new t h = Ok decoded h1)
        by (unfold new; rewrite Halloc; reflexivity).
      destruct (alloc_length _ _ _ _ Halloc) as [Hlen Hkeep].
      assert (Hlc : lc < length h) by (eapply lookup_lt_Some; exact Hc).
      assert (Hc1 : h1 !! lc = Some (ODict d)) by (rewrite Hkeep by exact Hlc; exact Hc).
      exists decoded, (<[lc := ODict (assoc_set "query_context" decoded d)]> h1).
      split; [|split; [|split]].
      * erewrite bind_Ok.
        2:{ erewrite bind_Ok by exact Hnew. apply setitem_dict. exact Hc1. }
        erewrite bind_Ok by reflexivity. reflexivity.
      * eapply getitem_dict; [|apply assoc_set_eq].
        apply list_lookup_insert_eq. lia.
      * eapply alloc_dump; [exact Halloc | apply le_n |].
        intros l Hl1 Hl2. apply list_lookup_insert_ne. lia.
      * intros l Hl Hne. rewrite list_lookup_insert_ne by congruence.
        apply Hkeep. exact Hl.
    + erewrite bind_Raise by reflexivity. reflexivity.
  - erewrite bind_Raise by (eapply getitem_missing; eassumption). reflexivity.
Qed.

Lemma chart_first_import_decodes_query_context_witness :
  exists decoded h',
    ChartAsset_process
      {| json_loads := fun _ => Some (YMap [("queries", YList [])]);
         format_string := fun sql => Some sql;
         str_of_list := fun _ => "" |}
      3 (VRef 0) VNone
      [ODict [("slice_name", VStr "c"); ("query_context", VStr "{}")]]
    = Ok tt h'
    /\ getitem (VRef 0) "query_context" h' = Ok decoded h'
    /\ dump (height (YMap [("queries", YList [])])) h' decoded
       = Some (YMap [("queries", YList [])])
    /\ forall l,
         l < length [ODict [("slice_name", VStr "c"); ("query_context", VStr "{}")]] ->
         l <> 0 ->
         h' !! l
         = [ODict [("slice_name", VStr "c"); ("query_context", VStr "{}")]] !! l.
Proof.
  apply (chart_first_import_decodes_query_context
           {| json_loads := fun _ => Some (YMap [("queries", YList [])]);
              format_string := fun sql => Some sql;
              str_of_list := fun _ => "" |}
           3 0 [("slice_name", VStr "c"); ("query_context", VStr "{}")]
           [ODict [("slice_name", VStr "c"); ("query_context", VStr "{}")]]).
  reflexivity.
Defined.

(** ** The destination directory *)

Lemma validate_by_type_destination (ext : externals) (fs : files) (fuel : nat)
    (orig_filename out_filename_uuid all_assets_path : string) (lc : loc)
    (d : list (string * value)) (h : store) (table : list (string * Asset)) :
  h !! lc = Some (ODict d) ->
  forall op st h',
    validate_by_type table ext fs fuel orig_filename out_filename_uuid (VRef lc)
                     all_assets_path h
    = Ok (op, st) h' ->
    match List.find (fun kc => has_key (fst kc) d) table with
    | Some kc => op = Some (path_join all_assets_path (path (snd kc)))
    | None => op = None /\ st = (false, [])
    end.
Proof.
  intros Hc. induction table as [|[key cls] table IH]; intros op st h' Hrun.
  - injection Hrun as <- <- _. cbn [List.find]. auto.
  - cbn [validate_by_type] in Hrun. cbn [List.find fst snd].
    rewrite (bind_Ok _ _ _ _ _ (contains_dict key _ _ _ Hc)) in Hrun.
    destruct (has_key key d); [|apply (IH _ _ _ Hrun)].
    apply bind_Ok_inv in Hrun. destruct Hrun as (out_path & h1 & Hpath & Hrun).
    assert (Hout : out_path = path_join all_assets_path (path cls)).
    { unfold get_path in Hpath.
      destruct (String.eqb (path_join all_assets_path (path cls)) "");
        [discriminate|]. injection Hpath as <- _. reflexivity. }
    apply bind_Ok_inv in Hrun. destruct Hrun as (existing & h2 & _ & Hrun).
    apply bind_Ok_inv in Hrun. destruct Hrun as (st1 & h3 & _ & Hrun).
    apply bind_Ok_inv in Hrun. destruct Hrun as ([] & h4 & _ & Hrun).
    apply bind_Ok_inv in Hrun. destruct Hrun as ([] & h5 & _ & Hrun).
    apply bind_Ok_inv in Hrun. destruct Hrun as ([] & h6 & _ & Hrun).
    injection Hrun as <- _ _. cbn [snd]. congruence.
Qed.

Lemma quiet_py_get (v : value) (k : string) (dflt : value) : quiet (py_get v k dflt).
Proof.
  intros h. unfold py_get.
  destruct (deref h v) as [[d|xs]|]; try reflexivity.
  destruct (assoc k d); reflexivity.
Qed.

Lemma uuid_prefix_store (ext : externals) (fuel : nat) (uuid : value) (h h' : store)
    (prefix : string) :
  uuid_prefix ext fuel uuid h = Ok prefix h' -> h' = h.
Proof.
  unfold uuid_prefix. destruct uuid as [| | |s|l]; try discriminate.
  - intros [= _ <-]. reflexivity.
  - destruct (h !! l) as [[d|xs]|]; try discriminate.
    destruct (mapM (dump fuel h) (take 6 xs)); [|discriminate].
    intros [= _ <-]. reflexivity.
Qed.

(** X18: the destination of an asset is decided by the first key of
    [ASSET_TYPE_MAP] the new tree has, whatever other keys it has: when
    [_validate_asset_file] returns, the directory it returns is the one of
    that class under the assets path; for a tree without any of the keys
    it returns no directory and no review. *)
Theorem first_key_of_the_table_decides_the_directory (ext : externals) (fs : files)
    (fuel : nat) (asset_path all_assets_path : string) (lc : loc)
    (d : list (string * value)) (h h' : store) (out_path : option string)
    (st : review) :
  h !! lc = Some (ODict d) ->
  _validate_asset_file ext fs fuel asset_path (VRef lc) all_assets_path h
  = Ok (out_path, st) h' ->
  match classify d with
  | Some cls => out_path = Some (path_join all_assets_path (path cls))
  | None => out_path = None /\ st = (false, [])
  end.
Proof.
  intros Hc Hrun. unfold _validate_asset_file in Hrun.
  apply bind_Ok_inv in Hrun. destruct Hrun as (title & h1 & Htitle & Hrun).
  pose proof (quiet_py_get (VRef lc) "dashboard_title" VNone h) as Hq.
  rewrite Htitle in Hq. subst h1.
  apply bind_Ok_inv in Hrun. destruct Hrun as (is_dashboard & h1 & Hdash & Hrun).
  injection Hdash as _ <-.
  apply bind_Ok_inv in Hrun. destruct Hrun as (name & h1 & Hname & Hrun).
  assert (Hh1 : h1 = h).
  { destruct (negb is_dashboard); [|injection Hname as _ <-; reflexivity].
    apply bind_Ok_inv in Hname. destruct Hname as (uuid & h2 & Huuid & Hname).
    pose proof (quiet_getitem (VRef lc) "uuid" h) as Hq. rewrite Huuid in Hq. subst h2.
    apply bind_Ok_inv in Hname. destruct Hname as (prefix & h2 & Hprefix & Hname).
    apply uuid_prefix_store in Hprefix. subst h2.
    injection Hname as _ <-. reflexivity. }
  subst h1.
  rewrite (bind_Ok _ _ _ _ _ (setitem_dict FILE_NAME_ATTRIBUTE _ _ (VStr name) _ Hc))
    in Hrun.
  eapply validate_by_type_destination in Hrun.
  2:{ apply list_lookup_insert_eq. eapply lookup_lt_Some. exact Hc. }
  unfold classify. unfold ASSET_TYPE_MAP in *. cbn [List.find fst] in *.
  rewrite !has_key_assoc_set in Hrun by discriminate.
  destruct (has_key "slice_name" d); [exact Hrun|].
  destruct (has_key "dashboard_title" d); [exact Hrun|].
  destruct (has_key "table_name" d); [exact Hrun|].
  destruct (has_key "database_name" d); exact Hrun.
Qed.

Lemma first_key_of_the_table_decides_the_directory_witness :
  exists st h',
    _validate_asset_file plain_libraries [] 4 "x/both_1.yaml" (VRef 0) "/assets"
      [ODict [("dashboard_title", VStr "D"); ("slice_name", VStr "c");
              ("query_context", VNone); ("_roles", VNone)]]
    = Ok (Some "/assets/charts", st) h'
    /\ Some "/assets/charts" = Some (path_join "/assets" (path ChartAsset)).
Proof.
  eexists. eexists. split; [vm_compute; reflexivity|].
  eapply (first_key_of_the_table_decides_the_directory plain_libraries [] 4
            "x/both_1.yaml" "/assets" 0
            [("dashboard_title", VStr "D"); ("slice_name", VStr "c");
             ("query_context", VNone); ("_roles", VNone)]
            [ODict [("dashboard_title", VStr "D"); ("slice_name", VStr "c");
                    ("query_context", VNone); ("_roles", VNone)]]);
    [reflexivity | vm_compute; reflexivity].
Defined.

(** ** The file name *)

Lemma string_app_cons (c : ascii) (s t : string) :
  (String c s ++ t)%string = String c (s ++ t).
Proof. reflexivity. Qed.

Lemma string_app_nil_r (s : string) : (s ++ "")%string = s.
Proof.
  induction s as [|c s IH]; [reflexivity|]. rewrite string_app_cons, IH. reflexivity.
Qed.

Lemma re_sub_from_empty (fuel : nat) (repl : string) : re_sub_from fuel repl "" = "".
Proof. destruct fuel; reflexivity. Qed.

Lemma re_sub_from_unmatched (repl tail : string) (stem : string) :
  forall fuel,
    unmatched stem tail = true -> String.length stem <= fuel ->
    re_sub_from fuel repl (stem ++ tail)%string
    = (stem ++ re_sub_from (fuel - String.length stem) repl tail)%string.
Proof.
  induction stem as [|c stem IH]; intros fuel Hun Hlen.
  - change ("" ++ tail)%string with tail. cbn [String.length].
    rewrite Nat.sub_0_r. reflexivity.
  - cbn [unmatched] in Hun. cbn [String.length] in Hlen.
    destruct fuel as [|fuel]; [lia|].
    destruct (match_numbered_yaml (String c stem ++ tail)) eqn:Hm; [discriminate|].
    cbn [re_sub_from]. rewrite Hm. rewrite !string_app_cons.
    cbn [String.length Nat.sub].
    rewrite IH by (assumption || lia). reflexivity.
Qed.

Lemma skip_digits_app (digits rest : string) :
  all_digits digits = true ->
  skip_digits (digits ++ rest)%string = skip_digits rest.
Proof.
  induction digits as [|c digits IH]; [reflexivity|].
  rewrite string_app_cons. cbn [all_digits skip_digits]. intros H.
  apply andb_prop in H. destruct H as [-> H]. apply IH. exact H.
Qed.

Lemma string_length_app (s t : string) :
  String.length (s ++ t)%string = String.length s + String.length t.
Proof.
  induction s as [|c s IH]; [reflexivity|].
  rewrite string_app_cons. cbn [String.length]. rewrite IH. reflexivity.
Qed.

(** X19: the name an asset is written under.  In a name that ends with an
    underscore, digits and [.yaml], and in whose stem the pattern matches
    nowhere, that ending is replaced: a dashboard keeps [stem.yaml], the
    other assets get [stem_] followed by the first characters of their
    uuid.  A name in which the pattern matches nowhere, such as a name
    without underscore, is kept as it is, for every asset. *)
Theorem numbered_ending_is_replaced (repl stem digits name : string) :
  (all_digits digits = true ->
   unmatched stem ("_" ++ digits ++ ".yaml") = true ->
   re_sub repl (stem ++ "_" ++ digits ++ ".yaml") = (stem ++ repl)%string)
  /\ (unmatched name "" = true -> re_sub repl name = name).
Proof.
  split.
  - intros Hd Hun. unfold re_sub.
    rewrite re_sub_from_unmatched
      by (try exact Hun; rewrite string_length_app; lia).
    f_equal.
    rewrite string_length_app.
    replace (S (String.length stem + String.length ("_" ++ digits ++ ".yaml"))
             - String.length stem)
      with (S (String.length ("_" ++ digits ++ ".yaml"))) by lia.
    change ("_" ++ digits ++ ".yaml")%string
      with (String "_"%char (digits ++ ".yaml")).
    cbn [re_sub_from match_numbered_yaml].
    rewrite Ascii.eqb_refl. rewrite skip_digits_app by exact Hd.
    change (strip_prefix ".yaml" (skip_digits ".yaml")) with (Some "").
    cbv beta iota. rewrite re_sub_from_empty. apply string_app_nil_r.
  - intros Hun. unfold re_sub.
    assert (Hlen : String.length name <= S (String.length name)) by lia.
    pose proof (re_sub_from_unmatched repl "" name _ Hun Hlen) as Hsub.
    rewrite string_app_nil_r in Hsub. rewrite Hsub, re_sub_from_empty.
    apply string_app_nil_r.
Qed.

Lemma numbered_ending_is_replaced_witness :
  re_sub "_0a1b2c.yaml" ("Course_Enrollments" ++ "_" ++ "12" ++ ".yaml")
  = ("Course_Enrollments" ++ "_0a1b2c.yaml")%string
  /\ re_sub "_0a1b2c.yaml" "enrollments.yaml" = "enrollments.yaml".
Proof.
  destruct (numbered_ending_is_replaced "_0a1b2c.yaml" "Course_Enrollments" "12"
              "enrollments.yaml") as [Hnumbered Hplain].
  split; [apply Hnumbered | apply Hplain]; reflexivity.
Defined.

(** ** The books of an import *)

Lemma has_key_set {V : Type} (k k2 : string) (v : V) (d : list (string * V)) :
  has_key k2 d = true -> has_key k2 (assoc_set k v d) = true.
Proof.
  intros H. destruct (String.eqb k2 k) eqn:Heq.
  - apply String.eqb_eq in Heq. subst k2. unfold has_key. rewrite assoc_set_eq.
    reflexivity.
  - apply String.eqb_neq in Heq. rewrite has_key_assoc_set by exact Heq. exact H.
Qed.

Lemma has_key_set_eq {V : Type} (k : string) (v : V) (d : list (string * V)) :
  has_key k (assoc_set k v d) = true.
Proof. unfold has_key. rewrite assoc_set_eq. reflexivity. Qed.

Lemma set_add_NoDup (name : string) (names : list string) :
  NoDup names -> NoDup (set_add name names).
Proof.
  intros Hn. unfold set_add. destruct (existsb (String.eqb name) names) eqn:Hex;
    [exact Hn|].
  apply NoDup_app. split; [exact Hn|]. split; [|apply NoDup_singleton].
  intros x Hx Hx'. apply list_elem_of_singleton in Hx'. subst x.
  assert (existsb (String.eqb name) names = true); [|congruence].
  apply existsb_exists. exists name. split; [|apply String.eqb_refl].
  apply list_elem_of_In. exact Hx.
Qed.

Lemma set_add_In (name x : string) (names : list string) :
  In x (set_add name names) -> x = name \/ In x names.
Proof.
  unfold set_add. destruct (existsb (String.eqb name) names); [auto|].
  intros H. apply in_app_iff in H. destruct H as [H|[H|[]]]; auto.
Qed.

Lemma import_entry_books (ext : externals) (fuel : nat) (assets_path : string)
    (fs : files) (st : import_state) (entry : string * yaml) :
  books fs st ->
  match import_entry ext fuel assets_path st entry with
  | inl st' => books fs st'
  | inr (Failed _ st') => books fs st'
  | inr (Returned _ _) => False
  | inr ImportOutOfFuel => True
  end.
Proof.
  intros Hb. unfold import_entry. destruct entry as [asset_path tree].
  destruct (str_contains "metadata.yaml" asset_path); [exact Hb|].
  destruct (alloc tree []) as [content h0].
  destruct (_validate_asset_file ext (disk st) fuel asset_path content assets_path h0)
    as [[out_path [needs_review warnings]] h|e h|]; [|exact Hb|exact I].
  assert (Hecho : books fs {| disk := disk st; written_assets := written_assets st;
                              review_files := review_files st;
                              dataset_warn := dataset_warn st;
                              echoed := echoed st ++ warnings |}) by exact Hb.
  destruct out_path as [out_path|]; [|exact Hecho].
  destruct (String.eqb out_path ""); [exact Hecho|].
  destruct (getitem content FILE_NAME_ATTRIBUTE h) as [[| | |file_name|] h1|e h1|];
    try exact Hecho; try exact I.
  destruct (dump fuel h content) as [written|]; [|exact I].
  destruct Hb as (Hkept & Hwritten & Hreview & Hnodup).
  unfold books. cbn [disk written_assets review_files].
  split; [|split; [|split]].
  - intros p Hp. apply has_key_set. apply Hkept. exact Hp.
  - intros p Hp. apply in_app_iff in Hp. destruct Hp as [Hp|[<-|[]]].
    + apply has_key_set. apply Hwritten. exact Hp.
    + apply has_key_set_eq.
  - intros name Hname.
    assert (Hcases : name = file_name \/ In name (review_files st)).
    { destruct needs_review; [apply set_add_In; exact Hname | right; exact Hname]. }
    destruct Hcases as [->|Hold].
    + exists out_path. apply in_app_iff. right. left. reflexivity.
    + destruct (Hreview name Hold) as [dir Hdir]. exists dir.
      apply in_app_iff. left. exact Hdir.
  - destruct needs_review; [apply set_add_NoDup|]; exact Hnodup.
Qed.

Lemma import_entries_books (ext : externals) (fuel : nat) (assets_path : string)
    (fs : files) (archive : list (string * yaml)) :
  forall st, books fs st ->
    match import_entries ext fuel assets_path st archive with
    | inl st' => books fs st'
    | inr (Failed _ st') => books fs st'
    | inr (Returned _ _) => False
    | inr ImportOutOfFuel => True
    end.
Proof.
  induction archive as [|entry archive IH]; intros st Hb; cbn [import_entries].
  - exact Hb.
  - pose proof (import_entry_books ext fuel assets_path fs st entry Hb) as Hstep.
    destruct (import_entry ext fuel assets_path st entry) as [st'|[err st'|e st'|]].
    + apply IH. exact Hstep.
    + destruct Hstep.
    + exact Hstep.
    + exact I.
Qed.

(** X20: however an import ends, by returning, by asking for review or by an
    exception of one entry, its books are in order: every file that was on
    disk before is still there, every asset listed as written is on disk,
    every file listed for review was written, and none is listed twice.
    When it returns, it returns 0 and no file is listed for review. *)
Theorem import_keeps_its_books (ext : externals) (fuel : nat)
    (archive : list (string * yaml)) (fs : files) (assets_path : string) :
  match import_superset_assets ext fuel archive fs assets_path with
  | Returned err st => err = 0%Z /\ review_files st = [] /\ books fs st
  | Failed _ st => books fs st
  | ImportOutOfFuel => True
  end.
Proof.
  unfold import_superset_assets.
  set (st0 := {| disk := fs; written_assets := []; review_files := [];
                 dataset_warn := false; echoed := [] |}).
  assert (Hb0 : books fs st0).
  { unfold books, st0. cbn. repeat split; auto; try (intros ? []).
    apply NoDup_nil. exact I. }
  pose proof (import_entries_books ext fuel assets_path fs archive st0 Hb0) as Hloop.
  destruct (import_entries ext fuel assets_path st0 archive) as [st|[err st|e st|]];
    [|destruct Hloop|exact Hloop|exact I].
  assert (Hecho : forall lines, books fs (echo lines st)) by (intros lines; exact Hloop).
  destruct (review_files st) eqn:Hreview.
  - split; [reflexivity|]. split; [exact Hreview|]. apply Hecho.
  - apply Hecho.
Qed.

Lemma only_names_and_sql_refl (h : store) : only_names_and_sql h h.
Proof.
  intros l [d|items] Hl; [|exact Hl]. exists d. auto.
Qed.

Lemma only_names_and_sql_trans (h1 h2 h3 : store) :
  only_names_and_sql h1 h2 -> only_names_and_sql h2 h3 -> only_names_and_sql h1 h3.
Proof.
  intros H12 H23 l o Hl. specialize (H12 l o Hl). destruct o as [d|items].
  - destruct H12 as (d2 & Hl2 & Hkeys2 & Hsame2).
    destruct (H23 l _ Hl2) as (d3 & Hl3 & Hkeys3 & Hsame3).
    exists d3. split; [exact Hl3|]. split.
    + intros k Hk. apply Hkeys3, Hkeys2, Hk.
    + intros k H1 H2. rewrite Hsame3, Hsame2 by assumption. reflexivity.
  - apply (H23 l _ H12).
Qed.

Lemma careful_bind {A B : Type} (m : M A) (k : A -> M B) :
  triple (fun _ => True) m (fun _ => True) only_names_and_sql (fun _ => False) ->
  (forall a, triple (fun _ => True) (k a) (fun _ => True) only_names_and_sql
                    (fun _ => False)) ->
  triple (fun _ => True) (bind m k) (fun _ => True) only_names_and_sql (fun _ => False).
Proof.
  intros Hm Hk. eapply triple_bind; [apply only_names_and_sql_trans | exact Hm |].
  intros a _. apply Hk.
Qed.

Lemma careful_quiet {A : Type} (m : M A) :
  quiet m ->
  triple (fun _ => True) m (fun _ => True) only_names_and_sql (fun _ => False).
Proof.
  intros Hq. apply triple_quiet; [apply only_names_and_sql_refl | exact Hq | auto].
Qed.

Lemma careful_setitem (c : value) (key : string) (v : value) :
  key = "verbose_name" \/ key = "sql" ->
  triple (fun _ => True) (setitem c key v) (fun _ => True) only_names_and_sql
         (fun _ => False).
Proof.
  intros Hkey h _. unfold setitem.
  destruct c as [| | | |lc];
    try solve [repeat split; auto using only_names_and_sql_refl].
  destruct (h !! lc) as [[d|items]|] eqn:Hlc;
    try solve [repeat split; auto using only_names_and_sql_refl].
  rewrite length_insert. split; [exact I|]. split; [exact I|]. split; [|reflexivity].
  intros l o Hl. destruct (decide (l = lc)) as [->|Hne].
  - unfold loc in *. rewrite Hlc in Hl. injection Hl as <-.
    exists (assoc_set key v d). split.
    + apply list_lookup_insert_eq. eapply lookup_lt_Some. exact Hlc.
    + split; [intros k Hk; apply has_key_set; exact Hk|].
      intros k H1 H2. apply assoc_set_ne. destruct Hkey; congruence.
  - assert (Hsame : (<[lc := ODict (assoc_set key v d)]> h) !! l = Some o)
      by (rewrite list_lookup_insert_ne by congruence; exact Hl).
    destruct o as [d0|items]; [|exact Hsame]. exists d0. auto.
Qed.

Lemma quiet_get_iter (c : value) (k : string) : quiet (get_iter c k).
Proof.
  intros h. unfold get_iter.
  destruct (deref h c) as [[d|xs]|]; try reflexivity.
  destruct (assoc k d) as [v|]; [|reflexivity].
  unfold py_iter. destruct v as [| | | |l]; try reflexivity.
  destruct (h !! l) as [[d'|xs]|]; reflexivity.
Qed.

Lemma careful_fill_verbose_name (name_key : string) (item : value) :
  triple (fun _ => True) (fill_verbose_name name_key item) (fun _ => True)
         only_names_and_sql (fun _ => False).
Proof.
  unfold fill_verbose_name.
  apply careful_bind; [apply careful_quiet, quiet_py_get|]. intros verbose.
  apply careful_bind; [apply careful_quiet, quiet_read|]. intros has_verbose.
  destruct has_verbose; [apply triple_ret; [apply only_names_and_sql_refl | exact I]|].
  apply careful_bind; [apply careful_quiet, quiet_getitem|]. intros name.
  destruct name; try (apply triple_raise; apply only_names_and_sql_refl).
  apply careful_setitem. left. reflexivity.
Qed.

Lemma careful_fill_loop (name_key : string) (items : list value) :
  triple (fun _ => True) (for_each (fill_verbose_name name_key) items) (fun _ => True)
         only_names_and_sql (fun _ => False).
Proof.
  apply triple_for_each;
    [apply only_names_and_sql_refl | apply only_names_and_sql_trans |].
  intros item _. apply careful_fill_verbose_name.
Qed.

Lemma careful_format (ext : externals) (content : value) :
  triple (fun _ => True)
         (bind (getitem content "sql")
               (fun sql => match sql with
                           | VStr s =>
                               match format_string ext s with
                               | Some formatted => setitem content "sql" (VStr formatted)
                               | None => raise SqlfmtError
                               end
                           | _ => raise TypeError
                           end))
         (fun _ => True) only_names_and_sql (fun _ => False).
Proof.
  apply careful_bind; [apply careful_quiet, quiet_getitem|]. intros sql.
  destruct sql as [| | |s|]; try (apply triple_raise; apply only_names_and_sql_refl).
  destruct (format_string ext s); [|apply triple_raise; apply only_names_and_sql_refl].
  apply careful_setitem. right. reflexivity.
Qed.

Lemma careful_process (ext : externals) (fuel : nat) (content existing : value) :
  triple (fun _ => True) (DatasetAsset_process ext fuel content existing)
         (fun _ => True) only_names_and_sql (fun _ => False).
Proof.
  unfold DatasetAsset_process.
  apply careful_bind; [apply careful_quiet, quiet_get_iter|]. intros columns.
  apply careful_bind; [apply careful_fill_loop|]. intros _.
  apply careful_bind; [apply careful_quiet, quiet_get_iter|]. intros metrics.
  apply careful_bind; [apply careful_fill_loop|]. intros _.
  apply careful_format.
Qed.

(** X21: [DatasetAsset.process] writes to [verbose_name] and [sql] and to
    nothing else: whether it returns or raises, in any store, every list
    is as it was, and every dict has the keys it had and, but for those
    two, the values it had.  The model needs no fuel for it. *)
Theorem dataset_process_touches_names_and_sql_only (ext : externals) (fuel : nat)
    (content existing : value) (h : store) :
  exists h',
    store_after (DatasetAsset_process ext fuel content existing h) = Some h'
    /\ length h' = length h
    /\ only_names_and_sql h h'.
Proof.
  pose proof (careful_process ext fuel content existing h I) as Hrun.
  destruct (DatasetAsset_process ext fuel content existing h) as [[] h'|e h'|].
  - exists h'. cbn. tauto.
  - exists h'. cbn. tauto.
  - destruct Hrun.
Qed.

(** ** Every column and metric ends up with a verbose name *)

Lemma named_stable (h h' : store) (item : value) :
  only_names_and_sql h h' -> named h item -> named h' item.
Proof.
  intros HR (l & d & -> & Hl & Hkey).
  destruct (HR l _ Hl) as (d' & Hl' & Hkeys & _).
  exists l, d'. auto.
Qed.

Lemma fill_names (name_key : string) (item : value) (h h' : store) :
  fill_verbose_name name_key item h = Ok tt h' -> named h' item.
Proof.
  unfold fill_verbose_name. intros Hrun.
  apply bind_Ok_inv in Hrun. destruct Hrun as (verbose & h1 & Hget & Hrun).
  pose proof (quiet_py_get item "verbose_name" VNone h) as Hq.
  rewrite Hget in Hq. subst h1.
  unfold py_get in Hget.
  destruct item as [| | | |l]; try discriminate Hget. cbn [deref] in Hget.
  destruct (h !! l) as [[d|xs]|] eqn:Hl; try discriminate Hget.
  apply bind_Ok_inv in Hrun. destruct Hrun as (has_verbose & h1 & Hread & Hrun).
  injection Hread as <- <-.
  destruct (truthy h verbose) eqn:Htruthy.
  - injection Hrun as <-. exists l, d. split; [reflexivity|]. split; [exact Hl|].
    unfold has_key. destruct (assoc "verbose_name" d); [reflexivity|].
    injection Hget as <-. discriminate.
  - apply bind_Ok_inv in Hrun. destruct Hrun as (name & h1 & Hname & Hrun).
    pose proof (quiet_getitem (VRef l) name_key h) as Hq.
    rewrite Hname in Hq. subst h1.
    destruct name as [| | |s|]; try discriminate Hrun.
    rewrite (setitem_dict _ _ _ _ _ Hl) in Hrun. injection Hrun as <-.
    exists l. eexists. split; [reflexivity|]. split.
    + apply list_lookup_insert_eq. eapply lookup_lt_Some. exact Hl.
    + apply has_key_set_eq.
Qed.

Lemma fill_loop_names (name_key : string) (items : list value) :
  forall h h',
    for_each (fill_verbose_name name_key) items h = Ok tt h' ->
    only_names_and_sql h h' /\ forall item, In item items -> named h' item.
Proof.
  induction items as [|item items IH]; intros h h' Hrun; cbn [for_each] in Hrun.
  - injection Hrun as <-. split; [apply only_names_and_sql_refl | intros ? []].
  - apply bind_Ok_inv in Hrun. destruct Hrun as ([] & h1 & Hfill & Hrun).
    pose proof (careful_fill_verbose_name name_key item h I) as Hstep.
    rewrite Hfill in Hstep. destruct Hstep as (_ & _ & HR1 & _).
    destruct (IH _ _ Hrun) as [HR Hnamed]. split.
    + eapply only_names_and_sql_trans; eassumption.
    + intros x [<-|Hx]; [|apply Hnamed; exact Hx].
      eapply named_stable; [exact HR|]. eapply fill_names. exact Hfill.
Qed.

Lemma get_iter_list (h : store) (lc ll : loc) (d : list (string * value))
    (key : string) (items : list value) :
  h !! lc = Some (ODict d) -> assoc key d = Some (VRef ll) ->
  h !! ll = Some (OList items) ->
  get_iter (VRef lc) key h = Ok items h.
Proof.
  intros Hc Hkey Hl. unfold get_iter, py_iter. cbn [deref]. unfold loc in *.
  rewrite Hc, Hkey, Hl. reflexivity.
Qed.

(** X22: when [DatasetAsset.process] returns, every column and every metric of
    the dataset is a dict with a [verbose_name] key: the one it had, or the
    one filled in from its [column_name] or [metric_name]. *)
Theorem dataset_process_names_every_column_and_metric (ext : externals) (fuel : nat)
    (lc : loc) (existing : value) (d : list (string * value)) (h h' : store)
    (key : string) (ll : loc) (items : list value) :
  h !! lc = Some (ODict d) ->
  key = "columns" \/ key = "metrics" ->
  assoc key d = Some (VRef ll) ->
  h !! ll = Some (OList items) ->
  DatasetAsset_process ext fuel (VRef lc) existing h = Ok tt h' ->
  forall item, In item items -> named h' item.
Proof.
  intros Hc Hkey Hassoc Hlist Hrun. unfold DatasetAsset_process in Hrun.
  apply bind_Ok_inv in Hrun. destruct Hrun as (columns & h1 & Hcols & Hrun).
  pose proof (quiet_get_iter (VRef lc) "columns" h) as Hq.
  rewrite Hcols in Hq. subst h1.
  apply bind_Ok_inv in Hrun. destruct Hrun as ([] & h1 & Hloop1 & Hrun).
  destruct (fill_loop_names _ _ _ _ Hloop1) as [HR1 Hnamed1].
  apply bind_Ok_inv in Hrun. destruct Hrun as (metrics & h2 & Hmets & Hrun).
  pose proof (quiet_get_iter (VRef lc) "metrics" h1) as Hq.
  rewrite Hmets in Hq. subst h2.
  apply bind_Ok_inv in Hrun. destruct Hrun as ([] & h2 & Hloop2 & Hrun).
  destruct (fill_loop_names _ _ _ _ Hloop2) as [HR2 Hnamed2].
  pose proof (careful_format ext (VRef lc) h2 I) as Hfmt.
  rewrite Hrun in Hfmt. destruct Hfmt as (_ & _ & HR3 & _).
  intros item Hitem. destruct Hkey as [-> | ->].
  - rewrite (get_iter_list _ _ _ _ _ _ Hc Hassoc Hlist) in Hcols.
    injection Hcols as <-.
    eapply named_stable; [exact HR3|]. eapply named_stable; [exact HR2|].
    apply Hnamed1. exact Hitem.
  - destruct (HR1 lc _ Hc) as (d1 & Hc1 & _ & Hsame1).
    assert (Hassoc1 : assoc "metrics" d1 = Some (VRef ll))
      by (rewrite Hsame1 by discriminate; exact Hassoc).
    pose proof (HR1 ll _ Hlist) as Hlist1. cbn beta iota in Hlist1.
    rewrite (get_iter_list _ _ _ _ _ _ Hc1 Hassoc1 Hlist1) in Hmets.
    injection Hmets as <-.
    eapply named_stable; [exact HR3|]. apply Hnamed2. exact Hitem.
Qed.

Lemma dataset_process_names_every_column_and_metric_witness :
  exists h',
    DatasetAsset_process plain_libraries 0 (VRef 0) VNone
      [ODict [("table_name", VStr "t"); ("columns", VRef 1); ("sql", VStr "SELECT 1")];
       OList [VRef 2; VRef 3];
       ODict [("column_name", VStr "actor_id")];
       ODict [("column_name", VStr "org"); ("verbose_name", VStr "Organization")]]
    = Ok tt h'
    /\ forall item, In item [VRef 2; VRef 3] -> named h' item.
Proof.
  eexists. split; [vm_compute; reflexivity|].
  apply (dataset_process_names_every_column_and_metric plain_libraries 0 0 VNone
           [("table_name", VStr "t"); ("columns", VRef 1); ("sql", VStr "SELECT 1")]
           [ODict [("table_name", VStr "t"); ("columns", VRef 1);
                   ("sql", VStr "SELECT 1")];
            OList [VRef 2; VRef 3];
            ODict [("column_name", VStr "actor_id")];
            ODict [("column_name", VStr "org"); ("verbose_name", VStr "Organization")]]
           _ "columns" 1 [VRef 2; VRef 3]);
    try reflexivity.
  left. reflexivity.
Defined.

Lemma import_entries_assets (ext : externals) (fuel : nat) (assets_path : string)
    (archive : list (string * yaml)) :
  forall st,
    import_entries ext fuel assets_path st (List.filter is_asset_entry archive)
    = import_entries ext fuel assets_path st archive.
Proof.
  induction archive as [|[asset_path tree] archive IH]; intros st; [reflexivity|].
  cbn [List.filter]. unfold is_asset_entry at 1. cbn [fst].
  destruct (str_contains "metadata.yaml" asset_path) eqn:Hmeta; cbn [negb].
  - rewrite IH. cbn [import_entries import_entry]. rewrite Hmeta. reflexivity.
  - cbn [import_entries].
    destruct (import_entry ext fuel assets_path st (asset_path, tree)); [apply IH|].
    reflexivity.
Qed.

(** X23: an entry whose path contains [metadata.yaml] is never parsed,
    validated or written, wherever it stands in the archive and whatever it
    holds: the import of an archive is the import of its other entries. *)
Theorem metadata_entries_are_skipped (ext : externals) (fuel : nat)
    (archive : list (string * yaml)) (fs : files) (assets_path : string) :
  import_superset_assets ext fuel (List.filter is_asset_entry archive) fs assets_path
  = import_superset_assets ext fuel archive fs assets_path.
Proof.
  unfold import_superset_assets. rewrite import_entries_assets. reflexivity.
Qed.

End ImportMore.

(** * The merge of two parsed files, as a whole *)

Module LayoutFacts.
Import AssetImport ImportCases MoreCases TreeCases ImportFacts ImportMore.

(** ** The layout of a parsed tree *)

Lemma laid_seq_impl {A B : Type} (P Q : A -> B -> nat -> nat -> Prop) (ts : list A) :
  forall (vs : list B) (a b : nat),
    Forall (fun t => forall v a b, P t v a b -> Q t v a b) ts ->
    laid_seq P ts vs a b -> laid_seq Q ts vs a b.
Proof.
  induction ts as [|t ts IH]; intros [|v vs] a b Hall H; simpl in *; auto.
  inversion Hall as [|? ? Ht Hts]; subst.
  destruct H as (m & Hp & Hrest). exists m. split; [apply Ht; exact Hp|].
  apply IH; assumption.
Qed.

Lemma laid_map (h : store) (entries : list (string * yaml)) (v : value) (a b : nat) :
  laid h (YMap entries) v a b
  <-> exists l kvs,
        v = VRef l /\ a <= l /\ h !! l = Some (ODict kvs)
        /\ laid_seq (laid_entry h) entries kvs (S l) b.
Proof.
  cbn [laid]. split; intros (l & kvs & Hv & Ha & Hl & Hseq); exists l, kvs;
    repeat (split; [assumption|]);
    (eapply laid_seq_impl; [|exact Hseq]); apply Forall_forall;
    intros [k t] _ [k' v'] a0 b0 H; exact H.
Qed.

Lemma laid_seq_bounds {A B : Type} (P : A -> B -> nat -> nat -> Prop) (ts : list A) :
  forall (vs : list B) (a b : nat),
    Forall (fun t => forall v a b, P t v a b -> a <= b) ts ->
    laid_seq P ts vs a b -> a <= b.
Proof.
  induction ts as [|t ts IH]; intros [|v vs] a b Hall H; simpl in *; try tauto.
  inversion Hall as [|? ? Ht Hts]; subst.
  destruct H as (m & Hp & Hrest).
  specialize (Ht _ _ _ Hp). specialize (IH _ _ _ Hts Hrest). lia.
Qed.

Lemma laid_bounds (h : store) (t : yaml) :
  forall v a b, laid h t v a b -> a <= b.
Proof.
  induction t as [| x | n | s | items IH | entries IH] using yaml_nested_ind;
    intros v a b H.
  1-4: destruct H; assumption.
  - destruct H as (l & vs & _ & Ha & _ & Hseq).
    apply laid_seq_bounds in Hseq; [lia | exact IH].
  - apply laid_map in H. destruct H as (l & kvs & _ & Ha & _ & Hseq).
    apply laid_seq_bounds in Hseq; [lia|].
    eapply Forall_impl; [exact IH|]. intros kv Hkv kv' a0 b0 [_ H]. eapply Hkv, H.
Qed.

(** The layout only depends on the objects of the stretch. *)
Lemma laid_stable (h h2 : store) (t : yaml) :
  forall v a b,
    laid h t v a b ->
    (forall l, a <= l -> l < b -> h2 !! l = h !! l) ->
    laid h2 t v a b.
Proof.
  induction t as [| x | n | s | items IH | entries IH] using yaml_nested_ind;
    intros v a b H Hsame; try exact H.
  - pose proof (laid_bounds _ _ _ _ _ H) as Hab.
    destruct H as (l & vs & -> & Ha & Hl & Hseq).
    assert (Hlb : S l <= b).
    { apply laid_seq_bounds in Hseq; [exact Hseq|].
      apply Forall_forall. intros t _ v a0 b0. apply laid_bounds. }
    exists l, vs. split; [reflexivity|]. split; [exact Ha|]. split.
    + rewrite Hsame by lia. exact Hl.
    + assert (Hgen : forall vs a1, S l <= a1 ->
                laid_seq (laid h) items vs a1 b -> laid_seq (laid h2) items vs a1 b).
      { clear Hseq Hl vs. induction IH as [|t items Ht _ IHitems]; intros [|v vs] a1 Ha1 H;
          simpl in *; auto.
        destruct H as (m & Hp & Hrest).
        pose proof (laid_bounds _ _ _ _ _ Hp) as Hm.
        assert (Hmb : m <= b).
        { apply laid_seq_bounds in Hrest; [exact Hrest|].
          apply Forall_forall. intros t0 _ v0 a0 b0. apply laid_bounds. }
        exists m. split.
        - apply Ht; [exact Hp|]. intros l0 H1 H2. apply Hsame; lia.
        - apply IHitems; [lia | exact Hrest]. }
      apply Hgen; [lia | exact Hseq].
  - apply laid_map in H. apply laid_map.
    destruct H as (l & kvs & -> & Ha & Hl & Hseq).
    assert (Hlb : S l <= b).
    { apply laid_seq_bounds in Hseq; [exact Hseq|].
      apply Forall_forall. intros kv _ kv' a0 b0 [_ H]. eapply laid_bounds, H. }
    exists l, kvs. split; [reflexivity|]. split; [exact Ha|]. split.
    + rewrite Hsame by lia. exact Hl.
    + assert (Hgen : forall kvs a1, S l <= a1 ->
                laid_seq (laid_entry h) entries kvs a1 b ->
                laid_seq (laid_entry h2) entries kvs a1 b).
      { clear Hseq Hl kvs. induction IH as [|kv entries Ht _ IHentries];
          intros [|kv' kvs] a1 Ha1 H; simpl in *; auto.
        destruct H as (m & [Hk Hp] & Hrest).
        pose proof (laid_bounds _ _ _ _ _ Hp) as Hm.
        assert (Hmb : m <= b).
        { apply laid_seq_bounds in Hrest; [exact Hrest|].
          apply Forall_forall. intros t0 _ v0 a0 b0 [_ H]. eapply laid_bounds, H. }
        exists m. split.
        - split; [exact Hk|]. apply Ht; [exact Hp|].
          intros l0 H1 H2. apply Hsame; lia.
        - apply IHentries; [lia | exact Hrest]. }
      apply Hgen; [lia | exact Hseq].
Qed.

Lemma laid_seq_widen {A B : Type} (P : A -> B -> nat -> nat -> Prop) (ts : list A) :
  forall (vs : list B) (a b b' : nat),
    Forall (fun t => forall v a b b', P t v a b -> b <= b' -> P t v a b') ts ->
    b <= b' -> laid_seq P ts vs a b -> laid_seq P ts vs a b'.
Proof.
  induction ts as [|t ts IH]; intros [|v vs] a b b' Hall Hb H; simpl in *; auto; try lia.
  inversion Hall as [|? ? Ht Hts]; subst.
  destruct H as (m & Hp & Hrest). exists m. split; [exact Hp|].
  eapply IH; eassumption.
Qed.

(** A stretch can be taken longer at its end. *)
Lemma laid_widen (h : store) (t : yaml) :
  forall v a b b', laid h t v a b -> b <= b' -> laid h t v a b'.
Proof.
  induction t as [| x | n | s | items IH | entries IH] using yaml_nested_ind;
    intros v a b b' H Hb.
  1-4: destruct H as [Hv Hab]; split; [exact Hv | lia].
  - destruct H as (l & vs & Hv & Ha & Hl & Hseq). exists l, vs.
    repeat (split; [assumption|]).
    eapply laid_seq_widen; [|exact Hb|exact Hseq]. exact IH.
  - apply laid_map in H. apply laid_map.
    destruct H as (l & kvs & Hv & Ha & Hl & Hseq). exists l, kvs.
    repeat (split; [assumption|]).
    eapply laid_seq_widen; [|exact Hb|exact Hseq].
    eapply Forall_impl; [exact IH|]. intros kv Hkv kv' a0 b0 b0' [Hk H] Hle.
    split; [exact Hk|]. eapply Hkv; eassumption.
Qed.

(** ** Loading lays a tree out *)

Lemma alloc_items_laid (items : list yaml) :
  Forall (fun t => forall h v h', alloc t h = (v, h') ->
                   laid h' t v (length h) (length h')) items ->
  forall h vs h', alloc_items alloc items h = (vs, h') ->
    length h <= length h'
    /\ (forall l, l < length h -> h' !! l = h !! l)
    /\ forall h2, (forall l, length h <= l -> l < length h' -> h2 !! l = h' !! l) ->
         laid_seq (laid h2) items vs (length h) (length h').
Proof.
  induction 1 as [|t items Ht _ IH]; intros h vs h' Ha; simpl in Ha.
  - injection Ha as <- <-. repeat split; auto. intros h2 _. simpl. lia.
  - destruct (alloc t h) as [v h1] eqn:Hv.
    destruct (alloc_items alloc items h1) as [vs' h2] eqn:Hvs.
    injection Ha as <- <-.
    destruct (alloc_length _ _ _ _ Hv) as [Hlen1 Hkeep1].
    destruct (IH _ _ _ Hvs) as (Hlen2 & Hkeep2 & Hlaid).
    split; [lia|]. split.
    + intros l Hl. rewrite Hkeep2 by lia. apply Hkeep1. exact Hl.
    + intros h3 Hholds. simpl. exists (length h1). split.
      * eapply laid_stable; [apply (Ht _ _ _ Hv)|].
        intros l Hl1 Hl2. rewrite Hholds by lia. apply Hkeep2. exact Hl2.
      * apply Hlaid. intros l Hl1 Hl2. apply Hholds; lia.
Qed.

Lemma alloc_entries_laid (entries : list (string * yaml)) :
  Forall (fun kv => forall h v h', alloc (snd kv) h = (v, h') ->
                    laid h' (snd kv) v (length h) (length h')) entries ->
  forall h kvs h', alloc_entries alloc entries h = (kvs, h') ->
    length h <= length h'
    /\ (forall l, l < length h -> h' !! l = h !! l)
    /\ forall h2, (forall l, length h <= l -> l < length h' -> h2 !! l = h' !! l) ->
         laid_seq (laid_entry h2) entries kvs (length h) (length h').
Proof.
  induction 1 as [|[k t] entries Ht _ IH]; intros h kvs h' Ha; simpl in Ha.
  - injection Ha as <- <-. repeat split; auto. intros h2 _. simpl. lia.
  - destruct (alloc t h) as [v h1] eqn:Hv.
    destruct (alloc_entries alloc entries h1) as [kvs' h2] eqn:Hkvs.
    injection Ha as <- <-.
    destruct (alloc_length _ _ _ _ Hv) as [Hlen1 Hkeep1].
    destruct (IH _ _ _ Hkvs) as (Hlen2 & Hkeep2 & Hlaid).
    split; [lia|]. split.
    + intros l Hl. rewrite Hkeep2 by lia. apply Hkeep1. exact Hl.
    + intros h3 Hholds. simpl. exists (length h1). split.
      * split; [reflexivity|].
        eapply laid_stable; [apply (Ht _ _ _ Hv)|].
        intros l Hl1 Hl2. rewrite Hholds by lia. apply Hkeep2. exact Hl2.
      * apply Hlaid. intros l Hl1 Hl2. apply Hholds; lia.
Qed.

Lemma alloc_laid (t : yaml) :
  forall h v h', alloc t h = (v, h') -> laid h' t v (length h) (length h').
Proof.
  induction t as [| x | n | s | items IH | entries IH] using yaml_nested_ind;
    intros h v h' Ha.
  1-4: simpl in Ha; injection Ha as <- <-; split; [reflexivity | lia].
  - cbn [alloc] in Ha.
    destruct (alloc_items alloc items (h ++ [OList []])) as [vs h1] eqn:Hvs.
    injection Ha as <- <-.
    destruct (alloc_items_laid items IH _ _ _ Hvs) as (Hlen & _ & Hlaid).
    rewrite length_app in Hlen, Hlaid. cbn [length] in Hlen, Hlaid.
    exists (length h), vs. split; [reflexivity|]. split; [lia|]. split.
    + apply list_lookup_insert_eq. lia.
    + rewrite length_insert. replace (S (length h)) with (length h + 1) by lia.
      apply Hlaid. intros l Hl1 Hl2. apply list_lookup_insert_ne. lia.
  - cbn [alloc] in Ha.
    destruct (alloc_entries alloc entries (h ++ [ODict []])) as [kvs h1] eqn:Hkvs.
    injection Ha as <- <-.
    destruct (alloc_entries_laid entries IH _ _ _ Hkvs) as (Hlen & _ & Hlaid).
    rewrite length_app in Hlen, Hlaid. cbn [length] in Hlen, Hlaid.
    apply laid_map.
    exists (length h), kvs. split; [reflexivity|]. split; [lia|]. split.
    + apply list_lookup_insert_eq. lia.
    + rewrite length_insert. replace (S (length h)) with (length h + 1) by lia.
      apply Hlaid. intros l Hl1 Hl2. apply list_lookup_insert_ne. lia.
Qed.

(** ** Reading a laid tree *)

Lemma laid_dump (h : store) (t : yaml) :
  forall fuel v a b, laid h t v a b -> height t <= fuel -> dump fuel h v = Some t.
Proof.
  induction t as [| x | n | s | items IH | entries IH] using yaml_nested_ind;
    intros fuel v a b H Hfuel; cbn [height] in Hfuel;
    (destruct fuel as [|fuel]; [lia|]).
  1-4: destruct H as [-> _]; reflexivity.
  - destruct H as (l & vs & -> & _ & Hl & Hseq). cbn [dump]. unfold loc in *.
    rewrite Hl.
    assert (Hfit : Forall (fun t => height t <= fuel) items)
      by (apply height_items; lia).
    enough (Hm : mapM (dump fuel h) vs = Some items) by (rewrite Hm; reflexivity).
    clear Hl Hfuel. revert vs Hseq. generalize (S l).
    induction IH as [|t items Ht _ IHitems]; intros a1 [|v vs] Hseq;
      simpl in Hseq; try tauto; try reflexivity.
    destruct Hseq as (m & Hp & Hrest). inversion Hfit; subst.
    apply mapM_Some. constructor.
    + eapply Ht; eassumption.
    + apply mapM_Some. eapply IHitems; eassumption.
  - apply laid_map in H. destruct H as (l & kvs & -> & _ & Hl & Hseq).
    cbn [dump]. unfold loc in *. rewrite Hl.
    assert (Hfit : Forall (fun kv => height (snd kv) <= fuel) entries)
      by (apply height_entries; lia).
    enough (Hm : mapM (fun kv => pair (fst kv) <$> dump fuel h (snd kv)) kvs
                 = Some entries) by (rewrite Hm; reflexivity).
    clear Hl Hfuel. revert kvs Hseq. generalize (S l).
    induction IH as [|[k t] entries Ht _ IHentries]; intros a1 [|[k' v] kvs] Hseq;
      simpl in Hseq; try tauto; try reflexivity.
    destruct Hseq as (m & [Hk Hp] & Hrest). inversion Hfit; subst.
    cbn [fst snd] in *.
    apply mapM_Some. constructor.
    + cbn [fst snd]. erewrite Ht by eassumption. reflexivity.
    + apply mapM_Some. eapply IHentries; eassumption.
Qed.

Lemma laid_truthy (h : store) (t : yaml) (v : value) (a b : nat) :
  laid h t v a b -> truthy h v = TranslateUtils.truthy t.
Proof.
  destruct t as [| x | n | s | items | entries].
  1-4: intros [-> _]; reflexivity.
  - intros (l & vs & -> & _ & Hl & Hseq). cbn [truthy TranslateUtils.truthy].
    unfold loc in *. rewrite Hl.
    destruct items, vs; simpl in Hseq; try tauto; reflexivity.
  - intros H. apply laid_map in H. destruct H as (l & kvs & -> & _ & Hl & Hseq).
    cbn [truthy TranslateUtils.truthy]. unfold loc in *. rewrite Hl.
    destruct entries, kvs; simpl in Hseq; try tauto; reflexivity.
Qed.

(** The entry of a laid mapping at a key. *)
Lemma laid_seq_assoc (h : store) (key : string) (entries : list (string * yaml)) :
  forall (kvs : list (string * value)) (a b : nat),
    laid_seq (laid_entry h) entries kvs a b ->
    match assoc key entries with
    | Some t =>
        exists v a1 b1, assoc key kvs = Some v /\ laid h t v a1 b1 /\ a <= a1 /\ b1 <= b
    | None => assoc key kvs = None
    end.
Proof.
  induction entries as [|[k t] entries IH]; intros [|[k' v] kvs] a b H;
    simpl in H; try tauto; try reflexivity.
  destruct H as (m & [Hk Hp] & Hrest). cbn [fst snd] in *. subst k'.
  pose proof (laid_bounds _ _ _ _ _ Hp) as Ham.
  assert (Hmb : m <= b).
  { apply laid_seq_bounds in Hrest; [exact Hrest|].
    apply Forall_forall. intros kv _ kv' a0 b0 [_ H]. eapply laid_bounds, H. }
  cbn [assoc]. destruct (String.eqb k key).
  - exists v, a, m. repeat split; auto.
  - specialize (IH _ _ _ Hrest). destruct (assoc key entries) as [t'|]; [|exact IH].
    destruct IH as (v' & a1 & b1 & Hv' & Hl' & H1 & H2).
    exists v', a1, b1. repeat split; auto. lia.
Qed.

Lemma laid_seq_keys (h : store) (entries : list (string * yaml)) :
  forall (kvs : list (string * value)) (a b : nat),
    laid_seq (laid_entry h) entries kvs a b -> map fst kvs = map fst entries.
Proof.
  induction entries as [|[k t] entries IH]; intros [|[k' v] kvs] a b H;
    simpl in H; try tauto; try reflexivity.
  destruct H as (m & [Hk Hp] & Hrest). cbn [fst snd map] in *. subst k'.
  f_equal. eapply IH. exact Hrest.
Qed.

(** The item of a laid sequence at an index. *)
Lemma laid_seq_lookup (h : store) (items : list yaml) :
  forall (vs : list value) (a b : nat) (i : nat),
    laid_seq (laid h) items vs a b ->
    match items !! i with
    | Some t => exists v a1 b1, vs !! i = Some v /\ laid h t v a1 b1 /\ a <= a1 /\ b1 <= b
    | None => vs !! i = None
    end.
Proof.
  induction items as [|t items IH]; intros [|v vs] a b i H; simpl in H; try tauto.
  - destruct i; reflexivity.
  - destruct H as (m & Hp & Hrest).
    pose proof (laid_bounds _ _ _ _ _ Hp) as Ham.
    assert (Hmb : m <= b).
    { apply laid_seq_bounds in Hrest; [exact Hrest|].
      apply Forall_forall. intros t0 _ v0 a0 b0. apply laid_bounds. }
    destruct i as [|i]; cbn [lookup list_lookup].
    + exists v, a, m. repeat split; auto.
    + specialize (IH _ _ _ i Hrest).
      change ((t :: items) !! S i) with (items !! i).
      change ((v :: vs) !! S i) with (vs !! i).
      destruct (items !! i) as [t'|]; [|exact IH].
      destruct IH as (v' & a1 & b1 & Hv' & Hl' & H1 & H2).
      exists v', a1, b1. repeat split; auto. lia.
Qed.

End LayoutFacts.

Module RefineFacts.
Import AssetImport ImportCases MoreCases TreeCases ImportFacts ImportMore LayoutFacts.

(** ** The merge on trees: what it keeps *)

Lemma merge_each_inv {A : Type} (f : A -> merged_tree A) (xs : list A) :
  forall xs', merge_each f xs = Merged xs' ->
    Forall2 (fun x x' => f x = Merged x') xs xs'.
Proof.
  induction xs as [|x xs IH]; intros xs' H; simpl in H.
  - injection H as <-. constructor.
  - destruct (f x) as [x'|e] eqn:Hx; [|discriminate].
    destruct (merge_each f xs) as [rest|e]; [|discriminate].
    injection H as <-. constructor; [exact Hx | apply IH; reflexivity].
Qed.

Lemma merge_each_raises {A : Type} (f : A -> merged_tree A) (xs : list A) (e : exn) :
  merge_each f xs = Raises e -> exists x, In x xs /\ f x = Raises e.
Proof.
  induction xs as [|x xs IH]; intros H; simpl in H; [discriminate|].
  destruct (f x) as [x'|e'] eqn:Hx.
  - destruct (merge_each f xs) as [rest|e'']; [discriminate|].
    injection H as ->. destruct IH as (y & Hy & Hfy); [reflexivity|].
    exists y. split; [right; exact Hy | exact Hfy].
  - injection H as ->. exists x. split; [left; reflexivity | exact Hx].
Qed.

Lemma merge_enumerate_inv {A : Type} (f : nat -> A -> merged_tree A) (xs : list A) :
  forall i xs', merge_enumerate f i xs = Merged xs' ->
    Forall2 (fun x x' => exists j, f j x = Merged x') xs xs'.
Proof.
  induction xs as [|x xs IH]; intros i xs' H; simpl in H.
  - injection H as <-. constructor.
  - destruct (f i x) as [x'|e] eqn:Hx; [|discriminate].
    destruct (merge_enumerate f (S i) xs) as [rest|e] eqn:Hrest; [|discriminate].
    injection H as <-. constructor; [exists i; exact Hx | eapply IH; exact Hrest].
Qed.

Lemma merge_enumerate_raises {A : Type} (f : nat -> A -> merged_tree A) (xs : list A)
    (e : exn) :
  forall i, merge_enumerate f i xs = Raises e -> exists j x, In x xs /\ f j x = Raises e.
Proof.
  induction xs as [|x xs IH]; intros i H; simpl in H; [discriminate|].
  destruct (f i x) as [x'|e'] eqn:Hx.
  - destruct (merge_enumerate f (S i) xs) as [rest|e''] eqn:Hrest; [discriminate|].
    injection H as ->. destruct (IH _ Hrest) as (j & y & Hy & Hfy).
    exists j, y. split; [right; exact Hy | exact Hfy].
  - injection H as ->. exists i, x. split; [left; reflexivity | exact Hx].
Qed.

Lemma merge_tree_mapping (raw : list string) (entries : list (string * yaml)) (old t' : yaml) :
  merge_tree raw (YMap entries) old = Merged t' -> exists entries', t' = YMap entries'.
Proof.
  destruct old; cbn [merge_tree]; try (intros [= <-]; eexists; reflexivity).
  destruct (merge_each _ entries) as [entries'|e]; [|discriminate].
  intros [= <-]. eexists; reflexivity.
Qed.

Lemma height_pos (t : yaml) : 1 <= height t.
Proof. destruct t; cbn [height]; lia. Qed.

Lemma height_item (items : list yaml) (t : yaml) :
  In t items -> height t < height (YList items).
Proof.
  intros Hin. cbn [height].
  pose proof (height_items items _ (Nat.le_refl _)) as Hall.
  rewrite List.Forall_forall in Hall. specialize (Hall _ Hin). lia.
Qed.

Lemma height_entry (entries : list (string * yaml)) (kv : string * yaml) :
  In kv entries -> height (snd kv) < height (YMap entries).
Proof.
  intros Hin. cbn [height].
  pose proof (height_entries entries _ (Nat.le_refl _)) as Hall.
  rewrite List.Forall_forall in Hall. specialize (Hall _ Hin). lia.
Qed.

Lemma old_item_raises (old : yaml) (i : nat) (e : exn) :
  old_item old i = Raises e -> e = KeyError \/ e = TypeError.
Proof.
  destruct old; cbn [old_item]; try (intros [= <-]; auto); try discriminate.
  destruct (String.get i s); discriminate.
Qed.

(** The merge raises [KeyError] or [TypeError] and nothing else: the
    [IndexError] of a short existing list is passed over. *)
Lemma merge_tree_raises (raw : list string) (n : nat) :
  forall new old e,
    height new <= n -> merge_tree raw new old = Raises e ->
    e = KeyError \/ e = TypeError.
Proof.
  induction n as [|n IH]; intros new old e Hn H.
  { pose proof (height_pos new). lia. }
  destruct new as [| | | | |entries]; try discriminate.
  destruct old as [| | | | |old_entries]; try discriminate.
  cbn [merge_tree] in H.
  destruct (merge_each _ entries) as [entries'|e'] eqn:Hloop; [discriminate|].
  injection H as ->.
  apply merge_each_raises in Hloop. destruct Hloop as ([key value] & Hin & Hkv).
  apply height_entry in Hin. cbn [snd] in Hin.
  unfold merge_entry in Hkv.
  destruct (assoc key old_entries) as [old_value|]; [|discriminate].
  destruct (is_templated old_value).
  - destruct (existsb (String.eqb key) raw); [|discriminate].
    destruct value; try discriminate; injection Hkv as <-; auto.
  - unfold merge_value in Hkv. destruct value as [| | | |items|sub]; try discriminate.
    + destruct (merge_enumerate _ 0 items) as [items'|e'] eqn:Hitems; [discriminate|].
      injection Hkv as ->.
      apply merge_enumerate_raises in Hitems.
      destruct Hitems as (j & item & Hitem & Hraise).
      apply height_item in Hitem.
      unfold merge_item in Hraise. destruct item; try discriminate.
      destruct (old_item old_value j) as [[tmp|]|e'] eqn:Hold.
      * eapply IH; [|exact Hraise]. lia.
      * discriminate.
      * injection Hraise as ->. eapply old_item_raises, Hold.
    + destruct (merge_tree raw (YMap sub) old_value) as [v'|e'] eqn:Hsub; [discriminate|].
      injection Hkv as ->. eapply IH; [|exact Hsub]. lia.
Qed.

Lemma merge_entry_key (recur : yaml -> yaml -> merged_tree yaml) (raw : list string)
    (old_entries : list (string * yaml)) (kv kv' : string * yaml) :
  merge_entry recur raw old_entries kv = Merged kv' -> fst kv' = fst kv.
Proof.
  destruct kv as [key value]. unfold merge_entry.
  destruct (assoc key old_entries) as [old_value|]; [|intros [= <-]; reflexivity].
  destruct (is_templated old_value).
  - destruct (existsb (String.eqb key) raw); [|intros [= <-]; reflexivity].
    destruct value; try discriminate. intros [= <-]; reflexivity.
  - destruct (merge_value recur old_value value); [|discriminate].
    intros [= <-]; reflexivity.
Qed.

(** The merge never makes a tree higher: what it puts in is a string. *)
Lemma merge_tree_height (raw : list string) (n : nat) :
  forall new old t',
    height new <= n -> merge_tree raw new old = Merged t' -> height t' <= height new.
Proof.
  induction n as [|n IH]; intros new old t' Hn H.
  { pose proof (height_pos new). lia. }
  destruct new as [| | | | |entries]; try (injection H as <-; lia).
  destruct old as [| | | | |old_entries]; try (injection H as <-; lia).
  cbn [merge_tree] in H.
  destruct (merge_each _ entries) as [entries'|e'] eqn:Hloop; [|discriminate].
  injection H as <-. apply merge_each_inv in Hloop.
  cbn [height] in *. apply le_n_S.
  assert (Hn' : fold_right (fun kv m => Nat.max (height (snd kv)) m) 0 entries <= n) by lia.
  clear Hn. induction Hloop as [|[key value] [key' value'] entries entries' Hkv _ IHl];
    [reflexivity|].
  cbn [fold_right snd] in *.
  assert (Hv : height value' <= height value).
  { unfold merge_entry in Hkv.
    destruct (assoc key old_entries) as [old_value|]; [|injection Hkv as <- <-; lia].
    destruct (is_templated old_value) eqn:Htempl.
    - destruct old_value; try discriminate.
      destruct (existsb (String.eqb key) raw).
      + destruct value; try discriminate. injection Hkv as <- <-. reflexivity.
      + injection Hkv as <- <-. cbn [height]. apply height_pos.
    - unfold merge_value in Hkv.
      destruct value as [| | | |items|sub]; try (injection Hkv as <- <-; lia).
      + destruct (merge_enumerate _ 0 items) as [items'|e'] eqn:Hitems; [|discriminate].
        injection Hkv as <- <-. apply merge_enumerate_inv in Hitems.
        cbn [height] in *. apply le_n_S.
        assert (Hi : fold_right (fun t m => Nat.max (height t) m) 0 items <= n) by lia.
        clear Hn' IHl. induction Hitems as [|item item' items items' [j Hitem] _ IHi];
          [reflexivity|].
        cbn [fold_right] in *.
        assert (Ht : height item' <= height item).
        { unfold merge_item in Hitem.
          destruct item; try (injection Hitem as <-; lia).
          destruct (old_item old_value j) as [[tmp|]|e']; try discriminate.
          - eapply IH; [|exact Hitem]. lia.
          - injection Hitem as <-. lia. }
        specialize (IHi ltac:(lia)). lia.
      + destruct (merge_tree raw (YMap sub) old_value) as [v'|e'] eqn:Hsub; [|discriminate].
        injection Hkv as <- <-. eapply IH; [|exact Hsub]. lia. }
  specialize (IHl ltac:(lia)). lia.
Qed.

End RefineFacts.

Module RunFacts.
Import AssetImport ImportCases MoreCases TreeCases ImportFacts ImportMore LayoutFacts
  RefineFacts.

(** ** More on layouts *)

Lemma laid_items_bounds (h : store) (items : list yaml) (vs : list value) (a b : nat) :
  laid_seq (laid h) items vs a b -> a <= b.
Proof.
  apply laid_seq_bounds. apply Forall_forall. intros t _ v a0 b0. apply laid_bounds.
Qed.

Lemma laid_entries_bounds (h : store) (entries : list (string * yaml))
    (kvs : list (string * value)) (a b : nat) :
  laid_seq (laid_entry h) entries kvs a b -> a <= b.
Proof.
  apply laid_seq_bounds. apply Forall_forall.
  intros kv _ kv' a0 b0 [_ H]. eapply laid_bounds, H.
Qed.

Lemma laid_items_stable (h h2 : store) (items : list yaml) :
  forall vs a b,
    laid_seq (laid h) items vs a b ->
    (forall l, a <= l -> l < b -> h2 !! l = h !! l) ->
    laid_seq (laid h2) items vs a b.
Proof.
  induction items as [|t items IH]; intros [|v vs] a b H Hsame; simpl in *; auto.
  destruct H as (m & Hp & Hrest).
  pose proof (laid_bounds _ _ _ _ _ Hp). pose proof (laid_items_bounds _ _ _ _ _ Hrest).
  exists m. split.
  - eapply laid_stable; [exact Hp|]. intros l H1 H2. apply Hsame; lia.
  - apply IH; [exact Hrest|]. intros l H1 H2. apply Hsame; lia.
Qed.

Lemma laid_entries_stable (h h2 : store) (entries : list (string * yaml)) :
  forall kvs a b,
    laid_seq (laid_entry h) entries kvs a b ->
    (forall l, a <= l -> l < b -> h2 !! l = h !! l) ->
    laid_seq (laid_entry h2) entries kvs a b.
Proof.
  induction entries as [|kv entries IH]; intros [|kv' kvs] a b H Hsame; simpl in *; auto.
  destruct H as (m & [Hk Hp] & Hrest).
  pose proof (laid_bounds _ _ _ _ _ Hp). pose proof (laid_entries_bounds _ _ _ _ _ Hrest).
  exists m. split.
  - split; [exact Hk|]. eapply laid_stable; [exact Hp|]. intros l H1 H2. apply Hsame; lia.
  - apply IH; [exact Hrest|]. intros l H1 H2. apply Hsame; lia.
Qed.

(** A stretch can be taken longer at its start. *)
Lemma laid_left (h : store) (t : yaml) (v : value) (a a' b : nat) :
  laid h t v a b -> a' <= a -> laid h t v a' b.
Proof.
  intros H Ha. destruct t as [| | | |items|entries]; cbn [laid] in *.
  1-4: destruct H; split; [assumption | lia].
  - destruct H as (l & vs & Hv & Hl & Hrest). exists l, vs. split; [exact Hv|].
    split; [lia | exact Hrest].
  - destruct H as (l & kvs & Hv & Hl & Hrest). exists l, kvs. split; [exact Hv|].
    split; [lia | exact Hrest].
Qed.

Lemma laid_seq_split {A B : Type} (P : A -> B -> nat -> nat -> Prop) (xs : list A) :
  forall ys vs a b,
    laid_seq P (xs ++ ys) vs a b ->
    exists vs1 vs2 m,
      vs = vs1 ++ vs2 /\ laid_seq P xs vs1 a m /\ laid_seq P ys vs2 m b.
Proof.
  induction xs as [|x xs IH]; intros ys vs a b H.
  - exists [], vs, a. split; [reflexivity|]. split; [simpl; lia | exact H].
  - destruct vs as [|v vs]; simpl in H; [tauto|].
    destruct H as (m & Hp & Hrest).
    destruct (IH _ _ _ _ Hrest) as (vs1 & vs2 & m2 & -> & H1 & H2).
    exists (v :: vs1), vs2, m2. split; [reflexivity|]. split; [|exact H2].
    simpl. exists m. split; assumption.
Qed.

Lemma laid_seq_join {A B : Type} (P : A -> B -> nat -> nat -> Prop) (xs : list A) :
  (forall t v a a' b, P t v a b -> a' <= a -> P t v a' b) ->
  forall ys vs1 vs2 a m b,
    laid_seq P xs vs1 a m -> laid_seq P ys vs2 m b ->
    laid_seq P (xs ++ ys) (vs1 ++ vs2) a b.
Proof.
  intros Hleft. induction xs as [|x xs IH]; intros ys [|v vs1] vs2 a m b H1 H2;
    simpl in H1; try tauto.
  - cbn [app]. destruct ys as [|y ys], vs2 as [|v2 vs2]; simpl in *; try tauto; [lia|].
    destruct H2 as (m2 & Hp & Hrest). exists m2. split; [|exact Hrest].
    eapply Hleft; eassumption.
  - destruct H1 as (m1 & Hp & Hrest). simpl. exists m1. split; [exact Hp|].
    eapply IH; eassumption.
Qed.

Lemma laid_entry_left (h : store) (kv : string * yaml) (kv' : string * value)
    (a a' b : nat) :
  laid_entry h kv kv' a b -> a' <= a -> laid_entry h kv kv' a' b.
Proof. intros [Hk H] Ha. split; [exact Hk|]. eapply laid_left; eassumption. Qed.

Lemma is_dict_laid (h : store) (t : yaml) (v : value) (a b : nat) :
  laid h t v a b ->
  is_dict h v = match t with YMap _ => true | _ => false end.
Proof.
  destruct t as [| | | |items|entries]; cbn [laid].
  1-4: intros [-> _]; reflexivity.
  - intros (l & vs & -> & _ & Hl & _). unfold is_dict. cbn [deref]. unfold loc in *.
    rewrite Hl. reflexivity.
  - intros (l & kvs & -> & _ & Hl & _). unfold is_dict. cbn [deref]. unfold loc in *.
    rewrite Hl. reflexivity.
Qed.

Lemma items_of_other (h : store) (t : yaml) (v : value) (a b : nat) :
  laid h t v a b ->
  (forall items, t <> YList items) ->
  match deref h v with
  | Some (OList items) => items
  | _ => []
  end = [].
Proof.
  destruct t as [| | | |items|entries]; cbn [laid].
  1-4: intros [-> _] _; reflexivity.
  - intros _ H. exfalso. eapply H. reflexivity.
  - intros (l & kvs & -> & _ & Hl & _) _. cbn [deref]. unfold loc in *.
    rewrite Hl. reflexivity.
Qed.

Lemma assoc_app_skip {V : Type} (k : string) (d1 d2 : list (string * V)) :
  ~ In k (map fst d1) -> assoc k (d1 ++ d2) = assoc k d2.
Proof.
  induction d1 as [|[k' v'] d1 IH]; intros Hnot; [reflexivity|].
  cbn [app assoc]. cbn [map fst In] in Hnot.
  destruct (String.eqb_spec k' k); [tauto|]. apply IH. tauto.
Qed.

Lemma assoc_set_app_skip {V : Type} (k : string) (v : V) (d1 d2 : list (string * V)) :
  ~ In k (map fst d1) -> assoc_set k v (d1 ++ d2) = d1 ++ assoc_set k v d2.
Proof.
  induction d1 as [|[k' v'] d1 IH]; intros Hnot; [reflexivity|].
  cbn [app assoc_set]. cbn [map fst In] in Hnot.
  destruct (String.eqb_spec k' k); [tauto|]. rewrite IH by tauto. reflexivity.
Qed.

Lemma assoc_head {V : Type} (k : string) (v : V) (d : list (string * V)) :
  assoc k ((k, v) :: d) = Some v.
Proof. cbn [assoc]. rewrite String.eqb_refl. reflexivity. Qed.

Lemma assoc_set_head {V : Type} (k : string) (v v' : V) (d : list (string * V)) :
  assoc_set k v' ((k, v) :: d) = (k, v') :: d.
Proof. cbn [assoc_set]. rewrite String.eqb_refl. reflexivity. Qed.

Lemma distinct_middle (k : string) (xs ys : list string) :
  distinct (xs ++ k :: ys) = true -> ~ In k xs.
Proof.
  intros H. apply distinct_NoDup in H. apply NoDup_app in H.
  destruct H as (_ & Hdisj & _). intros Hin.
  eapply Hdisj; [apply list_elem_of_In; exact Hin|]. left.
Qed.

(** ** The existing entry at a key *)

Lemma old_entry_stable (h h2 : store) (existing : value) (key : string)
    (old_value : yaml) (v_old : value) (c d : nat) :
  old_entry h existing key old_value v_old c d ->
  (forall l, c <= l -> l < d -> h2 !! l = h !! l) ->
  old_entry h2 existing key old_value v_old c d.
Proof.
  intros (le & okvs & -> & Hc & Hd & Hle & Hk & Hl) Hsame.
  exists le, okvs. repeat (split; [assumption || reflexivity|]). split.
  - rewrite Hsame by lia. exact Hle.
  - split; [exact Hk|]. eapply laid_stable; eassumption.
Qed.

Lemma old_entry_of_laid (h : store) (old_entries : list (string * yaml))
    (existing : value) (key : string) (c d : nat) :
  laid h (YMap old_entries) existing c d ->
  exists le okvs,
    existing = VRef le /\ h !! le = Some (ODict okvs)
    /\ match assoc key old_entries with
       | Some old_value =>
           exists v_old, old_entry h existing key old_value v_old c d
       | None => assoc key okvs = None
       end.
Proof.
  intros H. pose proof (laid_bounds _ _ _ _ _ H) as Hcd.
  apply laid_map in H. destruct H as (le & okvs & -> & Hc & Hle & Hseq).
  pose proof (laid_entries_bounds _ _ _ _ _ Hseq) as Hd.
  exists le, okvs. split; [reflexivity|]. split; [exact Hle|].
  pose proof (laid_seq_assoc h key _ _ _ _ Hseq) as Hk.
  destruct (assoc key old_entries) as [old_value|]; [|exact Hk].
  destruct Hk as (v & a1 & b1 & Hv & Hl & H1 & H2).
  exists v, le, okvs. split; [reflexivity|]. split; [exact Hc|]. split; [lia|].
  split; [exact Hle|]. split; [exact Hv|].
  eapply laid_left; [eapply laid_widen; [exact Hl | exact H2] | lia].
Qed.

Lemma old_entry_getitem (h : store) (existing : value) (key : string)
    (old_value : yaml) (v_old : value) (c d : nat) :
  old_entry h existing key old_value v_old c d ->
  getitem existing key h = Ok v_old h.
Proof.
  intros (le & okvs & -> & _ & _ & Hle & Hk & _). eapply getitem_dict; eassumption.
Qed.

(** [existing[key][i]] on a laid value. *)
Lemma getindex_laid (h : store) (old_value : yaml) (v_old : value) (c d i : nat) :
  laid h old_value v_old c d ->
  match old_item old_value i with
  | Raises e => getindex v_old i h = Raise e h /\ exn_eqb e IndexError = false
  | Merged None => getindex v_old i h = Raise IndexError h
  | Merged (Some tmp) =>
      exists v_tmp, getindex v_old i h = Ok v_tmp h /\ laid h tmp v_tmp c d
  end.
Proof.
  intros H. pose proof (laid_bounds _ _ _ _ _ H) as Hcd.
  destruct old_value as [| | |s|items|entries]; cbn [old_item].
  1-3: destruct H as [-> _]; split; reflexivity.
  - destruct H as [-> _]. cbn [getindex].
    destruct (String.get i s) as [ch|]; [|reflexivity].
    eexists. split; [reflexivity|]. split; [reflexivity | exact Hcd].
  - destruct H as (l & vs & -> & Hc & Hl & Hseq). cbn [getindex]. unfold loc in *.
    rewrite Hl. pose proof (laid_seq_lookup h items vs _ _ i Hseq) as Hi.
    destruct (items !! i) as [t|].
    + destruct Hi as (v & a1 & b1 & -> & Hlaid & H1 & H2). exists v.
      split; [reflexivity|].
      eapply laid_left; [eapply laid_widen; [exact Hlaid | exact H2] | lia].
    + rewrite Hi. reflexivity.
  - apply laid_map in H. destruct H as (l & kvs & -> & Hc & Hl & Hseq).
    cbn [getindex]. unfold loc in *. rewrite Hl. split; reflexivity.
Qed.

End RunFacts.

Module StepFacts.
Import AssetImport ImportCases MoreCases TreeCases ImportFacts ImportMore LayoutFacts
  RefineFacts RunFacts.

(** ** The run of [omit_templated_vars] on laid trees *)

Lemma bind_ret_tt {B : Type} (k : unit -> M B) (h : store) : bind (ret tt) k h = k tt h.
Proof. reflexivity. Qed.

Lemma read_run {A : Type} (f : store -> A) (h : store) : read f h = Ok (f h) h.
Proof. reflexivity. Qed.

Section Refine.

Variable raw : list string.
Variable fuel : nat.

(** The recursive calls, with the fuel they are given, do what the merge on
    trees says. *)
Hypothesis recur_refines :
  forall new old content existing h a b c d,
    height new <= fuel -> well_keyed new = true ->
    laid h new content a b -> laid h old existing c d -> b <= c ->
    match merge_tree raw new old with
    | Merged t' =>
        exists h', omit_templated_vars fuel raw content existing h = Ok tt h'
                   /\ laid h' t' content a b
                   /\ forall l, l < a \/ b <= l -> h' !! l = h !! l
    | Raises e =>
        exists h', omit_templated_vars fuel raw content existing h = Raise e h'
    end.

Section OneKey.

Variable existing : value.
Variable key : string.
Variable old_value : yaml.
Variable v_old : value.
Variables c d : nat.

(** The body of the loop over the items of [content[key]]. *)
Abbreviation item_body :=
  (fun (i : nat) (item : value) =>
     let* item_is_dict := read (fun h => is_dict h item) in
     if (item_is_dict : bool) then
       try_pass IndexError
         (let* old_list := getitem existing key in
          let* tmp := getindex old_list i in
          let* tmp' := read (fun h => or_none h tmp) in
          omit_templated_vars fuel raw item tmp')
     else ret tt).

Lemma item_step (h : store) (item : yaml) (v : value) (i a1 b1 : nat) :
  height item <= fuel -> well_keyed item = true ->
  laid h item v a1 b1 -> b1 <= c ->
  old_entry h existing key old_value v_old c d ->
  match merge_item (merge_tree raw) old_value i item with
  | Merged item' =>
      exists h', item_body i v h = Ok tt h'
                 /\ laid h' item' v a1 b1
                 /\ forall l, l < a1 \/ b1 <= l -> h' !! l = h !! l
  | Raises e => exists h', item_body i v h = Raise e h'
  end.
Proof.
  intros Hfuel Hkeyed Hlaid Hb Hold.
  assert (Hdict : read (fun h => is_dict h v) h
                  = Ok (match item with YMap _ => true | _ => false end) h).
  { unfold read. rewrite (is_dict_laid _ _ _ _ _ Hlaid). reflexivity. }
  cbv beta. rewrite (bind_Ok _ _ _ _ _ Hdict).
  destruct item as [| | | | |sub]; cbn [merge_item];
    try (exists h; split; [reflexivity|]; split; [exact Hlaid | reflexivity]).
  pose proof (old_entry_getitem _ _ _ _ _ _ _ Hold) as Hget.
  destruct Hold as (le & okvs & -> & Hc & Hd & Hle & Hk & Hlo).
  pose proof (getindex_laid h old_value v_old c d i Hlo) as Hidx.
  unfold try_pass. rewrite (bind_Ok _ _ _ _ _ Hget).
  destruct (old_item old_value i) as [[tmp|]|e].
  - destruct Hidx as (v_tmp & Hidx & Htmp).
    rewrite (bind_Ok _ _ _ _ _ Hidx).
    assert (Hor : read (fun h => or_none h v_tmp) h = Ok (or_none h v_tmp) h)
      by reflexivity.
    rewrite (bind_Ok _ _ _ _ _ Hor).
    assert (Hlaid' : laid h (if TranslateUtils.truthy tmp then tmp else YNull)
                       (or_none h v_tmp) c d).
    { unfold or_none. rewrite (laid_truthy _ _ _ _ _ Htmp).
      destruct (TranslateUtils.truthy tmp); [exact Htmp|].
      split; [reflexivity|]. eapply laid_bounds, Htmp. }
    pose proof (recur_refines (YMap sub) _ v (or_none h v_tmp) h a1 b1 c d
                  Hfuel Hkeyed Hlaid Hlaid' Hb) as Hrec.
    destruct (merge_tree raw (YMap sub) _) as [t'|e] eqn:Hm.
    + destruct Hrec as (h' & -> & Hl' & Hout). exists h'.
      split; [reflexivity|]. split; assumption.
    + destruct Hrec as (h' & ->). exists h'.
      destruct (merge_tree_raises raw _ _ _ _ (Nat.le_refl _) Hm) as [-> | ->];
        reflexivity.
  - rewrite (bind_Raise _ _ _ _ _ Hidx). cbn [exn_eqb].
    exists h. split; [reflexivity|]. split; [exact Hlaid | reflexivity].
  - destruct Hidx as [Hidx Hne]. rewrite (bind_Raise _ _ _ _ _ Hidx). rewrite Hne.
    exists h. reflexivity.
Qed.

Lemma items_loop (items : list yaml) :
  forall (vs : list value) (i : nat) (h : store) (a1 b1 : nat),
    Forall (fun t => height t <= fuel /\ well_keyed t = true) items ->
    laid_seq (laid h) items vs a1 b1 -> b1 <= c ->
    old_entry h existing key old_value v_old c d ->
    match merge_enumerate (merge_item (merge_tree raw) old_value) i items with
    | Merged items' =>
        exists h', for_enumerate item_body i vs h = Ok tt h'
                   /\ laid_seq (laid h') items' vs a1 b1
                   /\ forall l, l < a1 \/ b1 <= l -> h' !! l = h !! l
    | Raises e => exists h', for_enumerate item_body i vs h = Raise e h'
    end.
Proof.
  induction items as [|t items IH]; intros [|v vs] i h a1 b1 Hall Hseq Hb Hold;
    simpl in Hseq; try tauto.
  - cbn [merge_enumerate for_enumerate]. exists h.
    split; [reflexivity|]. split; [exact Hseq | reflexivity].
  - destruct Hseq as (m & Hp & Hrest). inversion Hall as [|? ? [Hfuel Hkeyed] Hall']; subst.
    pose proof (laid_bounds _ _ _ _ _ Hp) as Ham.
    pose proof (laid_items_bounds _ _ _ _ _ Hrest) as Hmb.
    cbn [merge_enumerate for_enumerate].
    pose proof (item_step h t v i a1 m Hfuel Hkeyed Hp ltac:(lia) Hold) as Hstep.
    destruct (merge_item (merge_tree raw) old_value i t) as [t'|e].
    + destruct Hstep as (h1 & Hrun & Hl1 & Hout1).
      rewrite (bind_Ok _ _ _ _ _ Hrun).
      assert (Hrest1 : laid_seq (laid h1) items vs m b1).
      { eapply laid_items_stable; [exact Hrest|]. intros l H1 H2. apply Hout1. lia. }
      assert (Hold1 : old_entry h1 existing key old_value v_old c d).
      { eapply old_entry_stable; [exact Hold|]. intros l H1 H2. apply Hout1. lia. }
      specialize (IH vs (S i) h1 m b1 Hall' Hrest1 Hb Hold1).
      destruct (merge_enumerate _ (S i) items) as [items'|e].
      * destruct IH as (h2 & Hrun2 & Hl2 & Hout2). exists h2.
        split; [exact Hrun2|]. split.
        -- simpl. exists m. split; [|exact Hl2].
           eapply laid_stable; [exact Hl1|]. intros l H1 H2. apply Hout2. lia.
        -- intros l Hl. rewrite Hout2 by lia. apply Hout1. lia.
      * destruct IH as (h2 & Hrun2). exists h2. exact Hrun2.
    + destruct Hstep as (h1 & Hrun). rewrite (bind_Raise _ _ _ _ _ Hrun).
      exists h1. reflexivity.
Qed.

(** The loop body for one key from the second [content[key]] on. *)
Abbreviation key_tail content :=
  (let* child := getitem content key in
   let* child_is_dict := read (fun h => is_dict h child) in
   let* _ :=
     if (child_is_dict : bool) then
       let* old_child := getitem existing key in
       omit_templated_vars fuel raw child old_child
     else ret tt in
   let* child := getitem content key in
   let* items := read (fun h => match deref h child with
                                | Some (OList items) => items
                                | _ => []
                                end) in
   for_enumerate item_body 0 items).

Lemma tail_step (h : store) (l : loc) (kvs : list (string * value)) (v : value)
    (value : yaml) (m m' : nat) :
  h !! l = Some (ODict kvs) -> assoc key kvs = Some v ->
  laid h value v m m' -> l < m -> m' <= c ->
  old_entry h existing key old_value v_old c d ->
  height value <= fuel -> well_keyed value = true ->
  match merge_value (merge_tree raw) old_value value with
  | Merged value' =>
      exists h', key_tail (VRef l) h = Ok tt h'
                 /\ laid h' value' v m m'
                 /\ forall l0, l0 < m \/ m' <= l0 -> h' !! l0 = h !! l0
  | Raises e => exists h', key_tail (VRef l) h = Raise e h'
  end.
Proof.
  intros Hl Hk Hlaid Hlm Hm' Hold Hfuel Hkeyed.
  pose proof (getitem_dict key l kvs v h Hl Hk) as Hget.
  rewrite (bind_Ok _ _ _ _ _ Hget).
  assert (Hdict : read (fun h => is_dict h v) h
                  = Ok (match value with YMap _ => true | _ => false end) h).
  { unfold read. rewrite (is_dict_laid _ _ _ _ _ Hlaid). reflexivity. }
  rewrite (bind_Ok _ _ _ _ _ Hdict).
  destruct value as [| | | |items|sub]; cbn [merge_value].
  1-4: rewrite bind_ret_tt, (bind_Ok _ _ _ _ _ Hget);
       rewrite (bind_Ok _ _ _ _ _ (read_run _ h));
       rewrite (items_of_other _ _ _ _ _ Hlaid) by discriminate;
       exists h; split; [reflexivity|]; split; [exact Hlaid | reflexivity].
  - rewrite bind_ret_tt, (bind_Ok _ _ _ _ _ Hget).
    pose proof Hlaid as (lv & vs & -> & Hmlv & Hlv & Hseq).
    assert (Hitems : read (fun h => match deref h (VRef lv) with
                                    | Some (OList items) => items
                                    | _ => []
                                    end) h = Ok vs h).
    { unfold read. cbn [deref]. unfold loc in *. rewrite Hlv. reflexivity. }
    rewrite (bind_Ok _ _ _ _ _ Hitems).
    assert (Hall : Forall (fun t => height t <= fuel /\ well_keyed t = true) items).
    { apply List.Forall_forall. intros t Hin. split.
      - apply height_item in Hin. lia.
      - cbn [well_keyed] in Hkeyed. rewrite forallb_forall in Hkeyed. auto. }
    pose proof (items_loop items vs 0 h (S lv) m' Hall Hseq Hm' Hold) as Hloop.
    destruct (merge_enumerate _ 0 items) as [items'|e].
    + destruct Hloop as (h' & Hrun & Hl' & Hout). exists h'.
      split; [exact Hrun|]. split.
      * exists lv, vs. split; [reflexivity|]. split; [exact Hmlv|]. split; [|exact Hl'].
        rewrite Hout by lia. exact Hlv.
      * intros l0 Hl0. apply Hout. lia.
    + destruct Hloop as (h' & Hrun). exists h'. exact Hrun.
  - pose proof (old_entry_getitem _ _ _ _ _ _ _ Hold) as Hgeto.
    destruct Hold as (le & okvs & -> & Hc & Hd & Hle & Hko & Hlo).
    pose proof (recur_refines (YMap sub) old_value v v_old h m m' c d
                  Hfuel Hkeyed Hlaid Hlo Hm') as Hrec.
    destruct (merge_tree raw (YMap sub) old_value) as [t'|e] eqn:Hm.
    + destruct Hrec as (h' & Hrun & Hl' & Hout).
      assert (Hfirst : (let* old_child := getitem (VRef le) key in
                        omit_templated_vars fuel raw v old_child) h = Ok tt h').
      { rewrite (bind_Ok _ _ _ _ _ Hgeto). exact Hrun. }
      rewrite (bind_Ok _ _ _ _ _ Hfirst).
      assert (Hl2 : h' !! l = Some (ODict kvs)) by (rewrite Hout by lia; exact Hl).
      rewrite (bind_Ok _ _ _ _ _ (getitem_dict key l kvs v h' Hl2 Hk)).
      rewrite (bind_Ok _ _ _ _ _ (read_run _ h')).
      destruct (merge_tree_mapping _ _ _ _ Hm) as (sub' & ->).
      rewrite (items_of_other _ _ _ _ _ Hl') by discriminate.
      exists h'. split; [reflexivity|]. split; assumption.
    + destruct Hrec as (h' & Hrun).
      assert (Hfirst : (let* old_child := getitem (VRef le) key in
                        omit_templated_vars fuel raw v old_child) h = Raise e h').
      { rewrite (bind_Ok _ _ _ _ _ Hgeto). exact Hrun. }
      rewrite (bind_Raise _ _ _ _ _ Hfirst). exists h'. reflexivity.
Qed.

(** The rest of the body for one key, from a store [h1] in which the
    value at the key is settled. *)
Lemma entry_finish (l : loc) (b : nat) (h h1 : store)
    (done_ rest : list (string * yaml)) (kvs1 kvs2 : list (string * value))
    (value1 : yaml) (v1 : value) (m m' : nat) :
  h1 !! l = Some (ODict (kvs1 ++ (key, v1) :: kvs2)) ->
  ~ In key (map fst kvs1) ->
  laid_seq (laid_entry h) done_ kvs1 (S l) m ->
  laid h1 value1 v1 m m' ->
  laid_seq (laid_entry h) rest kvs2 m' b ->
  (forall l0, l0 <> l -> h1 !! l0 = h !! l0) ->
  old_entry h existing key old_value v_old c d -> b <= c ->
  height value1 <= fuel -> well_keyed value1 = true ->
  match merge_value (merge_tree raw) old_value value1 with
  | Merged value' =>
      exists h' kvs',
        key_tail (VRef l) h1 = Ok tt h'
        /\ h' !! l = Some (ODict kvs')
        /\ laid_seq (laid_entry h') (done_ ++ (key, value') :: rest) kvs' (S l) b
        /\ forall l0, l0 < l \/ b <= l0 -> h' !! l0 = h !! l0
  | Raises e => exists h', key_tail (VRef l) h1 = Raise e h'
  end.
Proof.
  intros Hl Hnot Hdone Hv Hrest Hsame Hold Hb Hfuel Hkeyed.
  pose proof (laid_entries_bounds _ _ _ _ _ Hdone) as Hlm.
  pose proof (laid_bounds _ _ _ _ _ Hv) as Hmm.
  pose proof (laid_entries_bounds _ _ _ _ _ Hrest) as Hmb.
  assert (Hold1 : old_entry h1 existing key old_value v_old c d).
  { eapply old_entry_stable; [exact Hold|]. intros l0 H1 H2. apply Hsame. lia. }
  assert (Hk : assoc key (kvs1 ++ (key, v1) :: kvs2) = Some v1).
  { rewrite assoc_app_skip by exact Hnot. apply assoc_head. }
  pose proof (tail_step h1 l _ v1 value1 m m' Hl Hk Hv ltac:(lia) ltac:(lia) Hold1
                Hfuel Hkeyed) as Htail.
  destruct (merge_value (merge_tree raw) old_value value1) as [value'|e];
    [|exact Htail].
  destruct Htail as (h' & Hrun & Hv' & Hout).
  exists h', (kvs1 ++ (key, v1) :: kvs2). split; [exact Hrun|]. split.
  { rewrite Hout by lia. exact Hl. }
  split.
  - eapply (laid_seq_join (laid_entry h')).
    + intros t v a a' b0. apply laid_entry_left.
    + eapply laid_entries_stable; [exact Hdone|].
      intros l0 H1 H2. rewrite Hout by lia. apply Hsame. lia.
    + simpl. exists m'. split; [split; [reflexivity | exact Hv']|].
      eapply laid_entries_stable; [exact Hrest|].
      intros l0 H1 H2. rewrite Hout by lia. apply Hsame. lia.
  - intros l0 Hl0. rewrite Hout by lia. apply Hsame. lia.
Qed.

End OneKey.

(** A value that is not a templated string leaves the new value alone. *)
Lemma plain_old_value_skips (h : store) (old_value : yaml) (v_old : value) (c d : nat)
    (m1 m2 : M unit) :
  laid h old_value v_old c d -> is_templated old_value = false ->
  match v_old with
  | VStr s => if has_template_marker s then m1 else m2
  | _ => m2
  end = m2.
Proof.
  intros Hl Ht. destruct old_value as [| | |s| |]; cbn [laid] in Hl.
  1-3: destruct Hl as [-> _]; reflexivity.
  - destruct Hl as [-> _]. cbn [is_templated] in Ht. rewrite Ht. reflexivity.
  - destruct Hl as (l & vs & -> & _). reflexivity.
  - destruct Hl as (l & kvs & -> & _). reflexivity.
Qed.

(** The body of the loop over the keys, for one key. *)
Lemma entry_step (l : loc) (b : nat) (existing : value)
    (old_entries : list (string * yaml)) (c d : nat)
    (done_ rest : list (string * yaml)) (key : string)
    (kvs : list (string * value)) (value : yaml) (h : store) :
  distinct (map fst (done_ ++ (key, value) :: rest)) = true ->
  height value <= fuel -> well_keyed value = true ->
  h !! l = Some (ODict kvs) ->
  laid_seq (laid_entry h) (done_ ++ (key, value) :: rest) kvs (S l) b ->
  laid h (YMap old_entries) existing c d -> b <= c ->
  match merge_entry (merge_tree raw) raw old_entries (key, value) with
  | Merged kv' =>
      exists h' kvs',
        omit_templated_key (omit_templated_vars fuel raw) raw (VRef l) existing key h
        = Ok tt h'
        /\ h' !! l = Some (ODict kvs')
        /\ laid_seq (laid_entry h') (done_ ++ kv' :: rest) kvs' (S l) b
        /\ forall l0, l0 < l \/ b <= l0 -> h' !! l0 = h !! l0
  | Raises e =>
      exists h',
        omit_templated_key (omit_templated_vars fuel raw) raw (VRef l) existing key h
        = Raise e h'
  end.
Proof.
  intros Hdist Hfuel Hkeyed Hl Hseq Hold Hb.
  pose proof Hseq as Hseq0.
  apply laid_seq_split in Hseq. destruct Hseq as (kvs1 & kvs_r & m & -> & Hdone & H2).
  destruct kvs_r as [|[key' v] kvs2]; simpl in H2; [tauto|].
  destruct H2 as (m' & [Hk Hv] & Hrest). cbn [fst snd] in Hk, Hv. subst key'.
  pose proof (laid_entries_bounds _ _ _ _ _ Hdone) as Hlm.
  pose proof (laid_bounds _ _ _ _ _ Hv) as Hmm.
  pose proof (laid_entries_bounds _ _ _ _ _ Hrest) as Hmb.
  assert (Hnot : ~ In key (map fst kvs1)).
  { rewrite (laid_seq_keys _ _ _ _ _ Hdone).
    rewrite map_app in Hdist. cbn [map fst] in Hdist.
    eapply distinct_middle, Hdist. }
  assert (Hk : assoc key (kvs1 ++ (key, v) :: kvs2) = Some v).
  { rewrite assoc_app_skip by exact Hnot. apply assoc_head. }
  destruct (old_entry_of_laid h old_entries existing key c d Hold)
    as (le & okvs & -> & Hle & Hcase).
  unfold omit_templated_key.
  rewrite (bind_Ok _ _ _ _ _ (contains_dict key le okvs h Hle)).
  unfold merge_entry.
  destruct (assoc key old_entries) as [old_value|].
  2:{ unfold has_key. rewrite Hcase. cbn [negb].
      exists h, (kvs1 ++ (key, v) :: kvs2). split; [reflexivity|].
      split; [exact Hl|]. split; [exact Hseq0 | reflexivity]. }
  destruct Hcase as (v_old & Hentry).
  pose proof (old_entry_getitem _ _ _ _ _ _ _ Hentry) as Hgeto.
  assert (Hhas : has_key key okvs = true).
  { destruct Hentry as (le' & okvs' & [= <-] & _ & _ & Hle' & Hko & _).
    unfold loc in *. rewrite Hle in Hle'. injection Hle' as <-.
    eapply has_key_assoc, Hko. }
  rewrite Hhas. cbn [negb]. rewrite (bind_Ok _ _ _ _ _ Hgeto).
  assert (Hlo : laid h old_value v_old c d)
    by (destruct Hentry as (? & ? & _ & _ & _ & _ & _ & H); exact H).
  destruct (is_templated old_value) eqn:Htempl.
  - destruct old_value as [| | |s| |]; try discriminate.
    destruct Hlo as [-> Hcd]. cbn [is_templated] in Htempl. rewrite Htempl.
    destruct (existsb (String.eqb key) raw).
    + pose proof (getitem_dict key l _ v h Hl Hk) as Hget.
      destruct value as [| | |literal| |]; cbn [laid] in Hv.
      1-3: destruct Hv as [-> _]; exists h;
           apply bind_Raise; rewrite (bind_Ok _ _ _ _ _ Hget);
           reflexivity.
      2-3: destruct Hv as (lv & ? & -> & _); exists h;
           apply bind_Raise; rewrite (bind_Ok _ _ _ _ _ Hget);
           reflexivity.
      destruct Hv as [-> _].
      pose proof (setitem_dict key l _ (VStr (raw_wrap literal)) h Hl) as Hset.
      rewrite assoc_set_app_skip, assoc_set_head in Hset by exact Hnot.
      set (h1 := <[l := ODict (kvs1 ++ (key, VStr (raw_wrap literal)) :: kvs2)]> h) in *.
      assert (Hpre : (let* new_value := getitem (VRef l) key in
                      match new_value with
                      | VStr literal => setitem (VRef l) key (VStr (raw_wrap literal))
                      | _ => raise TypeError
                      end) h = Ok tt h1).
      { rewrite (bind_Ok _ _ _ _ _ Hget). exact Hset. }
      rewrite (bind_Ok _ _ _ _ _ Hpre).
      assert (Hl1 : h1 !! l = Some (ODict (kvs1 ++ (key, VStr (raw_wrap literal)) :: kvs2))).
      { apply list_lookup_insert_eq. eapply lookup_lt_Some, Hl. }
      assert (Hsame : forall l0, l0 <> l -> h1 !! l0 = h !! l0).
      { intros l0 Hne. apply list_lookup_insert_ne. congruence. }
      pose proof (entry_finish (VRef le) key (YStr s) (VStr s) c d l b h h1 done_ rest
                    kvs1 kvs2 (YStr (raw_wrap literal)) (VStr (raw_wrap literal)) m m'
                    Hl1 Hnot Hdone ltac:(split; [reflexivity | lia]) Hrest Hsame
                    Hentry Hb ltac:(cbn [height]; pose proof (height_pos (YStr literal)); lia)
                    eq_refl) as Hfin.
      exact Hfin.
    + pose proof (setitem_dict key l _ (VStr s) h Hl) as Hset.
      rewrite assoc_set_app_skip, assoc_set_head in Hset by exact Hnot.
      set (h1 := <[l := ODict (kvs1 ++ (key, VStr s) :: kvs2)]> h) in *.
      rewrite (bind_Ok _ _ _ _ _ Hset).
      assert (Hl1 : h1 !! l = Some (ODict (kvs1 ++ (key, VStr s) :: kvs2))).
      { apply list_lookup_insert_eq. eapply lookup_lt_Some, Hl. }
      assert (Hsame : forall l0, l0 <> l -> h1 !! l0 = h !! l0).
      { intros l0 Hne. apply list_lookup_insert_ne. congruence. }
      pose proof (entry_finish (VRef le) key (YStr s) (VStr s) c d l b h h1 done_ rest
                    kvs1 kvs2 (YStr s) (VStr s) m m'
                    Hl1 Hnot Hdone ltac:(split; [reflexivity | lia]) Hrest Hsame
                    Hentry Hb ltac:(pose proof (height_pos value); cbn [height]; lia)
                    eq_refl) as Hfin.
      exact Hfin.
  - rewrite (plain_old_value_skips h old_value v_old c d _ _ Hlo Htempl).
    rewrite bind_ret_tt.
    pose proof (entry_finish (VRef le) key old_value v_old c d l b h h done_ rest
                  kvs1 kvs2 value v m m' Hl Hnot Hdone Hv Hrest ltac:(reflexivity)
                  Hentry Hb Hfuel Hkeyed) as Hfin.
    destruct (merge_value (merge_tree raw) old_value value) as [value'|e];
      exact Hfin.
Qed.

(** The loop over the keys of the new mapping. *)
Lemma entries_loop (l : loc) (b : nat) (existing : value)
    (old_entries : list (string * yaml)) (c d : nat) (todo : list (string * yaml)) :
  forall (done_ : list (string * yaml)) (kvs : list (string * value)) (h : store),
    distinct (map fst (done_ ++ todo)) = true ->
    Forall (fun kv => height (snd kv) <= fuel /\ well_keyed (snd kv) = true) todo ->
    h !! l = Some (ODict kvs) ->
    laid_seq (laid_entry h) (done_ ++ todo) kvs (S l) b ->
    laid h (YMap old_entries) existing c d -> b <= c ->
    match merge_each (merge_entry (merge_tree raw) raw old_entries) todo with
    | Merged todo' =>
        exists h' kvs',
          for_each (omit_templated_key (omit_templated_vars fuel raw) raw (VRef l)
                      existing) (map fst todo) h = Ok tt h'
          /\ h' !! l = Some (ODict kvs')
          /\ laid_seq (laid_entry h') (done_ ++ todo') kvs' (S l) b
          /\ forall l0, l0 < l \/ b <= l0 -> h' !! l0 = h !! l0
    | Raises e =>
        exists h',
          for_each (omit_templated_key (omit_templated_vars fuel raw) raw (VRef l)
                      existing) (map fst todo) h = Raise e h'
    end.
Proof.
  induction todo as [|[key value] todo IH]; intros done_ kvs h Hdist Hall Hl Hseq Hold Hb.
  - cbn [merge_each map for_each]. exists h, kvs. split; [reflexivity|].
    split; [exact Hl|]. split; [exact Hseq | reflexivity].
  - inversion Hall as [|? ? [Hfuel Hkeyed] Hall']; subst. cbn [snd] in Hfuel, Hkeyed.
    cbn [merge_each map for_each fst].
    pose proof (entry_step l b existing old_entries c d done_ todo key kvs value h
                  Hdist Hfuel Hkeyed Hl Hseq Hold Hb) as Hstep.
    destruct (merge_entry (merge_tree raw) raw old_entries (key, value))
      as [kv'|e] eqn:Hkv.
    + destruct Hstep as (h1 & kvs1 & Hrun & Hl1 & Hseq1 & Hout1).
      rewrite (bind_Ok _ _ _ _ _ Hrun).
      apply merge_entry_key in Hkv. cbn [fst] in Hkv.
      pose proof (laid_entries_bounds _ _ _ _ _ Hseq) as Hlb.
      assert (Hold1 : laid h1 (YMap old_entries) existing c d).
      { eapply laid_stable; [exact Hold|]. intros l0 H1 H2. apply Hout1. lia. }
      assert (Hdist1 : distinct (map fst ((done_ ++ [kv']) ++ todo)) = true).
      { rewrite <- app_assoc. cbn [app]. rewrite map_app. cbn [map]. rewrite Hkv.
        rewrite map_app in Hdist. exact Hdist. }
      assert (Hseq1' : laid_seq (laid_entry h1) ((done_ ++ [kv']) ++ todo) kvs1 (S l) b).
      { rewrite <- app_assoc. exact Hseq1. }
      specialize (IH (done_ ++ [kv']) kvs1 h1 Hdist1 Hall' Hl1 Hseq1' Hold1 Hb).
      destruct (merge_each _ todo) as [todo'|e].
      * destruct IH as (h2 & kvs2 & Hrun2 & Hl2 & Hseq2 & Hout2).
        exists h2, kvs2. split; [exact Hrun2|]. split; [exact Hl2|]. split.
        -- rewrite <- app_assoc in Hseq2. exact Hseq2.
        -- intros l0 Hl0. rewrite Hout2 by exact Hl0. apply Hout1. exact Hl0.
      * destruct IH as (h2 & Hrun2). exists h2. exact Hrun2.
    + destruct Hstep as (h1 & Hrun). rewrite (bind_Raise _ _ _ _ _ Hrun).
      exists h1. reflexivity.
Qed.

End Refine.

(** [omit_templated_vars] on a well-keyed new tree and an existing tree
    that lie apart in the store does what the merge on trees says: it
    returns with the merged tree in the place of the new one, everything
    else as it was, or raises the same exception. *)
Lemma omit_templated_vars_refines (raw : list string) (fuel : nat) :
  forall new old content existing h a b c d,
    height new <= fuel -> well_keyed new = true ->
    laid h new content a b -> laid h old existing c d -> b <= c ->
    match merge_tree raw new old with
    | Merged t' =>
        exists h', omit_templated_vars fuel raw content existing h = Ok tt h'
                   /\ laid h' t' content a b
                   /\ forall l, l < a \/ b <= l -> h' !! l = h !! l
    | Raises e =>
        exists h', omit_templated_vars fuel raw content existing h = Raise e h'
    end.
Proof.
  induction fuel as [|fuel IH]; intros new old content existing h a b c d
    Hfuel Hkeyed Hnew Hold Hb.
  { pose proof (height_pos new). lia. }
  cbn [omit_templated_vars].
  destruct new as [| | | |items|entries].
  1-4: destruct Hnew as [-> Hab]; cbn [merge_tree deref]; exists h;
       split; [reflexivity|]; split; [split; [reflexivity | exact Hab] | reflexivity].
  - cbn [merge_tree]. pose proof Hnew as (l & vs & -> & _ & Hl & _).
    cbn [deref]. unfold loc in *. rewrite Hl. exists h.
    split; [reflexivity|]. split; [exact Hnew | reflexivity].
  - pose proof Hnew as Hnew0. apply laid_map in Hnew.
    destruct Hnew as (l & kvs & -> & Hal & Hl & Hseq).
    cbn [deref]. unfold loc in *. rewrite Hl.
    destruct old as [| | | |old_items|old_entries].
    1-4: destruct Hold as [-> _]; cbn [merge_tree]; exists h;
         split; [reflexivity|]; split; [exact Hnew0 | reflexivity].
    + destruct Hold as (le & ovs & -> & _ & Hle & _).
      cbn [deref]. unfold loc in *. rewrite Hle.
      cbn [merge_tree]. exists h.
      split; [reflexivity|]. split; [exact Hnew0 | reflexivity].
    + pose proof Hold as Hold0. apply laid_map in Hold.
      destruct Hold as (le & okvs & -> & _ & Hle & _).
      cbn [deref]. unfold loc in *. rewrite Hle.
      cbn [merge_tree]. rewrite (laid_seq_keys _ _ _ _ _ Hseq).
      cbn [well_keyed] in Hkeyed. apply andb_prop in Hkeyed.
      destruct Hkeyed as [Hdist Hsub].
      assert (Hall : Forall (fun kv => height (snd kv) <= fuel
                                       /\ well_keyed (snd kv) = true) entries).
      { apply List.Forall_forall. intros kv Hin. split.
        - apply height_entry in Hin. lia.
        - rewrite forallb_forall in Hsub. specialize (Hsub _ Hin).
          destruct kv; exact Hsub. }
      pose proof (entries_loop raw fuel IH l b (VRef le) old_entries c d entries []
                    kvs h Hdist Hall Hl Hseq Hold0 Hb) as Hloop.
      destruct (merge_each _ entries) as [entries'|e].
      * destruct Hloop as (h' & kvs' & Hrun & Hl' & Hseq' & Hout).
        exists h'. split; [exact Hrun|]. split.
        -- apply laid_map. exists l, kvs'. repeat (split; [assumption || reflexivity|]).
           exact Hseq'.
        -- intros l0 Hl0. apply Hout. lia.
      * exact Hloop.
Qed.

End StepFacts.

Module TreeFacts.
Import AssetImport ImportCases MoreCases TreeCases ImportFacts ImportMore LayoutFacts
  RefineFacts RunFacts StepFacts.

(** ** The merge of two parsed files *)

Lemma run_merge_refines (raw : list string) (fuel : nat) (new old : yaml) :
  well_keyed new = true -> height new <= fuel ->
  run_merge raw fuel new old = Some (merge_tree raw new old).
Proof.
  intros Hkeyed Hfuel. unfold run_merge, load_both.
  destruct (alloc new []) as [content h0] eqn:Hnew.
  destruct (alloc old h0) as [existing h1] eqn:Hold.
  pose proof (alloc_laid _ _ _ _ Hnew) as Hl0. cbn [length] in Hl0.
  pose proof (alloc_laid _ _ _ _ Hold) as Hl1.
  destruct (alloc_length _ _ _ _ Hold) as [Hlen Hkeep].
  assert (Hl0' : laid h1 new content 0 (length h0)).
  { eapply laid_stable; [exact Hl0|]. intros l _ Hl. apply Hkeep. exact Hl. }
  pose proof (omit_templated_vars_refines raw fuel new old content existing h1
                0 (length h0) (length h0) (length h1) Hfuel Hkeyed Hl0' Hl1
                (Nat.le_refl _)) as Hrun.
  destruct (merge_tree raw new old) as [t'|e] eqn:Hm.
  - destruct Hrun as (h' & -> & Hl' & _).
    pose proof (merge_tree_height raw _ _ _ _ (Nat.le_refl _) Hm) as Hh.
    rewrite (laid_dump h' t' fuel content _ _ Hl') by lia. reflexivity.
  - destruct Hrun as (h' & ->). reflexivity.
Qed.

(** [merged] is the returning half of [run_merge]. *)
Lemma merged_of_run (raw : list string) (fuel : nat) (new old : yaml) :
  merged raw fuel new old
  = match run_merge raw fuel new old with
    | Some (Merged t) => Some t
    | _ => None
    end.
Proof.
  unfold merged, run_merge. destruct (load_both new old) as [[content existing] h1].
  destruct (omit_templated_vars fuel raw content existing h1) as [[] h|e h|];
    try reflexivity.
  destruct (dump fuel h content); reflexivity.
Qed.

(** ** Paths through the merged tree *)

Lemma merge_each_assoc (recur : yaml -> yaml -> merged_tree yaml) (raw : list string)
    (old_entries : list (string * yaml)) (key : string) (entries : list (string * yaml)) :
  forall entries' value,
    merge_each (merge_entry recur raw old_entries) entries = Merged entries' ->
    assoc key entries = Some value ->
    exists value',
      assoc key entries' = Some value'
      /\ merge_entry recur raw old_entries (key, value) = Merged (key, value').
Proof.
  induction entries as [|[k v] entries IH]; intros entries' value Hm Hk;
    cbn [merge_each assoc] in *; [discriminate|].
  destruct (merge_entry recur raw old_entries (k, v)) as [[k' v']|e] eqn:Hkv;
    [|discriminate].
  destruct (merge_each _ entries) as [rest|e]; [|discriminate].
  injection Hm as <-.
  pose proof (merge_entry_key _ _ _ _ _ Hkv) as Hkey. cbn [fst] in Hkey. subst k'.
  cbn [assoc]. destruct (String.eqb_spec k key) as [->|Hne].
  - injection Hk as <-. exists v'. split; [reflexivity | exact Hkv].
  - eapply IH; [reflexivity | exact Hk].
Qed.

Lemma merge_enumerate_lookup {A : Type} (f : nat -> A -> merged_tree A) (xs : list A) :
  forall i0 xs' j x,
    merge_enumerate f i0 xs = Merged xs' -> xs !! j = Some x ->
    exists x', xs' !! j = Some x' /\ f (i0 + j) x = Merged x'.
Proof.
  induction xs as [|y xs IH]; intros i0 xs' j x Hm Hj; [destruct j; discriminate|].
  cbn [merge_enumerate] in Hm.
  destruct (f i0 y) as [y'|e] eqn:Hy; [|discriminate].
  destruct (merge_enumerate f (S i0) xs) as [rest|e] eqn:Hrest; [|discriminate].
  injection Hm as <-. destruct j as [|j].
  - injection Hj as <-. exists y'. rewrite Nat.add_0_r. split; [reflexivity | exact Hy].
  - change ((y :: xs) !! S j) with (xs !! j) in Hj.
    destruct (IH _ _ _ _ Hrest Hj) as (x' & Hx' & Hf).
    exists x'. split; [exact Hx'|]. rewrite <- Nat.add_succ_comm. exact Hf.
Qed.

Lemma at_path_key (t : yaml) (k : string) (rest : list step) (leaf : yaml) :
  at_path t (Key k :: rest) = Some leaf ->
  exists entries child,
    t = YMap entries /\ assoc k entries = Some child /\ at_path child rest = Some leaf.
Proof.
  cbn [at_path]. destruct t as [| | | | |entries]; try discriminate.
  destruct (assoc k entries) as [child|] eqn:Hk; [|discriminate].
  intros H. exists entries, child. auto.
Qed.

Lemma at_path_index (t : yaml) (i : nat) (rest : list step) (leaf : yaml) :
  at_path t (Index i :: rest) = Some leaf ->
  exists items child,
    t = YList items /\ items !! i = Some child /\ at_path child rest = Some leaf.
Proof.
  cbn [at_path]. destruct t as [| | | |items|]; try discriminate.
  destruct (items !! i) as [child|] eqn:Hi; [|discriminate].
  intros H. exists items, child. auto.
Qed.

Section Path.

Variable raw : list string.
Variable key : string.
Variable s : string.
Variables leaf result : yaml.

(** What the loop body makes of the last key of the path. *)
Hypothesis last_key :
  forall old_entries,
    assoc key old_entries = Some (YStr s) ->
    merge_entry (merge_tree raw) raw old_entries (key, leaf) = Merged (key, result).

Lemma merge_tree_at_path (n : nat) :
  forall path new old t',
    length path <= n ->
    merge_path (path ++ [Key key]) = true ->
    at_path new (path ++ [Key key]) = Some leaf ->
    at_path old (path ++ [Key key]) = Some (YStr s) ->
    merge_tree raw new old = Merged t' ->
    at_path t' (path ++ [Key key]) = Some result.
Proof.
  induction n as [|n IH]; intros path new old t' Hn Hpath Hnew Hold Hm.
  - destruct path; [|cbn [length] in Hn; lia]. cbn [app] in *.
    apply at_path_key in Hnew. destruct Hnew as (entries & child & -> & Hk & [= ->]).
    apply at_path_key in Hold.
    destruct Hold as (old_entries & old_child & -> & Hko & [= ->]).
    cbn [merge_tree] in Hm.
    destruct (merge_each _ entries) as [entries'|e] eqn:Hloop; [|discriminate].
    injection Hm as <-.
    destruct (merge_each_assoc _ _ _ _ _ _ _ Hloop Hk) as (value' & Hk' & Hkv).
    rewrite (last_key _ Hko) in Hkv. injection Hkv as <-.
    cbn [at_path]. rewrite Hk'. reflexivity.
  - destruct path as [|[k|i] rest]; [apply (IH [] new old t'); auto; cbn; lia| |].
    2:{ cbn [app merge_path] in Hpath. discriminate. }
    cbn [app] in *.
    apply at_path_key in Hnew. destruct Hnew as (entries & child & -> & Hk & Hnew).
    apply at_path_key in Hold.
    destruct Hold as (old_entries & old_child & -> & Hko & Hold).
    cbn [merge_tree] in Hm.
    destruct (merge_each _ entries) as [entries'|e] eqn:Hloop; [|discriminate].
    injection Hm as <-.
    destruct (merge_each_assoc _ _ _ _ _ _ _ Hloop Hk) as (child' & Hk' & Hkv).
    cbn [at_path]. rewrite Hk'.
    unfold merge_entry in Hkv. rewrite Hko in Hkv.
    cbn [length] in Hn.
    destruct rest as [|[k2|i2] rest].
    + (* the last key is next *)
      cbn [app] in *. pose proof Hnew as Hnew0. pose proof Hold as Hold0.
      apply at_path_key in Hnew. destruct Hnew as (sub & ? & -> & _).
      apply at_path_key in Hold. destruct Hold as (old_sub & ? & -> & _).
      cbn [is_templated merge_value] in Hkv.
      destruct (merge_tree raw (YMap sub) (YMap old_sub)) as [t'|e] eqn:Hsub;
        [|discriminate].
      injection Hkv as <-.
      apply (IH [] (YMap sub) (YMap old_sub) t'); auto; cbn [length]; lia.
    + (* a key is next *)
      cbn [app] in *. pose proof Hnew as Hnew0. pose proof Hold as Hold0.
      apply at_path_key in Hnew. destruct Hnew as (sub & ? & -> & _).
      apply at_path_key in Hold. destruct Hold as (old_sub & ? & -> & _).
      cbn [is_templated merge_value] in Hkv.
      destruct (merge_tree raw (YMap sub) (YMap old_sub)) as [t'|e] eqn:Hsub;
        [|discriminate].
      injection Hkv as <-.
      apply (IH (Key k2 :: rest) (YMap sub) (YMap old_sub) t'); auto.
      cbn [length] in *. lia.
    + (* an index is next, then a key *)
      cbn [app] in *. cbn [merge_path] in Hpath.
      apply at_path_index in Hnew. destruct Hnew as (items & item & -> & Hi & Hnew).
      apply at_path_index in Hold.
      destruct Hold as (old_items & old_item_ & -> & Hio & Hold).
      cbn [is_templated merge_value] in Hkv.
      destruct (merge_enumerate _ 0 items) as [items'|e] eqn:Hitems; [|discriminate].
      injection Hkv as <-.
      destruct (merge_enumerate_lookup _ _ _ _ _ _ Hitems Hi) as (item' & Hi' & Hitem).
      cbn [at_path]. rewrite Hi'. cbn [Nat.add] in Hitem.
      destruct (rest ++ [Key key]) as [|[k3|i3] rest3] eqn:Hrest; try discriminate.
      pose proof Hnew as Hnew0. pose proof Hold as Hold0.
      apply at_path_key in Hnew. destruct Hnew as (sub & ? & -> & _).
      apply at_path_key in Hold. destruct Hold as (old_sub & ? & -> & Hko3 & _).
      unfold merge_item in Hitem. cbn [old_item] in Hitem. rewrite Hio in Hitem.
      assert (Htruthy : TranslateUtils.truthy (YMap old_sub) = true).
      { destruct old_sub; [discriminate Hko3 | reflexivity]. }
      rewrite Htruthy in Hitem. rewrite <- Hrest in *.
      apply (IH rest (YMap sub) (YMap old_sub) item'); auto.
      cbn [length] in *. lia.
Qed.

End Path.

(** ** When the merge fails *)

Lemma merge_each_fails {A : Type} (f : A -> merged_tree A) (xs : list A) (x : A) (e : exn) :
  In x xs -> f x = Raises e -> exists e', merge_each f xs = Raises e'.
Proof.
  induction xs as [|y xs IH]; intros Hin Hx; [destruct Hin|]. cbn [merge_each].
  destruct (f y) as [y'|e'] eqn:Hy; [|eexists; reflexivity].
  destruct Hin as [->|Hin]; [congruence|].
  destruct (IH Hin Hx) as (e'' & ->). eexists; reflexivity.
Qed.

Lemma merge_enumerate_fails {A : Type} (f : nat -> A -> merged_tree A) (xs : list A)
    (x : A) :
  In x xs -> (forall i, exists e, f i x = Raises e) ->
  forall i0, exists e', merge_enumerate f i0 xs = Raises e'.
Proof.
  induction xs as [|y xs IH]; intros Hin Hx i0; [destruct Hin|]. cbn [merge_enumerate].
  destruct (f i0 y) as [y'|e'] eqn:Hy; [|eexists; reflexivity].
  destruct Hin as [->|Hin].
  - destruct (Hx i0) as (e & He). congruence.
  - destruct (IH Hin Hx (S i0)) as (e'' & ->). eexists; reflexivity.
Qed.

Lemma assoc_In {V : Type} (k : string) (d : list (string * V)) (v : V) :
  assoc k d = Some v -> In (k, v) d.
Proof.
  induction d as [|[k' v'] d IH]; cbn [assoc]; [discriminate|].
  destruct (String.eqb_spec k' k) as [->|Hne].
  - intros [= ->]. left. reflexivity.
  - intros H. right. apply IH, H.
Qed.

Lemma merge_tree_fails (raw : list string) (entries old_entries : list (string * yaml))
    (key : string) (items : list yaml) (old_value : yaml) :
  assoc key entries = Some (YList items) ->
  existsb FileCases.is_mapping items = true ->
  assoc key old_entries = Some old_value ->
  not_a_sequence old_value = true ->
  exists e, merge_tree raw (YMap entries) (YMap old_entries) = Raises e.
Proof.
  intros Hk Hitems Hko Hold. cbn [merge_tree].
  enough (exists e, merge_each (merge_entry (merge_tree raw) raw old_entries) entries
                    = Raises e) as (e & ->) by (eexists; reflexivity).
  apply existsb_exists in Hitems. destruct Hitems as (item & Hin & Hmap).
  assert (Hraise : exists e, merge_enumerate (merge_item (merge_tree raw) old_value) 0 items
                              = Raises e).
  { eapply merge_enumerate_fails; [exact Hin|]. intros i.
    destruct item; try discriminate. unfold merge_item.
    destruct old_value; try discriminate; cbn [old_item]; eexists; reflexivity. }
  destruct Hraise as (e & Hraise).
  eapply (merge_each_fails _ _ (key, YList items) e); [apply assoc_In, Hk|].
  unfold merge_entry. rewrite Hko.
  assert (Htempl : is_templated old_value = false)
    by (destruct old_value; try reflexivity; discriminate).
  rewrite Htempl. cbn [merge_value]. rewrite Hraise. reflexivity.
Qed.

(** ** Items past the end of the existing list *)

Lemma merge_tree_past_the_end (raw : list string)
    (entries old_entries : list (string * yaml)) (key : string)
    (items old_items : list yaml) (i : nat) (item : yaml) (t' : yaml) :
  assoc key entries = Some (YList items) -> items !! i = Some item ->
  assoc key old_entries = Some (YList old_items) -> length old_items <= i ->
  merge_tree raw (YMap entries) (YMap old_entries) = Merged t' ->
  at_path t' [Key key; Index i] = Some item.
Proof.
  intros Hk Hi Hko Hlen Hm. cbn [merge_tree] in Hm.
  destruct (merge_each _ entries) as [entries'|e] eqn:Hloop; [|discriminate].
  injection Hm as <-.
  destruct (merge_each_assoc _ _ _ _ _ _ _ Hloop Hk) as (child' & Hk' & Hkv).
  unfold merge_entry in Hkv. rewrite Hko in Hkv. cbn [is_templated merge_value] in Hkv.
  destruct (merge_enumerate _ 0 items) as [items'|e] eqn:Hitems; [|discriminate].
  injection Hkv as <-.
  destruct (merge_enumerate_lookup _ _ _ _ _ _ Hitems Hi) as (item' & Hi' & Hitem).
  cbn [at_path]. rewrite Hk', Hi'. f_equal.
  unfold merge_item in Hitem. cbn [old_item Nat.add] in Hitem.
  rewrite (lookup_ge_None_2 old_items i Hlen) in Hitem.
  destruct item; congruence.
Qed.

(** ** Items that are no mappings *)

Lemma merge_tree_other_item (raw : list string)
    (entries old_entries : list (string * yaml)) (key : string)
    (items : list yaml) (i : nat) (item : yaml) (t' : yaml) :
  assoc key entries = Some (YList items) -> items !! i = Some item ->
  FileCases.is_mapping item = false ->
  old_is_plain key old_entries = true ->
  merge_tree raw (YMap entries) (YMap old_entries) = Merged t' ->
  at_path t' [Key key; Index i] = Some item.
Proof.
  intros Hk Hi Hitem Hplain Hm. cbn [merge_tree] in Hm.
  destruct (merge_each _ entries) as [entries'|e] eqn:Hloop; [|discriminate].
  injection Hm as <-.
  destruct (merge_each_assoc _ _ _ _ _ _ _ Hloop Hk) as (child' & Hk' & Hkv).
  cbn [at_path]. rewrite Hk'.
  unfold merge_entry in Hkv. unfold old_is_plain in Hplain.
  destruct (assoc key old_entries) as [old_value|].
  2:{ injection Hkv as <-. rewrite Hi. reflexivity. }
  assert (Htempl : is_templated old_value = false).
  { destruct old_value; try reflexivity. cbn [is_templated].
    apply negb_true_iff. exact Hplain. }
  rewrite Htempl in Hkv. cbn [merge_value] in Hkv.
  destruct (merge_enumerate _ 0 items) as [items'|e] eqn:Hitems; [|discriminate].
  injection Hkv as <-.
  destruct (merge_enumerate_lookup _ _ _ _ _ _ Hitems Hi) as (item' & Hi' & Hmerge).
  rewrite Hi'. f_equal.
  unfold merge_item in Hmerge. destruct item; try discriminate; congruence.
Qed.

(** ** The theorems *)

(** X24: on two freshly parsed files, the new one with no key twice in a
    mapping, [omit_templated_vars] computes the merge on trees: it returns
    with that tree in the place of the new one, or raises the exception the
    merge on trees names, given fuel for the height of the new tree. *)
Theorem parsed_files_merge_as_trees (raw : list string) (fuel : nat) (new old : yaml) :
  well_keyed new = true -> height new <= fuel ->
  run_merge raw fuel new old = Some (merge_tree raw new old)
  /\ merged raw fuel new old
     = match merge_tree raw new old with
       | Merged t => Some t
       | Raises _ => None
       end.
Proof.
  intros Hkeyed Hfuel.
  pose proof (run_merge_refines raw fuel new old Hkeyed Hfuel) as Hrun.
  split; [exact Hrun|]. rewrite merged_of_run, Hrun. reflexivity.
Qed.

Lemma parsed_files_merge_as_trees_witness :
  let new := YMap [("params", YMap [("metrics", YList [YMap [("sql", YStr "count(*)")]])]);
                   ("name", YStr "n")] in
  let old := YMap [("name", YStr "{{ NAME }}");
                   ("params", YMap [("metrics", YList [YMap [("sql", YStr "{{ SQL }}")]])])] in
  (well_keyed new = true /\ height new <= 5)
  /\ run_merge ["sql"] 5 new old
     = Some (Merged (YMap [("params",
                            YMap [("metrics",
                                   YList [YMap [("sql", YStr "{% raw %}count(*){% endraw %}")]])]);
                           ("name", YStr "{{ NAME }}")])).
Proof.
  cbv zeta. split; [split; [reflexivity | vm_compute; lia]|].
  refine (eq_trans (proj1 (parsed_files_merge_as_trees ["sql"] 5 _ _ _ _)) _);
    [reflexivity | vm_compute; lia | reflexivity].
Defined.

(** X25: a templated string of the existing file, at any depth the merge
    walks (keys, and indexes into lists of mappings), whose key is no raw
    variable, takes the place of whatever the new file holds there, when
    the merge returns; the merge returns or raises [KeyError] or
    [TypeError]. *)
Theorem templated_string_survives_at_depth (raw : list string) (fuel : nat)
    (new old : yaml) (path : list step) (key s : string) (leaf : yaml) :
  well_keyed new = true -> height new <= fuel ->
  merge_path (path ++ [Key key]) = true ->
  at_path new (path ++ [Key key]) = Some leaf ->
  at_path old (path ++ [Key key]) = Some (YStr s) ->
  has_template_marker s = true ->
  existsb (String.eqb key) raw = false ->
  match run_merge raw fuel new old with
  | Some (Merged t') => at_path t' (path ++ [Key key]) = Some (YStr s)
  | Some (Raises e) => e = KeyError \/ e = TypeError
  | None => False
  end.
Proof.
  intros Hkeyed Hfuel Hpath Hnew Hold Hs Hraw.
  rewrite (run_merge_refines raw fuel new old Hkeyed Hfuel).
  destruct (merge_tree raw new old) as [t'|e] eqn:Hm.
  - eapply (merge_tree_at_path raw key s leaf (YStr s));
      [|apply Nat.le_refl|exact Hpath|exact Hnew|exact Hold|exact Hm].
    intros old_entries Hk. unfold merge_entry. rewrite Hk.
    cbn [is_templated]. rewrite Hs, Hraw. reflexivity.
  - eapply merge_tree_raises; [apply Nat.le_refl | exact Hm].
Qed.

Lemma templated_string_survives_at_depth_witness :
  let new := YMap [("params", YMap [("metrics", YList [YMap [("sql", YInt 3)]])])] in
  let old := YMap [("params", YMap [("metrics", YList [YMap [("sql", YStr "{{ SQL }}")]])])] in
  let path := [Key "params"; Key "metrics"; Index 0] in
  (at_path new (path ++ [Key "sql"]) = Some (YInt 3)
   /\ at_path old (path ++ [Key "sql"]) = Some (YStr "{{ SQL }}"))
  /\ match run_merge [] 5 new old with
     | Some (Merged t') => at_path t' (path ++ [Key "sql"]) = Some (YStr "{{ SQL }}")
     | Some (Raises e) => e = KeyError \/ e = TypeError
     | None => False
     end.
Proof.
  cbv zeta. split; [split; reflexivity|].
  apply (templated_string_survives_at_depth [] 5 _ _
           [Key "params"; Key "metrics"; Index 0] "sql" "{{ SQL }}" (YInt 3));
    try reflexivity.
  all: vm_compute; lia.
Defined.

(** X26: at the same depths, where the existing file holds a templated
    string under a raw variable and the new file a string, the merged file
    holds the new string between the raw markers. *)
Theorem raw_variable_is_wrapped_at_depth (raw : list string) (fuel : nat)
    (new old : yaml) (path : list step) (key s literal : string) :
  well_keyed new = true -> height new <= fuel ->
  merge_path (path ++ [Key key]) = true ->
  at_path new (path ++ [Key key]) = Some (YStr literal) ->
  at_path old (path ++ [Key key]) = Some (YStr s) ->
  has_template_marker s = true ->
  existsb (String.eqb key) raw = true ->
  match run_merge raw fuel new old with
  | Some (Merged t') => at_path t' (path ++ [Key key]) = Some (YStr (raw_wrap literal))
  | Some (Raises e) => e = KeyError \/ e = TypeError
  | None => False
  end.
Proof.
  intros Hkeyed Hfuel Hpath Hnew Hold Hs Hraw.
  rewrite (run_merge_refines raw fuel new old Hkeyed Hfuel).
  destruct (merge_tree raw new old) as [t'|e] eqn:Hm.
  - eapply (merge_tree_at_path raw key s (YStr literal) (YStr (raw_wrap literal)));
      [|apply Nat.le_refl|exact Hpath|exact Hnew|exact Hold|exact Hm].
    intros old_entries Hk. unfold merge_entry. rewrite Hk.
    cbn [is_templated]. rewrite Hs, Hraw. reflexivity.
  - eapply merge_tree_raises; [apply Nat.le_refl | exact Hm].
Qed.

Lemma raw_variable_is_wrapped_at_depth_witness :
  let new := YMap [("queries", YList [YInt 1; YMap [("sqlExpression", YStr "count(*)")]])] in
  let old := YMap [("queries", YList [YNull; YMap [("sqlExpression", YStr "{{ X }}")]])] in
  let path := [Key "queries"; Index 1] in
  (at_path new (path ++ [Key "sqlExpression"]) = Some (YStr "count(*)")
   /\ at_path old (path ++ [Key "sqlExpression"]) = Some (YStr "{{ X }}"))
  /\ match run_merge ["sqlExpression"] 4 new old with
     | Some (Merged t') =>
         at_path t' (path ++ [Key "sqlExpression"])
         = Some (YStr (raw_wrap "count(*)"))
     | Some (Raises e) => e = KeyError \/ e = TypeError
     | None => False
     end.
Proof.
  cbv zeta. split; [split; reflexivity|].
  apply (raw_variable_is_wrapped_at_depth ["sqlExpression"] 4 _ _
           [Key "queries"; Index 1] "sqlExpression" "{{ X }}" "count(*)");
    try reflexivity.
  all: vm_compute; lia.
Defined.

(** X27: where the new file holds a list with a mapping in it and the
    existing file holds, at the same key, a value that is neither a list
    nor a string, the merge does not return: it raises [KeyError] or
    [TypeError]. *)
Theorem list_against_non_sequence_fails (raw : list string) (fuel : nat)
    (entries old_entries : list (string * yaml)) (key : string) (items : list yaml)
    (old_value : yaml) :
  well_keyed (YMap entries) = true -> height (YMap entries) <= fuel ->
  assoc key entries = Some (YList items) ->
  existsb FileCases.is_mapping items = true ->
  assoc key old_entries = Some old_value ->
  not_a_sequence old_value = true ->
  exists e,
    run_merge raw fuel (YMap entries) (YMap old_entries) = Some (Raises e)
    /\ (e = KeyError \/ e = TypeError).
Proof.
  intros Hkeyed Hfuel Hk Hitems Hko Hold.
  rewrite (run_merge_refines raw fuel _ (YMap old_entries) Hkeyed Hfuel).
  destruct (merge_tree_fails raw entries old_entries key items old_value
              Hk Hitems Hko Hold) as (e & Hm).
  exists e. split; [rewrite Hm; reflexivity|].
  eapply merge_tree_raises; [apply Nat.le_refl | exact Hm].
Qed.

Lemma list_against_non_sequence_fails_witness :
  let entries := [("columns", YList [YMap [("column_name", YStr "a")]])] in
  let old_entries := [("columns", YMap [("a", YNull)])] in
  (assoc "columns" entries = Some (YList [YMap [("column_name", YStr "a")]])
   /\ not_a_sequence (YMap [("a", YNull)]) = true)
  /\ exists e,
       run_merge [] 4 (YMap entries) (YMap old_entries) = Some (Raises e)
       /\ (e = KeyError \/ e = TypeError).
Proof.
  cbv zeta. split; [split; reflexivity|].
  apply (list_against_non_sequence_fails [] 4 _ _ "columns"
           [YMap [("column_name", YStr "a")]] (YMap [("a", YNull)]));
    try reflexivity.
  all: vm_compute; lia.
Defined.

(** X28: an item of a list of the new file at an index past the end of
    the existing list at the same key is left as it is, when the merge
    returns: the [IndexError] is passed over. *)
Theorem item_past_the_existing_list_is_kept (raw : list string) (fuel : nat)
    (entries old_entries : list (string * yaml)) (key : string)
    (items old_items : list yaml) (i : nat) (item : yaml) :
  well_keyed (YMap entries) = true -> height (YMap entries) <= fuel ->
  assoc key entries = Some (YList items) -> items !! i = Some item ->
  assoc key old_entries = Some (YList old_items) -> length old_items <= i ->
  match run_merge raw fuel (YMap entries) (YMap old_entries) with
  | Some (Merged t') => at_path t' [Key key; Index i] = Some item
  | Some (Raises e) => e = KeyError \/ e = TypeError
  | None => False
  end.
Proof.
  intros Hkeyed Hfuel Hk Hi Hko Hlen.
  rewrite (run_merge_refines raw fuel _ (YMap old_entries) Hkeyed Hfuel).
  destruct (merge_tree raw (YMap entries) (YMap old_entries)) as [t'|e] eqn:Hm.
  - exact (merge_tree_past_the_end raw entries old_entries key items old_items i item t'
             Hk Hi Hko Hlen Hm).
  - eapply merge_tree_raises; [apply Nat.le_refl | exact Hm].
Qed.

Lemma item_past_the_existing_list_is_kept_witness :
  let item := YMap [("sql", YStr "b")] in
  let entries := [("metrics", YList [YMap [("sql", YStr "a")]; item])] in
  let old_entries := [("metrics", YList [YMap [("sql", YStr "{{ A }}")]])] in
  (assoc "metrics" entries = Some (YList [YMap [("sql", YStr "a")]; item])
   /\ length [YMap [("sql", YStr "{{ A }}")]] <= 1)
  /\ match run_merge [] 4 (YMap entries) (YMap old_entries) with
     | Some (Merged t') => at_path t' [Key "metrics"; Index 1] = Some item
     | Some (Raises e) => e = KeyError \/ e = TypeError
     | None => False
     end.
Proof.
  cbv zeta. split; [split; [reflexivity | cbn [length]; lia]|].
  apply (item_past_the_existing_list_is_kept [] 4 _ _ "metrics"
           [YMap [("sql", YStr "a")]; YMap [("sql", YStr "b")]]
           [YMap [("sql", YStr "{{ A }}")]] 1 (YMap [("sql", YStr "b")]));
    try reflexivity; try (cbn [length]; lia).
  all: vm_compute; lia.
Defined.

(** X29: only the mappings of a list are merged.  An item of a list of
    the new file that is no mapping (a string, a number, a nested list) is
    left as it is when the merge returns, whatever the existing file holds
    at that index, a templated string included, as long as the existing
    value at the key of the list is no templated string itself. *)
Theorem item_that_is_no_mapping_is_kept (raw : list string) (fuel : nat)
    (entries old_entries : list (string * yaml)) (key : string)
    (items : list yaml) (i : nat) (item : yaml) :
  well_keyed (YMap entries) = true -> height (YMap entries) <= fuel ->
  assoc key entries = Some (YList items) -> items !! i = Some item ->
  FileCases.is_mapping item = false ->
  old_is_plain key old_entries = true ->
  match run_merge raw fuel (YMap entries) (YMap old_entries) with
  | Some (Merged t') => at_path t' [Key key; Index i] = Some item
  | Some (Raises e) => e = KeyError \/ e = TypeError
  | None => False
  end.
Proof.
  intros Hkeyed Hfuel Hk Hi Hitem Hplain.
  rewrite (run_merge_refines raw fuel _ (YMap old_entries) Hkeyed Hfuel).
  destruct (merge_tree raw (YMap entries) (YMap old_entries)) as [t'|e] eqn:Hm.
  - exact (merge_tree_other_item raw entries old_entries key items i item t'
             Hk Hi Hitem Hplain Hm).
  - eapply merge_tree_raises; [apply Nat.le_refl | exact Hm].
Qed.

Lemma item_that_is_no_mapping_is_kept_witness :
  let entries := [("groupby", YList [YStr "org"; YStr "course"])] in
  let old_entries := [("groupby", YList [YStr "{{ ORG }}"; YStr "course"])] in
  (assoc "groupby" entries = Some (YList [YStr "org"; YStr "course"])
   /\ old_is_plain "groupby" old_entries = true)
  /\ match run_merge [] 3 (YMap entries) (YMap old_entries) with
     | Some (Merged t') => at_path t' [Key "groupby"; Index 0] = Some (YStr "org")
     | Some (Raises e) => e = KeyError \/ e = TypeError
     | None => False
     end.
Proof.
  cbv zeta. split; [split; reflexivity|].
  apply (item_that_is_no_mapping_is_kept [] 3 _ _ "groupby"
           [YStr "org"; YStr "course"] 0 (YStr "org"));
    try reflexivity.
  all: vm_compute; lia.
Defined.

End TreeFacts.
